(** * lib_sw_pll: the Python model of the software PLL (sw_pll_sim.py)

    A shallow embedding of [python/sw_pll_sim.py]: the application-PLL
    frequency model, the register look-up table, the error-to-frequency
    mapper and the PI/PII controller, followed by the properties the
    specification states about them.

    Python [float] is IEEE-754 binary64, embedded as Rocq's primitive
    [float]; Python [int] is unbounded, embedded as [Z].  Exceptions are
    values of [exn]; a method that mutates [self] and may raise is a
    function from the object to the mutated object and a [result].

    The package does not pin NumPy, and three of the NumPy calls it
    makes behave differently from one release or machine to another:
    whether [np.zeros] can allocate, whether storing an out-of-range
    integer in a [uint16] array raises or wraps, and which of its two
    loops [np.clip] runs.  These are the fields of [np.environment];
    every definition that calls NumPy takes the environment as an
    implicit argument and every property is proved for all of them. *)

From Stdlib Require Import ZArith Lia Bool String.
From Stdlib Require Import Floats.
From stdpp Require Import base list.

Local Open Scope Z_scope.

(** ** Python values, exceptions and arithmetic *)

Module Py.

(** The exceptions the simulator can raise. *)
Inductive exn : Type :=
  | AssertionError (msg : string)
  | ZeroDivisionError
  | OverflowError
  | ValueError
  | IndexError
  | AttributeError
  | UnboundLocalError
  | MemoryError.

Inductive result (A : Type) : Type :=
  | Ok (a : A)
  | Raise (e : exn).
Arguments Ok {A} a.
Arguments Raise {A} e.

Definition bind {A B : Type} (m : result A) (k : A -> result B) : result B :=
  match m with
  | Ok a => k a
  | Raise e => Raise e
  end.

Definition assert (b : bool) (msg : string) : result unit :=
  if b then Ok tt else Raise (AssertionError msg).

Definition is_ok {A : Type} (m : result A) : bool :=
  match m with Ok _ => true | Raise _ => false end.

(** A number held by an attribute or passed as an argument: the code is
    dynamically typed and tests [type(x) is int]. *)
Inductive pyval : Type :=
  | PyInt (z : Z)
  | PyFloat (x : float).

Definition is_int (v : pyval) : bool :=
  match v with PyInt _ => true | PyFloat _ => false end.

(** [float(z)] rounded to nearest-even, without the overflow test. *)
Definition Z2F (z : Z) : float :=
  SF2Prim (binary_normalize prec emax z 0 false).

(** The implicit conversion of an [int] operand in mixed arithmetic:
    OverflowError when the integer is too large for a double. *)
Definition float_of_Z (z : Z) : result float :=
  let x := Z2F z in
  if is_infinity x then Raise OverflowError else Ok x.

Definition to_float (v : pyval) : result float :=
  match v with
  | PyInt z => float_of_Z z
  | PyFloat x => Ok x
  end.

(** [int(x)] on a float: truncation toward zero; ValueError on NaN,
    OverflowError on an infinity. *)
Definition trunc_SF (x : spec_float) : result Z :=
  match x with
  | S754_nan => Raise ValueError
  | S754_infinity _ => Raise OverflowError
  | S754_zero _ => Ok 0
  | S754_finite s m e =>
      Ok (if 0 <=? e then cond_Zopp s (Z.pos m * 2 ^ e)
          else Z.quot (cond_Zopp s (Z.pos m)) (2 ^ (- e)))
  end.

Definition int_of_float (x : float) : result Z := trunc_SF (Prim2SF x).

(** [int(v)]. *)
Definition py_int (v : pyval) : result Z :=
  match v with
  | PyInt z => Ok z
  | PyFloat x => int_of_float x
  end.

(** [math.floor] on a float, for comparison with [int]. *)
Definition floor_SF (x : spec_float) : result Z :=
  match x with
  | S754_nan => Raise ValueError
  | S754_infinity _ => Raise OverflowError
  | S754_zero _ => Ok 0
  | S754_finite s m e =>
      Ok (if 0 <=? e then cond_Zopp s (Z.pos m * 2 ^ e)
          else Z.div (cond_Zopp s (Z.pos m)) (2 ^ (- e)))
  end.

Definition floor_of_float (x : float) : result Z := floor_SF (Prim2SF x).

(** [x / y] on floats: ZeroDivisionError when the divisor is [0.0] or
    [-0.0]; overflow gives an infinity, not an exception. *)
Definition float_div (x y : float) : result float :=
  if (y =? 0)%float then Raise ZeroDivisionError else Ok (x / y)%float.

(** [a / b] on ints (true division).  When both operands are exactly
    representable the quotient of the two doubles is the correctly
    rounded result; otherwise the quotient is rounded once from the
    exact integers, and OverflowError is raised if it is too large. *)
Definition small_int (z : Z) : bool := Z.abs z <=? 2 ^ 53.

Definition SF_of_Z_exact (z : Z) : spec_float :=
  match z with
  | Z0 => S754_zero false
  | Zpos m => S754_finite false m 0
  | Zneg m => S754_finite true m 0
  end.

Definition int_truediv (a b : Z) : result float :=
  if b =? 0 then Raise ZeroDivisionError
  else if small_int a && small_int b then Ok (Z2F a / Z2F b)%float
  else
    match SFdiv prec emax (SF_of_Z_exact a) (SF_of_Z_exact b) with
    | S754_infinity _ => Raise OverflowError
    | S754_zero _ => Ok (if xorb (a <? 0) (b <? 0) then neg_zero else zero)
    | q => Ok (SF2Prim q)
    end.

(** [x != 0.0], true for NaN. *)
Definition float_ne0 (x : float) : bool := negb (x =? 0)%float.

(** A float that is neither NaN nor an infinity. *)
Definition finite_SF (x : spec_float) : bool :=
  match x with
  | S754_zero _ | S754_finite _ _ _ => true
  | _ => false
  end.

Definition finite (x : float) : bool := finite_SF (Prim2SF x).

End Py.

Export Py.

#[global] Instance result_ret : MRet result := @Ok.
#[global] Instance result_bind : MBind result := fun A B k m => bind m k.

(** ** numpy *)

Module np.

(** How [np.zeros(n, dtype=np.uint16)] ends: with the array, with
    ValueError (more elements than an array can have) or with
    MemoryError. *)
Inductive allocation : Type :=
  | allocated
  | too_large
  | out_of_memory.

(** The NumPy at hand.
    - [zeros_outcome n]: how [np.zeros(n, dtype=np.uint16)] ends on this
      machine.
    - [out_of_bound_raises v]: whether [a[i] = v], for a Python int [v]
      above 65535 and a [uint16] array, raises OverflowError (NumPy 2,
      and earlier releases once [v] does not fit a C integer) rather
      than storing [v] modulo 2^16 (NumPy 1, with a warning).
    - [clip_in_place]: whether [np.clip] with scalar bounds runs the
      loop that compares the input with each bound and replaces it, so
      that the input is kept on a tie (as NumPy 2 does), rather than
      computing [min(max(x, lo), hi)]. *)
Class environment : Type := mk_environment {
  zeros_outcome : nat -> allocation;
  out_of_bound_raises : N -> bool;
  clip_in_place : bool
}.

(** [np.zeros(n, dtype=np.uint16)] *)
Definition zeros {env : environment} (n : nat) : result (list Z) :=
  match zeros_outcome n with
  | allocated => Ok (replicate n 0)
  | too_large => Raise ValueError
  | out_of_memory => Raise MemoryError
  end.

(** The two operations of the clip loops on doubles: the first operand
    is returned when it is NaN, else the larger (smaller) of the two,
    the second on a tie. *)
Definition maximum (a b : float) : float :=
  if is_nan a then a else if (b <? a)%float then a else b.

Definition minimum (a b : float) : float :=
  if is_nan a then a else if (a <? b)%float then a else b.

(** [min(max(x, lo), hi)]: a NaN in any position is propagated. *)
Definition clip_nested (x lo hi : float) : float := minimum (maximum x lo) hi.

(** The loop for constant bounds: a NaN bound is the result; otherwise
    [if x < lo: x = lo] then [if x > hi: x = hi], which lets a NaN input
    through. *)
Definition clip_replace (x lo hi : float) : float :=
  if is_nan lo then lo
  else if is_nan hi then hi
  else
    let x1 := if (x <? lo)%float then lo else x in
    if (hi <? x1)%float then hi else x1.

(** [np.clip(x, lo, hi)] on doubles; no check orders [lo] and [hi]. *)
Definition clip {env : environment} (x lo hi : float) : float :=
  if clip_in_place then clip_replace x lo hi else clip_nested x lo hi.

(** [a[i]] on a one-dimensional array: a negative index counts from the
    end; IndexError outside the array. *)
Definition getitem (a : list Z) (i : Z) : result Z :=
  let n := Z.of_nat (length a) in
  let j := if i <? 0 then i + n else i in
  if (0 <=? j) && (j <? n)
  then match a !! Z.to_nat j with
       | Some r => Ok r
       | None => Raise IndexError
       end
  else Raise IndexError.

End np.

(** ** class app_pll_frac_calc: the frequency model *)

Module app_pll_frac_calc.

Record t : Type := mk {
  input_frequency : pyval;
  F : pyval;
  R : pyval;
  OD : pyval;
  ACD : pyval;
  f : pyval;                           (* fractional multiplier (+1.0) *)
  p : pyval;                           (* fractional divider (+1.0) *)
  output_frequency : option float;     (* None until first computed *)
  lock_status_state : Z;
  verbose : bool
}.

Definition set_frac (self : t) (f' p' : pyval) : t :=
  mk (input_frequency self) (F self) (R self) (OD self) (ACD self) f' p'
     (output_frequency self) (lock_status_state self) (verbose self).

Definition set_output_frequency (self : t) (v : float) : t :=
  mk (input_frequency self) (F self) (R self) (OD self) (ACD self)
     (f self) (p self) (Some v) (lock_status_state self) (verbose self).

(** [lo <= v and v <= hi] against integer literals. *)
Definition between (v : pyval) (lo hi : Z) : bool :=
  match v with
  | PyInt z => (lo <=? z) && (z <=? hi)
  | PyFloat x => ((Z2F lo <=? x) && (x <=? Z2F hi))%float
  end.

(** [v + 1.0]. *)
Definition add_1_0 (v : pyval) : result float :=
  x ← to_float v; Ok (x + 1)%float.

(** [v + 1] with the integer literal: an int stays an int. *)
Definition add_1 (v : pyval) : pyval :=
  match v with
  | PyInt z => PyInt (z + 1)
  | PyFloat x => PyFloat (x + 1)%float
  end.

(** [v * y] and [y * v] for a float [y]. *)
Definition mul_float (v : pyval) (y : float) : result float :=
  x ← to_float v; Ok (x * y)%float.

(** [self.input_frequency * (self.F + 1.0) / 2.0 / (self.R + 1.0)] *)
Definition intermediate_freq (self : t) : result float :=
  a ← add_1_0 (F self);
  b ← mul_float (input_frequency self) a;
  c ← float_div b 2;
  d ← add_1_0 (R self);
  float_div c d.

Definition vco_in_range (v : float) : bool :=
  ((360000000 <=? v) && (v <=? 1800000000))%float.

(** [(self.f + 1) / (self.p + 1)], once both are known to be ints. *)
Definition frac (fz pz : Z) : result float := int_truediv (fz + 1) (pz + 1).

(** [2.0 * (self.ACD + 1)] *)
Definition acd_div (self : t) : result float := mul_float (add_1 (ACD self)) 2.

(** The value [calc_frequency] computes, or the exception it raises,
    statement by statement. *)
Definition calc_frequency_value (self : t) : result float :=
  assert (between (F self) 1 8191) "Invalid F setting";;
  assert (is_int (F self)) "Error: F must be an INT";;
  assert (between (R self) 0 63) "Invalid R setting";;
  assert (is_int (R self)) "Error: R must be an INT";;
  assert (between (OD self) 0 7) "Invalid OD setting";;
  assert (is_int (OD self)) "Error: OD must be an INT";;
  vco ← intermediate_freq self;
  assert (vco_in_range vco) "Invalid VCO freq";;
  assert (is_int (p self)) "Error: r must be an INT";;
  assert (is_int (f self)) "Error: f must be an INT";;
  match f self, p self with
  | PyInt fz, PyInt pz =>
      assert (fz <? pz) "Error f is not < p";;
      a ← add_1_0 (F self);
      q ← frac fz pz;
      b ← mul_float (input_frequency self) (a + q)%float;
      c ← float_div b 2;
      d ← add_1_0 (R self);
      e ← float_div c d;
      g ← add_1_0 (OD self);
      h ← float_div e g;
      k ← acd_div self;
      float_div h k
  | _, _ => Raise (AssertionError "Error: f must be an INT")
  end.

(** [calc_frequency]: stores the result in [self.output_frequency] and
    returns it; [self] is untouched when an exception is raised. *)
Definition calc_frequency (self : t) : t * result float :=
  match calc_frequency_value self with
  | Ok v => (set_output_frequency self v, Ok v)
  | Raise e => (self, Raise e)
  end.

Definition get_output_freqency (self : t) : option float :=
  output_frequency self.

Definition update_pll_all (self : t) (F' R' OD' ACD' f' p' : pyval)
    : t * result float :=
  calc_frequency (mk (input_frequency self) F' R' OD' ACD' f' p'
                     (output_frequency self) (lock_status_state self)
                     (verbose self)).

Definition update_pll_frac (self : t) (f' p' : pyval) : t * result float :=
  calc_frequency (set_frac self f' p').

(** [__init__]: the object exists only if the first [calc_frequency]
    returns. *)
Definition init (input_frequency F_init R_init OD_init ACD_init f_init r_init : pyval)
    (verbose : bool) : result t :=
  let self := mk input_frequency F_init R_init OD_init ACD_init f_init r_init
                 None 0 verbose in
  match calc_frequency self with
  | (self', Ok _) => Ok self'
  | (_, Raise e) => Raise e
  end.

End app_pll_frac_calc.

(** ** class parse_lut_h_file: the register look-up table *)

Module parse_lut_h_file.

(** What the two regular expressions extract from one line of the
    generated header: the table size of a [frac_values[n]] declaration,
    and the register, index and fraction of a table entry.  The first
    three captures are digit strings, hence natural numbers, on which
    [int] cannot fail.  The capture of the fraction, [0.\d+], lets any
    character through after the [0]: it is given as [float(frac)], with
    [None] for a text that is not a float literal, such as [0x5]. *)
Record line : Type := mk_line {
  num_entries_match : option nat;
  entry_match : option (N * nat * option float)
}.

Record t : Type := mk {
  lut_reg : list Z;                    (* np.uint16 array *)
  min_frac : float;
  max_frac : float
}.

(** The local variables of the loop; [lut] is unbound until a size
    declaration has been read. *)
Record locals : Type := mk_locals {
  lut : option (list Z);
  l_min_frac : float;
  l_max_frac : float
}.

(** [lut[idx] = reg] on a [uint16] array: the index is checked first,
    then the value is converted. *)
Definition setitem {env : np.environment} (a : list Z) (idx : nat) (reg : N)
    : result (list Z) :=
  if (idx <? length a)%nat
  then if (reg <? 65536)%N then Ok (<[idx := Z.of_N reg]> a)
       else if np.out_of_bound_raises reg then Raise OverflowError
       else Ok (<[idx := Z.of_N (reg mod 65536)]> a)
  else Raise IndexError.

Definition loop_body {env : np.environment} (st : locals) (ln : line)
    : result locals :=
  lut1 ←
    match num_entries_match ln with
    | Some num_entries => a ← np.zeros num_entries; Ok (Some a)
    | None => Ok (lut st)
    end;
  match entry_match ln with
  | None => Ok (mk_locals lut1 (l_min_frac st) (l_max_frac st))
  | Some (reg, idx, None) => Raise ValueError
  | Some (reg, idx, Some frac) =>
      let min_frac := if (frac <? l_min_frac st)%float then frac else l_min_frac st in
      let max_frac := if (l_max_frac st <? frac)%float then frac else l_max_frac st in
      match lut1 with
      | None => Raise UnboundLocalError
      | Some a =>
          a' ← setitem a idx reg;
          Ok (mk_locals (Some a') min_frac max_frac)
      end
  end.

Fixpoint loop {env : np.environment} (st : locals) (header : list line)
    : result locals :=
  match header with
  | [] => Ok st
  | ln :: rest => st' ← loop_body st ln; loop st' rest
  end.

(** [__init__] on the lines of the header file. *)
Definition init {env : np.environment} (header : list line) : result t :=
  st ← loop (mk_locals None 1 0) header;
  match lut st with
  | None => Raise UnboundLocalError
  | Some a => Ok (mk a (l_min_frac st) (l_max_frac st))
  end.

Definition get_lut (self : t) : list Z := lut_reg self.

Definition get_lut_size (self : t) : Z := Z.of_nat (length (lut_reg self)).

End parse_lut_h_file.

(** ** class error_to_pll_output_frequency: the error-to-frequency mapper *)

Module error_to_pll_output_frequency.

(** The class inherits from both classes above; the object carries the
    attributes of each. *)
Record t : Type := mk {
  pll : app_pll_frac_calc.t;
  table : parse_lut_h_file.t
}.

Definition init {env : np.environment} (header : list parse_lut_h_file.line)
    (input_frequency F_init R_init OD_init ACD_init f_init p_init : pyval)
    (verbose : bool) : result t :=
  c ← app_pll_frac_calc.init input_frequency F_init R_init OD_init ACD_init
        f_init p_init false;
  l ← parse_lut_h_file.init header;
  Ok (mk (app_pll_frac_calc.mk
            (app_pll_frac_calc.input_frequency c) (app_pll_frac_calc.F c)
            (app_pll_frac_calc.R c) (app_pll_frac_calc.OD c)
            (app_pll_frac_calc.ACD c) (app_pll_frac_calc.f c)
            (app_pll_frac_calc.p c) (app_pll_frac_calc.output_frequency c)
            (app_pll_frac_calc.lock_status_state c) verbose) l).

Definition get_lut (self : t) : list Z := parse_lut_h_file.get_lut (table self).

Definition reg_to_frac (register : Z) : Z * Z :=
  let f := Z.shiftr (Z.land register 0xff00) 8 in
  let p := Z.land register 0xff in
  (f, p).

(** The clamped table index and the lock status for a set point. *)
Definition clamp (num_entries set_point : Z) : Z * Z :=
  if set_point <? 0 then (0, -1)
  else if set_point >=? num_entries then (num_entries - 1, 1)
  else (set_point, 0).

Definition get_output_freqency_from_error (self : t) (error : pyval)
    : t * result (option float * Z) :=
  let lut := get_lut self in
  let num_entries := Z.of_nat (length lut) in
  match py_int error with
  | Raise e => (self, Raise e)
  | Ok ierror =>
      let '(set_point, lock_status) := clamp num_entries (num_entries / 2 - ierror) in
      match np.getitem lut set_point with
      | Raise e => (self, Raise e)
      | Ok register =>
          let '(f, p) := reg_to_frac register in
          let '(pll', r) :=
            app_pll_frac_calc.update_pll_frac (pll self) (PyInt f) (PyInt p) in
          (mk pll' (table self),
           _ ← r; Ok (app_pll_frac_calc.get_output_freqency pll', lock_status))
      end
  end.

(** [register = int(lut[i]); f, p = self.reg_to_frac(register);
    self.update_pll_frac(f, p); self.get_output_freqency()], the steps
    [get_stats] and [plot_freq_range] repeat for each index they read. *)
Definition frequency_at (self : t) (i : Z) : t * result (option float) :=
  match np.getitem (get_lut self) i with
  | Raise e => (self, Raise e)
  | Ok register =>
      let '(f, p) := reg_to_frac register in
      let '(pll', r) :=
        app_pll_frac_calc.update_pll_frac (pll self) (PyInt f) (PyInt p) in
      (mk pll' (table self),
       _ ← r; Ok (app_pll_frac_calc.get_output_freqency pll'))
  end.

(** [get_stats]: the frequencies of [lut[0]], [lut[steps // 2]] and
    [lut[-1]], and the number of steps. *)
Definition get_stats (self : t)
    : t * result (option float * option float * option float * Z) :=
  let steps := Z.of_nat (length (get_lut self)) in
  match frequency_at self 0 with
  | (self1, Raise e) => (self1, Raise e)
  | (self1, Ok min_freq) =>
      match frequency_at self1 (steps / 2) with
      | (self2, Raise e) => (self2, Raise e)
      | (self2, Ok mid_freq) =>
          match frequency_at self2 (-1) with
          | (self3, Raise e) => (self3, Raise e)
          | (self3, Ok max_freq) =>
              (self3, Ok (min_freq, mid_freq, max_freq, steps))
          end
      end
  end.

(** The loop of [plot_freq_range] over [range(steps)], appending to
    [frequencies]. *)
Fixpoint freq_range_loop (self : t) (steps : list nat)
    (frequencies : list (option float)) : t * result (list (option float)) :=
  match steps with
  | [] => (self, Ok frequencies)
  | step :: rest =>
      match frequency_at self (Z.of_nat step) with
      | (self', Raise e) => (self', Raise e)
      | (self', Ok v) => freq_range_loop self' rest (frequencies ++ [v])
      end
  end.

(** [plot_freq_range], up to the list [frequencies] that it plots; the
    drawing and the saved image do not touch the object. *)
Definition plot_freq_range (self : t) : t * result (list (option float)) :=
  freq_range_loop self (seq 0 (length (get_lut self))) [].

End error_to_pll_output_frequency.

(** ** get_pll_solution: picking the solution *)

Module get_pll_solution.

(** [next(x for x, val in enumerate(Fs) if val > min_F)], with [x]
    counted from [start]; [None] stands for StopIteration. *)
Fixpoint next_above (start : nat) (Fs : list Z) (min_F : Z) : option nat :=
  match Fs with
  | [] => None
  | val :: rest =>
      if min_F <? val then Some start else next_above (S start) rest min_F
  end.

Definition first_solution (Fs : list Z) (min_F : Z) : option nat :=
  next_above 0 Fs min_F.

End get_pll_solution.

(** ** class sw_pll_ctrl: the PI/PII controller *)

Module sw_pll_ctrl.

Definition target_mclk_frequency : Z := 12288000.

Definition lock_status_lookup (lock_status : Z) : option string :=
  if lock_status =? -1 then Some "UNLOCKED LOW"%string
  else if lock_status =? 0 then Some "LOCKED"%string
  else if lock_status =? 1 then Some "UNLOCKED HIGH"%string
  else None.

Record t : Type := mk {
  multiplier : float;
  ref_to_loop_call_rate : Z;
  ref_clk_count : Z;
  mclk_count_old : Z;
  expected_mclk_count_inc_float : float;
  expected_mclk_count_float : float;
  Kp : float;
  Ki : float;
  Kii : float;
  error_accum : float;                 (* integral of error *)
  error_accum_accum : float;           (* double integral *)
  error : float;                       (* total error *)
  i_windup_limit : float;
  ii_windup_limit : float;
  last_mclk_frequency : Z;
  verbose : bool
}.

(** [lut_size / K if K != 0.0 else 0.0] *)
Definition windup_limit (lut_size : Z) (K : float) : result float :=
  if float_ne0 K then x ← float_of_Z lut_size; float_div x K
  else Ok 0%float.

Definition init (lut_size : Z) (multiplier : float) (ref_to_loop_call_rate : Z)
    (Kp Ki Kii : float) (init_mclk_count init_ref_clk_count : Z)
    (verbose : bool) : result t :=
  r ← float_of_Z ref_to_loop_call_rate;
  i_limit ← windup_limit lut_size Ki;
  ii_limit ← windup_limit lut_size Kii;
  Ok (mk multiplier ref_to_loop_call_rate init_mclk_count init_mclk_count
         (multiplier * r)%float 0 Kp Ki Kii 0 0 0 i_limit ii_limit
         target_mclk_frequency verbose).

Definition get_expected_mclk_count_inc (self : t) : float :=
  expected_mclk_count_inc_float self.

Definition get_error (self : t) : float := error self.

(** The assignments of [do_control], in the order they are made. *)
Definition store_sample (self : t) (mclk_count_int : Z) : t :=
  mk (multiplier self) (ref_to_loop_call_rate self)
     (ref_clk_count self + ref_to_loop_call_rate self)
     mclk_count_int
     (expected_mclk_count_inc_float self)
     (expected_mclk_count_float self + expected_mclk_count_inc_float self)%float
     (Kp self) (Ki self) (Kii self)
     (error_accum self) (error_accum_accum self) (error self)
     (i_windup_limit self) (ii_windup_limit self)
     (last_mclk_frequency self) (verbose self).

Definition integrate (self : t) (err : float) : t :=
  let accum := (error_accum self + err)%float in
  mk (multiplier self) (ref_to_loop_call_rate self) (ref_clk_count self)
     (mclk_count_old self) (expected_mclk_count_inc_float self)
     (expected_mclk_count_float self)
     (Kp self) (Ki self) (Kii self)
     accum (error_accum_accum self + accum)%float (error self)
     (i_windup_limit self) (ii_windup_limit self)
     (last_mclk_frequency self) (verbose self).

Definition store_error (self : t) (total : float) : t :=
  mk (multiplier self) (ref_to_loop_call_rate self) (ref_clk_count self)
     (mclk_count_old self) (expected_mclk_count_inc_float self)
     (expected_mclk_count_float self)
     (Kp self) (Ki self) (Kii self)
     (error_accum self) (error_accum_accum self) total
     (i_windup_limit self) (ii_windup_limit self)
     (last_mclk_frequency self) (verbose self).

(** [mclk_count_int] and [mclk_count_inc] of a tick. *)
Definition count_increment (self : t) (mclk_count_float : pyval)
    (period_fraction : float) : result (Z * float) :=
  mclk_count_int ← py_int mclk_count_float;
  x ← float_of_Z (mclk_count_int - mclk_count_old self);
  mclk_count_inc ← float_div x period_fraction;
  Ok (mclk_count_int, mclk_count_inc).

(** [error = mclk_count_inc - int(self.expected_mclk_count_inc_float)] *)
Definition raw_error (self : t) (mclk_count_inc : float) : result float :=
  expected ← int_of_float (expected_mclk_count_inc_float self);
  y ← float_of_Z expected;
  Ok (mclk_count_inc - y)%float.

(** The three weighted terms, the integral ones clamped. *)
Definition error_p (self : t) (err : float) : float := (Kp self * err)%float.

Definition error_i {env : np.environment} (self : t) : float :=
  np.clip (Ki self * error_accum self)%float
          (- i_windup_limit self)%float (i_windup_limit self).

Definition error_ii {env : np.environment} (self : t) : float :=
  np.clip (Kii self * error_accum_accum self)%float
          (- ii_windup_limit self)%float (ii_windup_limit self).

(** [error_p + error_i + error_ii], the new [self.error]. *)
Definition total_error {env : np.environment} (self : t) (err : float)
    : float :=
  (error_p self err + error_i self + error_ii self)%float.

Section do_control.

(** The bound method passed as [lut_lookup_function], acting on the
    object [L] it belongs to. *)
Context {env : np.environment} {L : Type}.
Variable lut_lookup_function : L -> pyval -> L * result (option float * Z).

Definition do_control (self : t) (lookup_self : L)
    (mclk_count_float : pyval) (period_fraction : float)
    : (t * L) * result (option float * Z) :=
  match count_increment self mclk_count_float period_fraction with
  | Raise e => ((self, lookup_self), Raise e)
  | Ok (mclk_count_int, mclk_count_inc) =>
      let self1 := store_sample self mclk_count_int in
      match raw_error self1 mclk_count_inc with
      | Raise e => ((self1, lookup_self), Raise e)
      | Ok err =>
          let self2 := integrate self1 err in
          let self3 := store_error self2 (total_error self2 err) in
          if verbose self3
          then (* print of self.expected_mclk_count and self.mclk_count,
                  attributes that are never assigned *)
            ((self3, lookup_self), Raise AttributeError)
          else
            let '(lookup_self', r) :=
              lut_lookup_function lookup_self (PyFloat (error self3)) in
            ((self3, lookup_self'), r)
      end
  end.

(** A sequence of ticks, each given as [(mclk_count_float,
    period_fraction)]; a caller may go on after a tick that raised. *)
Fixpoint run (self : t) (lookup_self : L) (ticks : list (pyval * float))
    : t * L :=
  match ticks with
  | [] => (self, lookup_self)
  | (mclk_count_float, period_fraction) :: rest =>
      let '((self', lookup_self'), _) :=
        do_control self lookup_self mclk_count_float period_fraction in
      run self' lookup_self' rest
  end.

End do_control.

End sw_pll_ctrl.

(** * Specification-side definitions *)

Module A := app_pll_frac_calc.
Module P := parse_lut_h_file.
Module E := error_to_pll_output_frequency.
Module C := sw_pll_ctrl.

Module Spec.

(** The resolve step as the specification words it: the set point, the
    index used and the lock state reported. *)
Definition set_point (size err : Z) : Z := size / 2 - err.

Definition resolve_index (size err : Z) : Z :=
  if set_point size err <? 0 then 0
  else if size <=? set_point size err then size - 1
  else set_point size err.

Definition resolve_status (size err : Z) : string :=
  if set_point size err <? 0 then "UNLOCKED LOW"
  else if size <=? set_point size err then "UNLOCKED HIGH"
  else "LOCKED".






(** The attributes of a controller that are set at construction. *)
Definition same_constants (s s' : C.t) : Prop :=
  C.multiplier s' = C.multiplier s /\
  C.ref_to_loop_call_rate s' = C.ref_to_loop_call_rate s /\
  C.expected_mclk_count_inc_float s' = C.expected_mclk_count_inc_float s /\
  C.Kp s' = C.Kp s /\ C.Ki s' = C.Ki s /\ C.Kii s' = C.Kii s /\
  C.i_windup_limit s' = C.i_windup_limit s /\
  C.ii_windup_limit s' = C.ii_windup_limit s /\
  C.verbose s' = C.verbose s.

(** A number, as opposed to NaN. *)
Definition number (x : float) : Prop := is_nan x = false.

(** What the clamp makes of a weighted accumulator [x] under the limit
    [limit]: NaN as soon as either is NaN; otherwise a term whose
    magnitude is not above that of the limit, which for a limit that is
    not negative is [x] brought into [[-limit, limit]], and for a
    negative limit is the limit itself, whatever [x] is.  Equalities are
    those of doubles, which identify the two zeros. *)
Definition clamped (term x limit : float) : Prop :=
  (is_nan x = true \/ is_nan limit = true -> is_nan term = true) /\
  (number x -> number limit ->
   (abs term <=? abs limit)%float = true) /\
  (number x -> (0 <=? limit)%float = true ->
   (abs term <=? limit)%float = true /\
   ((x <? - limit)%float = true -> (term =? - limit)%float = true) /\
   ((limit <? x)%float = true -> (term =? limit)%float = true) /\
   ((- limit <=? x)%float = true -> (x <=? limit)%float = true ->
    (term =? x)%float = true)) /\
  (number x -> (limit <? 0)%float = true -> (term =? limit)%float = true).

(** [z] is the float [x] truncated toward zero: [z] has the sign of
    [x], and [|z|] is the largest integer not above [|x| = m * 2^e]. *)
Definition truncation (x : spec_float) (z : Z) : Prop :=
  match x with
  | S754_zero _ => z = 0
  | S754_finite s m e =>
      (if s then z <= 0 else 0 <= z) /\
      if 0 <=? e then Z.abs z = Z.pos m * 2 ^ e
      else Z.abs z * 2 ^ (- e) <= Z.pos m < (Z.abs z + 1) * 2 ^ (- e)
  | _ => False
  end.

(** The raw error as the specification words it, with [floor]. *)
Definition raw_error_floor (self : C.t) (count_increment : float)
    : result float :=
  expected ← floor_of_float (C.expected_mclk_count_inc_float self);
  y ← float_of_Z expected;
  Ok (count_increment - y)%float.

(** The preconditions of the frequency model: integer fields in their
    ranges, and [f < p]. *)
Definition preconditions (c : A.t) (Fz Rz ODz fz pz : Z) : Prop :=
  A.F c = PyInt Fz /\ 1 <= Fz <= 8191 /\
  A.R c = PyInt Rz /\ 0 <= Rz <= 63 /\
  A.OD c = PyInt ODz /\ 0 <= ODz <= 7 /\
  A.f c = PyInt fz /\ A.p c = PyInt pz /\ fz < pz.

(** Every configuration check passes: the preconditions, and the
    intermediate (VCO) frequency within [360e6, 1800e6]. *)
Definition config_checks (c : A.t) : Prop :=
  exists Fz Rz ODz fz pz vco,
    preconditions c Fz Rz ODz fz pz /\
    A.intermediate_freq c = Ok vco /\ A.vco_in_range vco = true.

(** The two divisors that no check guards, [p + 1] and
    [2.0 * (ACD + 1)], are defined and the second is not zero. *)
Definition divisors_ok (c : A.t) : Prop :=
  exists fz pz q d,
    A.f c = PyInt fz /\ A.p c = PyInt pz /\
    A.frac fz pz = Ok q /\
    A.acd_div c = Ok d /\ (d =? 0)%float = false.

(** A mapper that is fit for run time: the table is not empty, the
    configuration currently held passes the frequency model, and every
    entry is a 16-bit register whose decoded pair has [f < p]. *)
Definition valid_mapper (self : E.t) : Prop :=
  E.get_lut self <> [] /\
  (exists v, A.calc_frequency_value (E.pll self) = Ok v) /\
  forall r, r ∈ E.get_lut self ->
    0 <= r < 2 ^ 16 /\ fst (E.reg_to_frac r) < snd (E.reg_to_frac r).

(** The lines of a header: one size declaration, then entries. *)
Definition size_line (n : nat) : P.line := P.mk_line (Some n) None.

Definition entry_line (e : N * nat * float) : P.line :=
  P.mk_line None (Some (fst (fst e), snd (fst e), Some (snd e))).

Definition entry_reg (e : N * nat * float) : N := fst (fst e).
Definition entry_index (e : N * nat * float) : nat := snd (fst e).

(** Indices contiguous from 0, in the order supplied. *)
Definition contiguous (indices : list nat) : Prop :=
  indices = seq 0 (length indices).

(** The frequency an entry decodes to under a configuration, and a
    table whose decoded frequencies do not decrease with the index. *)
Definition decoded_frequency (c : A.t) (r : Z) : result float :=
  let fp := E.reg_to_frac r in
  A.calc_frequency_value (A.set_frac c (PyInt (fst fp)) (PyInt (snd fp))).

Definition monotonic (c : A.t) (lut : list Z) : Prop :=
  forall (i j : nat) ri rj vi vj,
    (i <= j)%nat -> lut !! i = Some ri -> lut !! j = Some rj ->
    decoded_frequency c ri = Ok vi -> decoded_frequency c rj = Ok vj ->
    (vi <=? vj)%float = true.

(** An entry the table can hold: index below the size, 16-bit register. *)
Definition in_table (n : nat) (e : N * nat * float) : Prop :=
  (entry_index e < n)%nat /\ (entry_reg e < 65536)%N.

(** The table after the entries are stored one by one. *)
Definition store (a : list Z) (e : N * nat * float) : list Z :=
  <[entry_index e := Z.of_N (entry_reg e)]> a.

(** Re-packing a decoded pair. *)
Definition pack (fp : Z * Z) : Z := Z.lor (Z.shiftl (fst fp) 8) (snd fp).

End Spec.

(** * A worked configuration

    A 24 MHz crystal, VCO at 1200 MHz, and a five-entry table whose
    fractions (f+1)/(p+1) are 1/4, 1/3, 1/2, 2/3 and 3/4. *)

Module Demo.

(** A machine that allocates tables of up to 2^30 entries, with a
    NumPy of the first kind: an out-of-range register is stored modulo
    2^16 as long as it fits 64 bits, and [np.clip] computes
    [min(max(x, lo), hi)]. *)
Definition numpy_1 : np.environment :=
  np.mk_environment
    (fun n => if (N.of_nat n <? 2 ^ 30)%N then np.allocated
              else if (N.of_nat n <? 2 ^ 62)%N then np.out_of_memory
              else np.too_large)
    (fun v => negb (v <? 2 ^ 64)%N)
    false.

(** The same machine with a NumPy of the second kind: an out-of-range
    register raises OverflowError and [np.clip] keeps its input on a
    tie. *)
Definition numpy_2 : np.environment :=
  np.mk_environment
    (fun n => if (N.of_nat n <? 2 ^ 30)%N then np.allocated
              else if (N.of_nat n <? 2 ^ 62)%N then np.out_of_memory
              else np.too_large)
    (fun v => true)
    true.

Definition header : list P.line :=
  [ P.mk_line (Some 5%nat) None;
    P.mk_line None (Some (0x0003%N, 0%nat, Some 0.25%float));
    P.mk_line None (Some (0x0002%N, 1%nat, Some 0.3125%float));
    P.mk_line None (Some (0x0001%N, 2%nat, Some 0.5%float));
    P.mk_line None (Some (0x0102%N, 3%nat, Some 0.6875%float));
    P.mk_line None (Some (0x0203%N, 4%nat, Some 0.75%float)) ].

Definition lut : P.t := P.mk [0x0003; 0x0002; 0x0001; 0x0102; 0x0203] 0.25 0.75.

Definition pll : A.t :=
  A.mk (PyInt 24000000) (PyInt 99) (PyInt 0) (PyInt 4) (PyInt 4)
       (PyInt 1) (PyInt 2) (Some 24160000%float) 0 false.

Definition mapper : E.t := E.mk pll lut.

(** A header that skips index 1 and whose frequencies fall with the
    index: fraction 1/2 at index 0, 1/4 at index 2. *)
Definition header_gap : list P.line :=
  [ Spec.size_line 3;
    Spec.entry_line (0x0001%N, 0%nat, 0.5%float);
    Spec.entry_line (0x0003%N, 2%nat, 0.25%float) ].

(** The preconditions hold but the VCO would run at 24 MHz. *)
Definition pll_low_vco : A.t :=
  A.mk (PyInt 24000000) (PyInt 1) (PyInt 0) (PyInt 0) (PyInt 0)
       (PyInt 0) (PyInt 1) None 0 false.

(** Every check passes but [ACD = -1]. *)
Definition pll_zero_acd : A.t :=
  A.mk (PyInt 24000000) (PyInt 99) (PyInt 0) (PyInt 4) (PyInt (-1))
       (PyInt 1) (PyInt 2) None 0 false.

(** [sw_pll_ctrl(lookup, 5, 256.0, 512, 0.5, 2.0, Kii=0.0)] *)
Definition ctrl : C.t :=
  C.mk 256 512 0 0 131072 0 0.5 2 0 0 0 0 2.5 0 C.target_mclk_frequency false.

(** The same controller built with a negative integral gain:
    [sw_pll_ctrl(lookup, 10, 256.0, 512, 0.5, -1.0, Kii=0.0)]. *)
Definition ctrl_negative_Ki : C.t :=
  C.mk 256 512 0 0 131072 0 0.5 (-1) 0 0 0 0 (-10) 0 C.target_mclk_frequency false.

(** A controller whose expected increment is negative and fractional:
    [sw_pll_ctrl(lookup, 5, -1.5, 1, 0.5, 2.0, Kii=0.0)]. *)
Definition ctrl_negative_multiplier : C.t :=
  C.mk (-1.5) 1 0 0 (-1.5) 0 0.5 2 0 0 0 0 2.5 0 C.target_mclk_frequency false.

(** Both integral gains zero:
    [sw_pll_ctrl(lookup, 5, 256.0, 512, 0.5, 0.0, Kii=0.0)]. *)
Definition ctrl_zero_gains : C.t :=
  C.mk 256 512 0 0 131072 0 0.5 0 0 0 0 0 0 0 C.target_mclk_frequency false.

(** [Demo.ctrl] constructed with [verbose=True]. *)
Definition ctrl_verbose : C.t :=
  C.mk 256 512 0 0 131072 0 0.5 2 0 0 0 0 2.5 0 C.target_mclk_frequency true.

End Demo.

(** * The numpy operations on [spec_float]

    The image of [np.maximum], [np.minimum] and [np.clip] under
    [Prim2SF], on which the comparisons can be analysed by cases. *)

Module SFnp.

Definition is_nan (a : spec_float) : bool := negb (SFeqb a a).

Definition maximum (a b : spec_float) : spec_float :=
  if is_nan a then a else if SFltb b a then a else b.

Definition minimum (a b : spec_float) : spec_float :=
  if is_nan a then a else if SFltb a b then a else b.

Definition clip_nested (x lo hi : spec_float) : spec_float :=
  minimum (maximum x lo) hi.

Definition clip_replace (x lo hi : spec_float) : spec_float :=
  if is_nan lo then lo
  else if is_nan hi then hi
  else
    let x1 := if SFltb x lo then lo else x in
    if SFltb hi x1 then hi else x1.

(** The term [term], as the clamp of [x] under the limit [l], on
    [spec_float]: the image of [Spec.clamped]. *)
Definition clamped (term x l : spec_float) : Prop :=
  (is_nan x = true \/ is_nan l = true -> is_nan term = true) /\
  (is_nan x = false -> is_nan l = false ->
   SFleb (SFabs term) (SFabs l) = true) /\
  (is_nan x = false -> SFleb (S754_zero false) l = true ->
   SFleb (SFabs term) l = true /\
   (SFltb x (SFopp l) = true -> SFeqb term (SFopp l) = true) /\
   (SFltb l x = true -> SFeqb term l = true) /\
   (SFleb (SFopp l) x = true -> SFleb x l = true -> SFeqb term x = true)) /\
  (is_nan x = false -> SFltb l (S754_zero false) = true ->
   SFeqb term l = true).

End SFnp.

(** * The order of the comparisons on [spec_float]

    Every float but NaN has a key in [Z * Z * Z], ordered
    lexicographically, that the comparison [<] follows. *)

Module SForder.

Definition key (x : spec_float) : Z * Z * Z :=
  match x with
  | S754_nan => (0, 0, 0)
  | S754_zero _ => (0, 0, 0)
  | S754_infinity s => (if s then -2 else 2, 0, 0)
  | S754_finite s m e => if s then (-1, - e, - Z.pos m) else (1, e, Z.pos m)
  end.

Definition lex_lt (a b : Z * Z * Z) : Prop :=
  fst (fst a) < fst (fst b) \/
  (fst (fst a) = fst (fst b) /\
   (snd (fst a) < snd (fst b) \/
    (snd (fst a) = snd (fst b) /\ snd a < snd b))).

End SForder.

(** * Notions used by the further properties *)

Module Laws.

(** Two frequency-model objects with the same fixed fields: all but the
    fractional pair and the cached output. *)
Definition same_fixed (c c' : A.t) : Prop :=
  A.input_frequency c' = A.input_frequency c /\
  A.F c' = A.F c /\ A.R c' = A.R c /\ A.OD c' = A.OD c /\
  A.ACD c' = A.ACD c.

(** The exceptions of the frequency model. *)
Definition assertion_messages : list string :=
  [ "Invalid F setting"; "Error: F must be an INT";
    "Invalid R setting"; "Error: R must be an INT";
    "Invalid OD setting"; "Error: OD must be an INT";
    "Invalid VCO freq";
    "Error: r must be an INT"; "Error: f must be an INT";
    "Error f is not < p" ]%string.

Definition calc_exn (e : exn) : Prop :=
  e = ZeroDivisionError \/ e = OverflowError \/
  exists msg, e = AssertionError msg /\ List.In msg assertion_messages.

(** Two controllers that agree on the attributes a tick reads: the last
    count, the expected increment, the gains, the two accumulators, the
    two limits and [verbose]. *)
Definition same_inputs (s s' : C.t) : Prop :=
  C.mclk_count_old s' = C.mclk_count_old s /\
  C.expected_mclk_count_inc_float s' = C.expected_mclk_count_inc_float s /\
  C.Kp s' = C.Kp s /\ C.Ki s' = C.Ki s /\ C.Kii s' = C.Kii s /\
  C.error_accum s' = C.error_accum s /\
  C.error_accum_accum s' = C.error_accum_accum s /\
  C.i_windup_limit s' = C.i_windup_limit s /\
  C.ii_windup_limit s' = C.ii_windup_limit s /\
  C.verbose s' = C.verbose s.

(** What the mapper does once [int(error)] is known, step by step:
    the index and status of the clamp, the entry read, and the call of
    [update_pll_frac] on the decoded pair. *)
Definition mapper_steps (self : E.t) (error : pyval) (err : Z) : Prop :=
  let size := Z.of_nat (length (E.get_lut self)) in
  exists register status,
    0 <= Spec.resolve_index size err < size /\
    E.get_lut self !! Z.to_nat (Spec.resolve_index size err) = Some register /\
    C.lock_status_lookup status = Some (Spec.resolve_status size err) /\
    let fp := E.reg_to_frac register in
    let pll' := A.set_frac (E.pll self) (PyInt (fst fp)) (PyInt (snd fp)) in
    E.get_output_freqency_from_error self error =
      (E.mk (fst (A.calc_frequency pll')) (E.table self),
       v ← A.calc_frequency_value pll'; Ok (Some v, status)).

(** The fractions of the entry lines of a header, in order. *)
Fixpoint fractions (h : list P.line) : list float :=
  match h with
  | [] => []
  | ln :: rest =>
      match P.entry_match ln with
      | Some (_, _, Some frac) => frac :: fractions rest
      | _ => fractions rest
      end
  end.

(** The captures of the first entry line of a header, if it has one. *)
Fixpoint first_entry (h : list P.line) : option (N * nat * option float) :=
  match h with
  | [] => None
  | ln :: rest =>
      match P.entry_match ln with
      | Some e => Some e
      | None => first_entry rest
      end
  end.

(** The bounds kept by the loop of the table constructor: from the
    locals [st] to the locals [st'] over lines with fractions [fracs],
    the minimum has not risen and the maximum has not fallen, neither is
    NaN, no fraction read is below the minimum or above the maximum, and
    each bound is the one before or one of the fractions. *)
Definition frac_bounded (st st' : P.locals) (fracs : list float) : Prop :=
  Prim2SF (P.l_min_frac st') <> S754_nan /\
  Prim2SF (P.l_max_frac st') <> S754_nan /\
  (P.l_min_frac st <? P.l_min_frac st')%float = false /\
  (P.l_max_frac st' <? P.l_max_frac st)%float = false /\
  (forall frac, frac ∈ fracs ->
     (frac <? P.l_min_frac st')%float = false /\
     (P.l_max_frac st' <? frac)%float = false) /\
  (P.l_min_frac st' = P.l_min_frac st \/ P.l_min_frac st' ∈ fracs) /\
  (P.l_max_frac st' = P.l_max_frac st \/ P.l_max_frac st' ∈ fracs).

(** The exceptions of the table constructor on a header, each with
    what in the header brings it about. *)
Definition table_exn {env : np.environment} (h : list P.line) (e : exn)
    : Prop :=
  e = UnboundLocalError \/ e = IndexError \/
  (e = OverflowError /\
   exists ln reg idx frac,
     ln ∈ h /\ P.entry_match ln = Some (reg, idx, frac) /\
     (65536 <= reg)%N /\ np.out_of_bound_raises reg = true) \/
  (e = ValueError /\
   ((exists ln n,
       ln ∈ h /\ P.num_entries_match ln = Some n /\
       np.zeros_outcome n = np.too_large) \/
    (exists ln reg idx,
       ln ∈ h /\ P.entry_match ln = Some (reg, idx, None)))) \/
  (e = MemoryError /\
   exists ln n,
     ln ∈ h /\ P.num_entries_match ln = Some n /\
     np.zeros_outcome n = np.out_of_memory).

(** The ticks of a run that stored their sample. *)
Fixpoint sampled {env : np.environment} {L : Type}
    (lookup : L -> pyval -> L * result (option float * Z))
    (self : C.t) (lookup_self : L) (ticks : list (pyval * float)) : nat :=
  match ticks with
  | [] => 0
  | (m, pf) :: rest =>
      let '((self', lookup_self'), _) := C.do_control lookup self lookup_self m pf in
      ((if is_ok (C.count_increment self m pf) then 1 else 0)
       + sampled lookup self' lookup_self' rest)%nat
  end.

End Laws.

(** * Properties *)

(** ** Register decoding *)

Lemma testbit_0xff00 (n : Z) :
  0 <= n -> Z.testbit 0xff00 n = (8 <=? n) && (n <? 16).
Proof.
  intros Hn. change 0xff00 with (Z.shiftl (Z.ones 8) 8).
  rewrite Z.shiftl_spec by lia.
  destruct (Z.leb_spec 8 n) as [H8|H8]; simpl.
  - destruct (Z.ltb_spec n 16) as [H16|H16].
    + apply Z.ones_spec_low. lia.
    + apply Z.ones_spec_high. lia.
  - apply Z.testbit_neg_r. lia.
Qed.

Lemma high_byte_shiftr (r : Z) :
  0 <= r < 2 ^ 16 -> Z.shiftr (Z.land r 0xff00) 8 = Z.shiftr r 8.
Proof.
  intros Hr. apply Z.bits_inj'. intros n Hn.
  rewrite !Z.shiftr_spec, Z.land_spec, testbit_0xff00 by lia.
  destruct (Z.ltb_spec (n + 8) 16) as [H|H].
  - replace (8 <=? n + 8) with true by (symmetry; apply Z.leb_le; lia).
    simpl. apply andb_true_r.
  - rewrite andb_false_r, andb_false_r. symmetry.
    destruct (Z.eq_dec r 0) as [->|Hnz]; [apply Z.testbit_0_l|].
    apply Z.bits_above_log2; [lia|].
    assert (Z.log2 r < 16) by (apply Z.log2_lt_pow2; lia). lia.
Qed.

Lemma lor_high_low (r : Z) :
  Z.lor (Z.shiftl (Z.shiftr r 8) 8) (Z.land r (Z.ones 8)) = r.
Proof.
  apply Z.bits_inj'. intros n Hn.
  rewrite Z.lor_spec, Z.land_spec.
  destruct (Z.ltb_spec n 8) as [H|H].
  - rewrite Z.shiftl_spec_low by lia.
    rewrite Z.ones_spec_low by lia. simpl. apply andb_true_r.
  - rewrite Z.shiftl_spec, Z.shiftr_spec by lia.
    rewrite Z.ones_spec_high by lia.
    rewrite andb_false_r, orb_false_r. f_equal. lia.
Qed.

Lemma high_byte_general (r : Z) :
  Z.shiftr (Z.land r 0xff00) 8 = Z.land (Z.shiftr r 8) (Z.ones 8).
Proof.
  apply Z.bits_inj'. intros n Hn.
  rewrite Z.shiftr_spec, !Z.land_spec, Z.shiftr_spec, testbit_0xff00 by lia.
  replace (8 <=? n + 8) with true by (symmetry; apply Z.leb_le; lia).
  destruct (Z.ltb_spec n 8) as [H|H].
  - rewrite Z.ones_spec_low by lia.
    replace (n + 8 <? 16) with true by (symmetry; apply Z.ltb_lt; lia).
    reflexivity.
  - rewrite Z.ones_spec_high by lia.
    replace (n + 8 <? 16) with false by (symmetry; apply Z.ltb_ge; lia).
    reflexivity.
Qed.


(** C8: for every 16-bit register value [r], [reg_to_frac] returns the
    high byte of [r] as the fractional multiplier [f] and the low byte
    as the fractional divider [p]; both are bytes, and packing them
    again as [(f << 8) | p] gives back [r]. *)
Theorem reg_to_frac_roundtrip (r : Z) :
  0 <= r < 2 ^ 16 ->
  fst (E.reg_to_frac r) = r / 2 ^ 8 /\
  snd (E.reg_to_frac r) = r mod 2 ^ 8 /\
  0 <= fst (E.reg_to_frac r) < 2 ^ 8 /\
  0 <= snd (E.reg_to_frac r) < 2 ^ 8 /\
  Spec.pack (E.reg_to_frac r) = r.
Proof.
  intros Hr. unfold Spec.pack, E.reg_to_frac. cbn [fst snd].
  rewrite high_byte_shiftr by exact Hr.
  change 0xff with (Z.ones 8).
  split; [apply Z.shiftr_div_pow2; lia|].
  split; [apply Z.land_ones; lia|].
  rewrite lor_high_low, Z.land_ones, Z.shiftr_div_pow2 by lia.
  assert (Hdiv : r / 2 ^ 8 < 2 ^ 8).
  { apply Z.div_lt_upper_bound; [lia|]. change (2 ^ 8 * 2 ^ 8) with (2 ^ 16). lia. }
  assert (Hdiv0 : 0 <= r / 2 ^ 8) by (apply Z.div_pos; lia).
  assert (Hmod : 0 <= r mod 2 ^ 8 < 2 ^ 8) by (apply Z.mod_pos_bound; lia).
  repeat split; lia.
Qed.

Lemma reg_to_frac_roundtrip_witness :
  0 <= 0x0102 < 2 ^ 16 /\ Spec.pack (E.reg_to_frac 0x0102) = 0x0102.
Proof.
  split; [lia|]. apply (reg_to_frac_roundtrip 0x0102). lia.
Defined.

(** ** The error-to-frequency mapper *)

Lemma getitem_in_range (a : list Z) (i : Z) :
  0 <= i < Z.of_nat (length a) ->
  exists r, a !! Z.to_nat i = Some r /\ np.getitem a i = Ok r.
Proof.
  intros Hi. unfold np.getitem.
  replace (i <? 0) with false by (symmetry; apply Z.ltb_ge; lia).
  replace (0 <=? i) with true by (symmetry; apply Z.leb_le; lia).
  replace (i <? Z.of_nat (length a)) with true by (symmetry; apply Z.ltb_lt; lia).
  simpl.
  destruct (lookup_lt_is_Some_2 a (Z.to_nat i)) as [r Hr]; [lia|].
  exists r. rewrite Hr. split; reflexivity.
Qed.

Lemma clamp_spec (size err : Z) :
  E.clamp size (size / 2 - err) =
    (Spec.resolve_index size err,
     if Spec.set_point size err <? 0 then -1
     else if size <=? Spec.set_point size err then 1 else 0).
Proof.
  unfold E.clamp, Spec.resolve_index, Spec.set_point.
  destruct (size / 2 - err <? 0); [reflexivity|].
  rewrite Z.geb_leb. destruct (size <=? size / 2 - err); reflexivity.
Qed.

Lemma resolve_index_in_range (size err : Z) :
  0 < size -> 0 <= Spec.resolve_index size err < size.
Proof.
  intros Hs. unfold Spec.resolve_index.
  destruct (Z.ltb_spec (Spec.set_point size err) 0); [lia|].
  destruct (Z.leb_spec size (Spec.set_point size err)); lia.
Qed.

(** What the mapper does once [int(error)] is known. *)
Lemma mapper_unfold (self : E.t) (error : pyval) (err : Z) :
  py_int error = Ok err ->
  E.get_lut self <> [] ->
  Laws.mapper_steps self error err.
Proof.
  intros Herr Hne. unfold Laws.mapper_steps.
  set (size := Z.of_nat (length (E.get_lut self))).
  assert (Hsize : 0 < size).
  { subst size. destruct (E.get_lut self); [congruence|]. simpl length. lia. }
  pose proof (resolve_index_in_range size err Hsize) as Hidx.
  destruct (getitem_in_range (E.get_lut self) _ Hidx) as (register & Hlk & Hget).
  exists register.
  exists (if Spec.set_point size err <? 0 then -1
          else if size <=? Spec.set_point size err then 1 else 0).
  split; [exact Hidx|]. split; [exact Hlk|]. split.
  - unfold Spec.resolve_status.
    destruct (Spec.set_point size err <? 0); [reflexivity|].
    destruct (size <=? Spec.set_point size err); reflexivity.
  - cbv zeta. unfold E.get_output_freqency_from_error.
    rewrite Herr. fold size. rewrite clamp_spec, Hget.
    unfold E.reg_to_frac at 1. cbv zeta.
    unfold A.update_pll_frac, A.calc_frequency, A.get_output_freqency.
    change (Z.shiftr (Z.land register 65280) 8) with (fst (E.reg_to_frac register)).
    change (Z.land register 255) with (snd (E.reg_to_frac register)).
    destruct (A.calc_frequency_value _) as [v|e]; reflexivity.
Qed.

(** ** Floating-point comparisons *)

Lemma Zcmp_refl (e : Z) : IntDef.Z.compare e e = Eq.
Proof. apply Z.compare_refl. Qed.

Lemma Pcmp_refl (m : positive) : PosDef.Pos.compare_cont Eq m m = Eq.
Proof. apply Pos.compare_cont_refl. Qed.

Lemma Zcmp_antisym (a b : Z) :
  IntDef.Z.compare b a = CompOpp (IntDef.Z.compare a b).
Proof. apply Z.compare_antisym. Qed.

Lemma Pcmp_antisym (a b : positive) :
  PosDef.Pos.compare_cont Eq b a = CompOpp (PosDef.Pos.compare_cont Eq a b).
Proof. symmetry. apply (Pos.compare_cont_antisym a b Eq). Qed.

Lemma Prim2SF_maximum (a b : float) :
  Prim2SF (np.maximum a b) = SFnp.maximum (Prim2SF a) (Prim2SF b).
Proof.
  unfold np.maximum, SFnp.maximum, SFnp.is_nan, is_nan.
  rewrite FloatAxioms.eqb_spec, FloatAxioms.ltb_spec.
  destruct (negb _); [reflexivity|]. destruct (SFltb _ _); reflexivity.
Qed.

Lemma Prim2SF_minimum (a b : float) :
  Prim2SF (np.minimum a b) = SFnp.minimum (Prim2SF a) (Prim2SF b).
Proof.
  unfold np.minimum, SFnp.minimum, SFnp.is_nan, is_nan.
  rewrite FloatAxioms.eqb_spec, FloatAxioms.ltb_spec.
  destruct (negb _); [reflexivity|]. destruct (SFltb _ _); reflexivity.
Qed.

Lemma Prim2SF_is_nan (x : float) : is_nan x = SFnp.is_nan (Prim2SF x).
Proof. unfold is_nan, SFnp.is_nan. rewrite FloatAxioms.eqb_spec. reflexivity. Qed.

Lemma Prim2SF_clip_nested (x lo hi : float) :
  Prim2SF (np.clip_nested x lo hi)
  = SFnp.clip_nested (Prim2SF x) (Prim2SF lo) (Prim2SF hi).
Proof.
  unfold np.clip_nested, SFnp.clip_nested.
  rewrite Prim2SF_minimum, Prim2SF_maximum. reflexivity.
Qed.

Lemma Prim2SF_clip_replace (x lo hi : float) :
  Prim2SF (np.clip_replace x lo hi)
  = SFnp.clip_replace (Prim2SF x) (Prim2SF lo) (Prim2SF hi).
Proof.
  unfold np.clip_replace, SFnp.clip_replace.
  rewrite !Prim2SF_is_nan.
  destruct (SFnp.is_nan (Prim2SF lo)); [reflexivity|].
  destruct (SFnp.is_nan (Prim2SF hi)); [reflexivity|].
  cbv zeta. rewrite (FloatAxioms.ltb_spec x lo).
  destruct (SFltb (Prim2SF x) (Prim2SF lo));
    rewrite FloatAxioms.ltb_spec;
    destruct (SFltb (Prim2SF hi) _); reflexivity.
Qed.

Ltac cmp_simpl :=
  repeat (progress (simpl; rewrite ?Zcmp_refl, ?Pcmp_refl)).

(** Case analysis on how two finite magnitudes compare, keeping the
    outcome of both orders of comparison. *)
Ltac cmp_cases ex el mx ml :=
  let He := fresh "He" in let He' := fresh "He'" in
  let Hm := fresh "Hm" in let Hm' := fresh "Hm'" in
  pose proof (Zcmp_antisym ex el) as He';
  pose proof (Pcmp_antisym mx ml) as Hm';
  destruct (IntDef.Z.compare ex el) eqn:He;
  destruct (PosDef.Pos.compare_cont Eq mx ml) eqn:Hm;
  simpl in He', Hm';
  repeat (progress (simpl; rewrite ?Zcmp_refl, ?Pcmp_refl, ?He, ?He', ?Hm, ?Hm'));
  try reflexivity; try discriminate.

Ltac clip_cases x l :=
  let sx := fresh "sx" in let mx := fresh "mx" in let ex := fresh "ex" in
  let sl := fresh "sl" in let ml := fresh "ml" in let el := fresh "el" in
  destruct x as [sx|sx| |sx mx ex], l as [sl|sl| |sl ml el];
  try (destruct sx); try (destruct sl); try reflexivity; try discriminate;
  unfold SFnp.clip_nested, SFnp.clip_replace, SFnp.minimum, SFnp.maximum,
    SFnp.is_nan, SFltb, SFleb, SFeqb, SFabs, SFopp, SFcompare;
  cmp_simpl; try reflexivity; try discriminate;
  try (cmp_cases ex el mx ml).

(** The clamp of [x] under [l], one property at a time and for either
    loop. *)
Section clamp.

Variable clip : spec_float -> spec_float -> spec_float -> spec_float.
Hypothesis clip_loop : clip = SFnp.clip_nested \/ clip = SFnp.clip_replace.

Lemma SFclip_nan_input (x l : spec_float) :
  SFnp.is_nan x = true -> SFnp.is_nan (clip x (SFopp l) l) = true.
Proof. destruct clip_loop as [-> | ->]; clip_cases x l. Qed.

Lemma SFclip_nan_limit (x l : spec_float) :
  SFnp.is_nan l = true -> SFnp.is_nan (clip x (SFopp l) l) = true.
Proof. destruct clip_loop as [-> | ->]; clip_cases x l. Qed.

Lemma SFclip_magnitude (x l : spec_float) :
  SFnp.is_nan x = false -> SFnp.is_nan l = false ->
  SFleb (SFabs (clip x (SFopp l) l)) (SFabs l) = true.
Proof. destruct clip_loop as [-> | ->]; clip_cases x l. Qed.

Lemma SFclip_within (x l : spec_float) :
  SFnp.is_nan x = false -> SFleb (S754_zero false) l = true ->
  SFleb (SFabs (clip x (SFopp l) l)) l = true.
Proof. destruct clip_loop as [-> | ->]; clip_cases x l. Qed.

Lemma SFclip_below (x l : spec_float) :
  SFleb (S754_zero false) l = true ->
  SFltb x (SFopp l) = true ->
  SFeqb (clip x (SFopp l) l) (SFopp l) = true.
Proof. destruct clip_loop as [-> | ->]; clip_cases x l. Qed.

Lemma SFclip_above (x l : spec_float) :
  SFleb (S754_zero false) l = true ->
  SFltb l x = true ->
  SFeqb (clip x (SFopp l) l) l = true.
Proof. destruct clip_loop as [-> | ->]; clip_cases x l. Qed.

Lemma SFclip_inside (x l : spec_float) :
  SFleb (SFopp l) x = true -> SFleb x l = true ->
  SFeqb (clip x (SFopp l) l) x = true.
Proof. destruct clip_loop as [-> | ->]; clip_cases x l. Qed.

(** With a negative limit the bounds are inverted and every number is
    sent to the limit. *)
Lemma SFclip_inverted (x l : spec_float) :
  SFnp.is_nan x = false -> SFltb l (S754_zero false) = true ->
  SFeqb (clip x (SFopp l) l) l = true.
Proof. destruct clip_loop as [-> | ->]; clip_cases x l. Qed.

Lemma SFclip_clamped (x l : spec_float) :
  SFnp.clamped (clip x (SFopp l) l) x l.
Proof.
  unfold SFnp.clamped. split; [|split; [|split]].
  - intros [H|H]; [apply SFclip_nan_input|apply SFclip_nan_limit]; exact H.
  - apply SFclip_magnitude.
  - intros Hx Hl. split; [apply SFclip_within; assumption|].
    split; [apply SFclip_below; assumption|].
    split; [apply SFclip_above; assumption|apply SFclip_inside].
  - apply SFclip_inverted.
Qed.

(** A zero clamped under the limit [0.0] is a zero, and is [+0.0] when
    the loop is the nested one. *)
Lemma SFclip_zero (s : bool) :
  exists s', clip (S754_zero s) (SFopp (S754_zero false)) (S754_zero false)
             = S754_zero s'.
Proof.
  destruct clip_loop as [-> | ->]; destruct s; eexists; reflexivity.
Qed.

End clamp.

Lemma SFclip_nested_zero (s : bool) :
  SFnp.clip_nested (S754_zero s) (SFopp (S754_zero false)) (S754_zero false)
  = S754_zero false.
Proof. destruct s; reflexivity. Qed.

Section clip.

Context {env : np.environment}.

(** The image of [np.clip] is one of the two loops. *)
Lemma Prim2SF_clip (x lo hi : float) :
  exists clip,
    (clip = SFnp.clip_nested \/ clip = SFnp.clip_replace) /\
    (np.clip_in_place = false -> clip = SFnp.clip_nested) /\
    Prim2SF (np.clip x lo hi) = clip (Prim2SF x) (Prim2SF lo) (Prim2SF hi).
Proof.
  unfold np.clip. destruct np.clip_in_place.
  - exists SFnp.clip_replace. split; [right; reflexivity|].
    split; [discriminate|apply Prim2SF_clip_replace].
  - exists SFnp.clip_nested. split; [left; reflexivity|].
    split; [reflexivity|apply Prim2SF_clip_nested].
Qed.

(** Whatever [x] and [l] are, and whichever loop runs,
    [np.clip(x, -l, l)] is [x] clamped under [l]. *)
Lemma clip_clamped (x l : float) :
  Spec.clamped (np.clip x (- l) l) x l.
Proof.
  destruct (Prim2SF_clip x (- l) l) as (clip & Hloop & _ & Hclip).
  pose proof (SFclip_clamped clip Hloop (Prim2SF x) (Prim2SF l))
    as (Hnan & Hmag & Hin & Hinv).
  rewrite opp_spec in Hclip. rewrite <- Hclip in Hnan, Hmag, Hin, Hinv.
  unfold Spec.clamped, Spec.number.
  rewrite !Prim2SF_is_nan, !FloatAxioms.leb_spec, !FloatAxioms.ltb_spec,
    !FloatAxioms.eqb_spec, !abs_spec, !opp_spec.
  change (Prim2SF 0) with (S754_zero false).
  split; [exact Hnan|]. split; [exact Hmag|]. split; [exact Hin|exact Hinv].
Qed.

End clip.

(** ** The controller: what a tick leaves unchanged *)

Section ticks.

Context {env : np.environment} {L : Type}.
Variable lookup : L -> pyval -> L * result (option float * Z).

Lemma do_control_constants (s : C.t) (l : L) (m : pyval) (pf : float) :
  Spec.same_constants s (fst (fst (C.do_control lookup s l m pf))).
Proof.
  unfold C.do_control, Spec.same_constants.
  destruct (C.count_increment s m pf) as [[z inc]|e];
    [|simpl; repeat split; reflexivity].
  destruct (C.raw_error _ inc) as [err|e];
    [|simpl; repeat split; reflexivity].
  change (C.verbose (C.store_error _ _)) with (C.verbose s).
  destruct (C.verbose s) eqn:Hv; [simpl; rewrite ?Hv; repeat split; reflexivity|].
  destruct (lookup l _) as [l' r]. simpl. rewrite ?Hv. repeat split; reflexivity.
Qed.

Lemma run_constants (ticks : list (pyval * float)) (s : C.t) (l : L) :
  Spec.same_constants s (fst (C.run lookup s l ticks)).
Proof.
  revert s l. induction ticks as [|[m pf] rest IH]; intros s l.
  - simpl. unfold Spec.same_constants. repeat split; reflexivity.
  - simpl. pose proof (do_control_constants s l m pf) as Hstep.
    destruct (C.do_control lookup s l m pf) as [[s' l'] r].
    specialize (IH s' l'). simpl in Hstep.
    unfold Spec.same_constants in *.
    destruct Hstep as (<- & <- & <- & <- & <- & <- & <- & <- & <-).
    exact IH.
Qed.

(** The state in which the three terms are summed, and the sum. *)
Lemma do_control_sum (s : C.t) (l : L) (m : pyval) (pf : float)
    (z : Z) (inc err : float) :
  C.count_increment s m pf = Ok (z, inc) ->
  C.raw_error (C.store_sample s z) inc = Ok err ->
  let s' := fst (fst (C.do_control lookup s l m pf)) in
  s' = C.store_error (C.integrate (C.store_sample s z) err) (C.error s') /\
  C.error s' = (C.error_p s' err + C.error_i s' + C.error_ii s')%float.
Proof.
  intros Hinc Herr. unfold C.do_control. rewrite Hinc, Herr.
  destruct (C.verbose _); [simpl; split; reflexivity|].
  destruct (lookup l _) as [l' r]. simpl. split; reflexivity.
Qed.

End ticks.

Lemma bind_Ok_inv {X Y : Type} (m : result X) (k : X -> result Y) (y : Y) :
  m ≫= k = Ok y -> exists x, m = Ok x /\ k x = Ok y.
Proof.
  destruct m as [x|e]; simpl; [|discriminate].
  intros H. exists x. split; [reflexivity|exact H].
Qed.

Lemma init_limits (lut_size : Z) (multiplier : float) (rate : Z)
    (Kp Ki Kii : float) (m0 r0 : Z) (vb : bool) (s0 : C.t) :
  C.init lut_size multiplier rate Kp Ki Kii m0 r0 vb = Ok s0 ->
  C.windup_limit lut_size Ki = Ok (C.i_windup_limit s0) /\
  C.windup_limit lut_size Kii = Ok (C.ii_windup_limit s0) /\
  C.Kp s0 = Kp /\ C.Ki s0 = Ki /\ C.Kii s0 = Kii /\
  C.verbose s0 = vb /\ C.mclk_count_old s0 = m0 /\
  C.error_accum s0 = 0%float /\ C.error_accum_accum s0 = 0%float /\
  C.expected_mclk_count_inc_float s0 = (multiplier * Z2F rate)%float.
Proof.
  unfold C.init. intros H.
  apply bind_Ok_inv in H as (r & Hr & H).
  apply bind_Ok_inv in H as (il & Hil & H).
  apply bind_Ok_inv in H as (iil & Hiil & H).
  injection H as <-. simpl.
  unfold float_of_Z in Hr. destruct (is_infinity (Z2F rate)); [discriminate|].
  injection Hr as <-.
  repeat split; assumption.
Qed.

(** ** Anti-windup *)

Lemma windup_limit_value (lut_size : Z) (K limit : float) :
  C.windup_limit lut_size K = Ok limit ->
  ((K =? 0)%float = true -> limit = 0%float) /\
  ((K =? 0)%float = false -> limit = (Z2F lut_size / K)%float).
Proof.
  unfold C.windup_limit, float_ne0. intros H.
  destruct (K =? 0)%float eqn:HK; simpl in H.
  - injection H as <-. split; [reflexivity|discriminate].
  - split; [discriminate|]. intros _.
    apply bind_Ok_inv in H as (x & Hx & H).
    unfold float_of_Z in Hx. destruct (is_infinity (Z2F lut_size)); [discriminate|].
    injection Hx as <-. unfold float_div in H. rewrite HK in H.
    injection H as <-. reflexivity.
Qed.

Lemma error_i_clamped {env : np.environment} (s : C.t) :
  Spec.clamped (C.error_i s) (C.Ki s * C.error_accum s) (C.i_windup_limit s).
Proof. unfold C.error_i. apply clip_clamped. Qed.

Lemma error_ii_clamped {env : np.environment} (s : C.t) :
  Spec.clamped (C.error_ii s) (C.Kii s * C.error_accum_accum s)
               (C.ii_windup_limit s).
Proof. unfold C.error_ii. apply clip_clamped. Qed.

(** After any sequence of ticks and one more, the gains and limits are
    those of the construction. *)
Lemma tick_limits {env : np.environment} {L : Type}
    (lookup : L -> pyval -> L * result (option float * Z))
    (lut_size : Z) (multiplier : float) (rate : Z) (Kp Ki Kii : float)
    (m0 r0 : Z) (vb : bool) (s0 : C.t) (l0 : L)
    (ticks : list (pyval * float)) (m : pyval) (pf : float) :
  C.init lut_size multiplier rate Kp Ki Kii m0 r0 vb = Ok s0 ->
  let s := fst (C.run lookup s0 l0 ticks) in
  let l := snd (C.run lookup s0 l0 ticks) in
  let s' := fst (fst (C.do_control lookup s l m pf)) in
  C.Kp s' = Kp /\ C.Ki s' = Ki /\ C.Kii s' = Kii /\
  C.windup_limit lut_size Ki = Ok (C.i_windup_limit s') /\
  C.windup_limit lut_size Kii = Ok (C.ii_windup_limit s') /\
  C.expected_mclk_count_inc_float s' = (multiplier * Z2F rate)%float /\
  C.expected_mclk_count_inc_float s = (multiplier * Z2F rate)%float.
Proof.
  intros Hinit s l s'.
  destruct (init_limits _ _ _ _ _ _ _ _ _ _ Hinit)
    as (Hil & Hiil & HKp & HKi & HKii & _ & _ & _ & _ & Hexp).
  pose proof (run_constants lookup ticks s0 l0) as Hrun. fold s in Hrun.
  pose proof (do_control_constants lookup s l m pf) as Hstep. fold s' in Hstep.
  unfold Spec.same_constants in Hrun, Hstep.
  destruct Hrun as (_ & _ & He1 & HKp1 & HKi1 & HKii1 & Hl1 & Hll1 & _).
  destruct Hstep as (_ & _ & He2 & HKp2 & HKi2 & HKii2 & Hl2 & Hll2 & _).
  assert (Hlim : C.i_windup_limit s' = C.i_windup_limit s0) by congruence.
  assert (Hlim2 : C.ii_windup_limit s' = C.ii_windup_limit s0) by congruence.
  rewrite <- Hlim in Hil. rewrite <- Hlim2 in Hiil.
  repeat split; congruence.
Qed.

(** C2 (as amended): on every tick of every sequence of ticks, the
    windup limits are those fixed at construction, [LUT_size / K] when
    [K != 0] and [0.0] when [K = 0], and the term that enters the
    total-error sum is the weighted accumulator [Ki * error_accum]
    (resp. [Kii * error_accum_accum]) clamped under its limit
    ([Spec.clamped]): when the weighted accumulator and the limit are
    numbers, the magnitude of the term is at most the magnitude of the
    limit; under a limit that is not negative the term is the weighted
    accumulator brought into [[-limit, limit]]; under a negative limit
    (a negative gain) the bounds of [np.clip] are inverted and the term
    is the limit itself, whatever the accumulator; and when the weighted
    accumulator or the limit is NaN the term is NaN. *)
Theorem integral_terms_clamped {env : np.environment} {L : Type}
    (lookup : L -> pyval -> L * result (option float * Z))
    (lut_size : Z) (multiplier : float) (rate : Z) (Kp Ki Kii : float)
    (m0 r0 : Z) (vb : bool) (s0 : C.t) (l0 : L)
    (ticks : list (pyval * float)) (m : pyval) (pf : float) :
  C.init lut_size multiplier rate Kp Ki Kii m0 r0 vb = Ok s0 ->
  let s := fst (C.run lookup s0 l0 ticks) in
  let l := snd (C.run lookup s0 l0 ticks) in
  let s' := fst (fst (C.do_control lookup s l m pf)) in
  (forall z inc err,
      C.count_increment s m pf = Ok (z, inc) ->
      C.raw_error (C.store_sample s z) inc = Ok err ->
      C.error s' = (Kp * err + C.error_i s' + C.error_ii s')%float) /\
  Spec.clamped (C.error_i s') (Ki * C.error_accum s') (C.i_windup_limit s') /\
  Spec.clamped (C.error_ii s') (Kii * C.error_accum_accum s')
               (C.ii_windup_limit s') /\
  ((Ki =? 0)%float = false -> C.i_windup_limit s' = (Z2F lut_size / Ki)%float) /\
  ((Kii =? 0)%float = false -> C.ii_windup_limit s' = (Z2F lut_size / Kii)%float) /\
  ((Ki =? 0)%float = true -> C.i_windup_limit s' = 0%float) /\
  ((Kii =? 0)%float = true -> C.ii_windup_limit s' = 0%float).
Proof.
  intros Hinit s l s'.
  destruct (tick_limits lookup _ _ _ _ _ _ _ _ _ _ l0 ticks m pf Hinit)
    as (HKp & HKi & HKii & Hil & Hiil & _).
  fold s l s' in HKp, HKi, HKii, Hil, Hiil.
  destruct (windup_limit_value _ _ _ Hil) as [Hz Hnz].
  destruct (windup_limit_value _ _ _ Hiil) as [Hz2 Hnz2].
  split.
  { intros z inc err Hinc Herr.
    destruct (do_control_sum lookup s l m pf z inc err Hinc Herr) as [_ Hsum].
    fold s' in Hsum. rewrite Hsum. unfold C.error_p. rewrite HKp. reflexivity. }
  split; [rewrite <- HKi; apply error_i_clamped|].
  split; [rewrite <- HKii; apply error_ii_clamped|].
  repeat split; assumption.
Qed.

Section anti_windup_runs.
#[local] Existing Instance Demo.numpy_2.

Lemma integral_terms_clamped_witness :
  C.init 5 256 512 0.5 2 0 0 0 false = Ok Demo.ctrl /\
  let s' := fst (fst (C.do_control E.get_output_freqency_from_error
                        Demo.ctrl Demo.mapper (PyInt 131080) 1)) in
  Spec.clamped (C.error_i s') (2 * C.error_accum s') (C.i_windup_limit s') /\
  (2 * C.error_accum s')%float = 16%float /\
  C.i_windup_limit s' = 2.5%float /\
  C.error_i s' = 2.5%float.
Proof.
  assert (Hinit : C.init 5 256 512 0.5 2 0 0 0 false = Ok Demo.ctrl)
    by (vm_compute; reflexivity).
  split; [exact Hinit|].
  destruct (integral_terms_clamped E.get_output_freqency_from_error
              5 256 512 0.5 2 0 0 0 false Demo.ctrl Demo.mapper []
              (PyInt 131080) 1 Hinit) as (_ & H & _).
  split; [exact H|]. vm_compute. repeat split; reflexivity.
Defined.

(** C2, counterexample.  First, with [Ki = -1.0] and a table of 10
    entries the limit [LUT_size / Ki] is [-10.0]; one tick with a raw
    error of 8 has the weighted accumulator [-8.0], inside
    [[-10, 10]], which a clamp would leave alone: the term is
    [clip(-8.0, 10.0, -10.0) = -10.0], not [-8.0], and its magnitude 10
    exceeds [LUT_size / Ki].  Second, with [Ki = 2.0] and the limit 2.5:
    a tick whose count increment overflows to [+inf] followed by one
    whose increment overflows to [-inf] leaves [error_accum] NaN, and
    the term that enters the sum is NaN, within no bound. *)
Lemma integral_term_exceeds_negative_limit :
  (C.init 10 256 512 0.5 (-1) 0 0 0 false = Ok Demo.ctrl_negative_Ki /\
   float_ne0 (-1) = true /\
   let s' := fst (fst (C.do_control E.get_output_freqency_from_error
                         Demo.ctrl_negative_Ki Demo.mapper (PyInt 131080) 1)) in
   C.i_windup_limit s' = (Z2F 10 / (-1))%float /\
   (C.Ki s' * C.error_accum s')%float = (-8)%float /\
   C.error_i s' = (-10)%float /\
   (C.error_i s' =? C.Ki s' * C.error_accum s')%float = false /\
   (C.i_windup_limit s' <? abs (C.error_i s'))%float = true) /\
  (C.init 5 256 512 0.5 2 0 0 0 false = Ok Demo.ctrl /\
   float_ne0 2 = true /\
   (0x1p-1000 =? 0)%float = false /\
   let run := C.run E.get_output_freqency_from_error Demo.ctrl Demo.mapper
                [(PyInt 1073741824, 0x1p-1000%float)] in
   let s' := fst (fst (C.do_control E.get_output_freqency_from_error
                         (fst run) (snd run) (PyInt 0) 0x1p-1000)) in
   C.i_windup_limit s' = 2.5%float /\
   is_nan (C.error_accum s') = true /\
   is_nan (C.error_i s') = true /\
   (abs (C.error_i s') <=? abs (C.i_windup_limit s'))%float = false).
Proof. vm_compute. repeat split; reflexivity. Qed.

End anti_windup_runs.

(** ** A zero gain *)

Lemma eqb_zero_inv (K : float) :
  (K =? 0)%float = true -> exists s, Prim2SF K = S754_zero s.
Proof.
  rewrite FloatAxioms.eqb_spec. change (Prim2SF 0) with (S754_zero false).
  destruct (Prim2SF K) as [s|s| |s m e]; try discriminate.
  - intros _. exists s. reflexivity.
  - destruct s; discriminate.
  - destruct s; discriminate.
Qed.

(** A zero gain times the accumulator, clamped to [[-0.0, 0.0]]: a zero
    when the accumulator is finite, NaN when it is not. *)
Lemma zero_gain_clip {env : np.environment} (K acc : float) :
  (K =? 0)%float = true ->
  (finite acc = true ->
   (np.clip (K * acc) (- 0) 0 =? 0)%float = true /\
   (np.clip_in_place = false -> np.clip (K * acc) (- 0) 0 = 0%float)) /\
  (finite acc = false -> is_nan (np.clip (K * acc) (- 0) 0) = true).
Proof.
  intros HK. apply eqb_zero_inv in HK as [s HK].
  destruct (Prim2SF_clip (K * acc) (- 0) 0) as (clip & Hloop & Hnested & Hclip).
  rewrite opp_spec, mul_spec, HK in Hclip.
  change (Prim2SF 0) with (S754_zero false) in Hclip.
  unfold finite. split.
  - intros Hacc.
    assert (Hmul : exists s', SF64mul (S754_zero s) (Prim2SF acc) = S754_zero s').
    { destruct (Prim2SF acc) as [sa|sa| |sa ma ea]; try discriminate;
        unfold SF64mul, SFmul; eexists; reflexivity. }
    destruct Hmul as [s' Hmul]. rewrite Hmul in Hclip.
    split.
    + destruct (SFclip_zero clip Hloop s') as [s'' Hz]. rewrite Hz in Hclip.
      rewrite FloatAxioms.eqb_spec, Hclip. destruct s''; reflexivity.
    + intros Hin. rewrite (Hnested Hin), SFclip_nested_zero in Hclip.
      apply Prim2SF_inj. exact Hclip.
  - intros Hacc.
    assert (Hmul : SF64mul (S754_zero s) (Prim2SF acc) = S754_nan).
    { destruct (Prim2SF acc) as [sa|sa| |sa ma ea]; try discriminate;
        reflexivity. }
    rewrite Hmul in Hclip. rewrite Prim2SF_is_nan, Hclip.
    apply (SFclip_nan_input clip Hloop). reflexivity.
Qed.

Lemma finite_add_inv (x y : float) :
  finite (x + y) = true -> finite x = true /\ finite y = true.
Proof.
  unfold finite. rewrite add_spec. unfold SF64add, SFadd.
  destruct (Prim2SF x) as [sx|sx| |sx mx ex], (Prim2SF y) as [sy|sy| |sy my ey];
    try (intros _; split; reflexivity);
    try (destruct sx); try (destruct sy); discriminate.
Qed.

Lemma do_control_accumulates {env : np.environment} {L : Type}
    (lookup : L -> pyval -> L * result (option float * Z))
    (s : C.t) (l : L) (m : pyval) (pf : float) (z : Z) (inc err : float) :
  C.count_increment s m pf = Ok (z, inc) ->
  C.raw_error (C.store_sample s z) inc = Ok err ->
  let s' := fst (fst (C.do_control lookup s l m pf)) in
  C.error_accum s' = (C.error_accum s + err)%float /\
  C.error_accum_accum s' = (C.error_accum_accum s + C.error_accum s')%float.
Proof.
  intros Hinc Herr s'.
  destruct (do_control_sum lookup s l m pf z inc err Hinc Herr) as [Hs' _].
  fold s' in Hs'. rewrite Hs'. simpl. split; reflexivity.
Qed.

(** An accumulator that has left the finite doubles never comes back. *)
Lemma do_control_keeps_overflow {env : np.environment} {L : Type}
    (lookup : L -> pyval -> L * result (option float * Z))
    (s : C.t) (l : L) (m : pyval) (pf : float) :
  let s' := fst (fst (C.do_control lookup s l m pf)) in
  (finite (C.error_accum s') = true -> finite (C.error_accum s) = true) /\
  (finite (C.error_accum_accum s') = true ->
   finite (C.error_accum_accum s) = true).
Proof.
  intros s'.
  destruct (C.count_increment s m pf) as [[z inc]|e] eqn:Hinc.
  2:{ subst s'. unfold C.do_control. rewrite Hinc. split; intros H; exact H. }
  destruct (C.raw_error (C.store_sample s z) inc) as [err|e] eqn:Herr.
  2:{ subst s'. unfold C.do_control. rewrite Hinc, Herr.
      split; intros H; exact H. }
  destruct (do_control_accumulates lookup s l m pf z inc err Hinc Herr)
    as [Hacc Hacc2].
  fold s' in Hacc, Hacc2. rewrite Hacc2, Hacc. split; intros H.
  - apply finite_add_inv in H as [H _]. exact H.
  - apply finite_add_inv in H as [H _]. exact H.
Qed.

Lemma run_keeps_overflow {env : np.environment} {L : Type}
    (lookup : L -> pyval -> L * result (option float * Z))
    (ticks : list (pyval * float)) (s : C.t) (l : L) :
  let s' := fst (C.run lookup s l ticks) in
  (finite (C.error_accum s') = true -> finite (C.error_accum s) = true) /\
  (finite (C.error_accum_accum s') = true ->
   finite (C.error_accum_accum s) = true).
Proof.
  revert s l. induction ticks as [|[m pf] rest IH]; intros s l.
  - simpl. split; intros H; exact H.
  - cbn [C.run].
    pose proof (do_control_keeps_overflow lookup s l m pf) as [H1 H2].
    destruct (C.do_control lookup s l m pf) as [[s1 l1] r1].
    cbn [fst snd] in H1, H2. destruct (IH s1 l1) as [IH1 IH2].
    split; intros H; [apply H1, IH1|apply H2, IH2]; exact H.
Qed.

(** C10 (as amended): when [Ki = 0] (resp. [Kii = 0]) the windup limit
    is [0.0], and on every tick the integral (resp. double-integral)
    term that enters the total error is a zero as long as the
    accumulator [error_accum] (resp. [error_accum_accum]) is finite: it
    equals 0, and is [+0.0] itself unless [np.clip] keeps the sign of
    its input.  Once the accumulator is infinite or NaN the term is NaN,
    not 0, and the accumulator stays so over every later tick.  The
    accumulators are not frozen: every tick that computes a raw error
    adds it to [error_accum], and adds the new [error_accum] to
    [error_accum_accum], with no clamp applied to either. *)
Theorem zero_gain_term_vanishes {env : np.environment} {L : Type}
    (lookup : L -> pyval -> L * result (option float * Z))
    (lut_size : Z) (multiplier : float) (rate : Z) (Kp Ki Kii : float)
    (m0 r0 : Z) (vb : bool) (s0 : C.t) (l0 : L)
    (ticks : list (pyval * float)) (m : pyval) (pf : float) :
  C.init lut_size multiplier rate Kp Ki Kii m0 r0 vb = Ok s0 ->
  let s := fst (C.run lookup s0 l0 ticks) in
  let l := snd (C.run lookup s0 l0 ticks) in
  let s' := fst (fst (C.do_control lookup s l m pf)) in
  ((Ki =? 0)%float = true ->
     C.i_windup_limit s' = 0%float /\
     (finite (C.error_accum s') = true ->
      (C.error_i s' =? 0)%float = true /\
      (np.clip_in_place = false -> C.error_i s' = 0%float)) /\
     (finite (C.error_accum s') = false -> is_nan (C.error_i s') = true)) /\
  ((Kii =? 0)%float = true ->
     C.ii_windup_limit s' = 0%float /\
     (finite (C.error_accum_accum s') = true ->
      (C.error_ii s' =? 0)%float = true /\
      (np.clip_in_place = false -> C.error_ii s' = 0%float)) /\
     (finite (C.error_accum_accum s') = false ->
      is_nan (C.error_ii s') = true)) /\
  (finite (C.error_accum s) = false -> finite (C.error_accum s') = false) /\
  (finite (C.error_accum_accum s) = false ->
   finite (C.error_accum_accum s') = false) /\
  (forall z inc err,
      C.count_increment s m pf = Ok (z, inc) ->
      C.raw_error (C.store_sample s z) inc = Ok err ->
      C.error_accum s' = (C.error_accum s + err)%float /\
      C.error_accum_accum s' = (C.error_accum_accum s + C.error_accum s')%float /\
      C.error s' = (Kp * err + C.error_i s' + C.error_ii s')%float /\
      (finite (C.error s') = true ->
       finite (C.error_i s') = true /\ finite (C.error_ii s') = true)).
Proof.
  intros Hinit s l s'.
  destruct (tick_limits lookup _ _ _ _ _ _ _ _ _ _ l0 ticks m pf Hinit)
    as (HKp & HKi & HKii & Hil & Hiil & _).
  fold s l s' in HKp, HKi, HKii, Hil, Hiil.
  destruct (windup_limit_value _ _ _ Hil) as [HzI _].
  destruct (windup_limit_value _ _ _ Hiil) as [HzII _].
  pose proof (do_control_keeps_overflow lookup s l m pf) as [Hover Hover2].
  fold s' in Hover, Hover2.
  split; [|split; [|split; [|split]]].
  - intros HK. specialize (HzI HK). split; [exact HzI|].
    unfold C.error_i. rewrite HzI, HKi. apply zero_gain_clip. exact HK.
  - intros HK. specialize (HzII HK). split; [exact HzII|].
    unfold C.error_ii. rewrite HzII, HKii. apply zero_gain_clip. exact HK.
  - intros H. destruct (finite (C.error_accum s')) eqn:H'; [|reflexivity].
    rewrite (Hover eq_refl) in H. discriminate.
  - intros H. destruct (finite (C.error_accum_accum s')) eqn:H'; [|reflexivity].
    rewrite (Hover2 eq_refl) in H. discriminate.
  - intros z inc err Hinc Herr.
    destruct (do_control_accumulates lookup s l m pf z inc err Hinc Herr)
      as [Hacc Hacc2].
    fold s' in Hacc, Hacc2.
    destruct (do_control_sum lookup s l m pf z inc err Hinc Herr) as [_ Hsum].
    fold s' in Hsum. unfold C.error_p in Hsum. rewrite HKp in Hsum.
    split; [exact Hacc|]. split; [exact Hacc2|]. split; [exact Hsum|].
    intros Hfin. rewrite Hsum in Hfin.
    apply finite_add_inv in Hfin as [Hfin Hii].
    apply finite_add_inv in Hfin as [_ Hi]. split; assumption.
Qed.

Section zero_gain_runs.
#[local] Existing Instance Demo.numpy_2.

Lemma zero_gain_term_vanishes_witness :
  C.init 5 256 512 0.5 2 0 0 0 false = Ok Demo.ctrl /\
  let s' := fst (fst (C.do_control E.get_output_freqency_from_error
                        Demo.ctrl Demo.mapper (PyInt 131080) 1)) in
  C.ii_windup_limit s' = 0%float /\
  finite (C.error_accum_accum s') = true /\
  (C.error_ii s' =? 0)%float = true /\
  C.error_accum_accum s' = 8%float.
Proof.
  assert (Hinit : C.init 5 256 512 0.5 2 0 0 0 false = Ok Demo.ctrl)
    by (vm_compute; reflexivity).
  split; [exact Hinit|].
  destruct (zero_gain_term_vanishes E.get_output_freqency_from_error
              5 256 512 0.5 2 0 0 0 false Demo.ctrl Demo.mapper []
              (PyInt 131080) 1 Hinit) as (_ & H & _).
  destruct (H eq_refl) as (Hlimit & Hzero & _).
  assert (Hfin : finite (C.error_accum_accum
                   (fst (fst (C.do_control E.get_output_freqency_from_error
                      (fst (C.run E.get_output_freqency_from_error
                              Demo.ctrl Demo.mapper []))
                      (snd (C.run E.get_output_freqency_from_error
                              Demo.ctrl Demo.mapper []))
                      (PyInt 131080) 1)))) = true)
    by (vm_compute; reflexivity).
  destruct (Hzero Hfin) as [Heq _].
  split; [exact Hlimit|]. split; [exact Hfin|]. split; [exact Heq|].
  vm_compute. reflexivity.
Defined.

(** C10, counterexample: [Kii = 0.0], and a measured count of 2^30 with
    [period_fraction = 2^-1000]: the count increment overflows to
    [+inf], so does [error_accum_accum], and the double-integral term
    [clip(0.0 * inf, -0.0, 0.0)] that enters the total error is NaN, not
    0; it is NaN again on the next tick, an ordinary one. *)
Lemma zero_gain_term_is_nan :
  C.init 5 256 512 0.5 2 0 0 0 false = Ok Demo.ctrl /\
  (C.Kii Demo.ctrl =? 0)%float = true /\
  (0x1p-1000 =? 0)%float = false /\
  let tick := C.do_control E.get_output_freqency_from_error
                Demo.ctrl Demo.mapper (PyInt 1073741824) 0x1p-1000 in
  let s' := fst (fst tick) in
  C.ii_windup_limit s' = 0%float /\
  C.error_accum_accum s' = infinity /\
  is_nan (C.error_ii s') = true /\
  (C.error_ii s' =? 0)%float = false /\
  is_nan (C.error s') = true /\
  let s'' := fst (fst (C.do_control E.get_output_freqency_from_error
                         s' (snd (fst tick)) (PyInt 1073872896) 1)) in
  is_nan (C.error_ii s'') = true /\
  (C.error_ii s'' =? 0)%float = false.
Proof. vm_compute. repeat split; reflexivity. Qed.

End zero_gain_runs.

(** ** The raw error of a tick *)

Lemma trunc_SF_truncation (x : spec_float) (z : Z) :
  trunc_SF x = Ok z -> Spec.truncation x z.
Proof.
  destruct x as [s|s| |s m e]; simpl; try discriminate.
  - intros H. injection H as <-. reflexivity.
  - intros H. injection H as <-.
    destruct (Z.leb_spec 0 e) as [He|He].
    + assert (0 < 2 ^ e) by (apply Z.pow_pos_nonneg; lia).
      destruct s; simpl; split; lia.
    + assert (Hp : 0 < 2 ^ (- e)) by (apply Z.pow_pos_nonneg; lia).
      assert (Hq : Z.abs (Z.quot (cond_Zopp s (Z.pos m)) (2 ^ (- e)))
                   = Z.pos m / 2 ^ (- e)).
      { destruct s; simpl.
        - change (Z.neg m) with (- Z.pos m). rewrite Z.quot_opp_l by lia.
          rewrite Z.abs_opp, Z.abs_eq by (apply Z.quot_pos; lia).
          apply Z.quot_div_nonneg; lia.
        - rewrite Z.abs_eq by (apply Z.quot_pos; lia).
          apply Z.quot_div_nonneg; lia. }
      rewrite Hq. split.
      * destruct s; simpl.
        -- change (Z.neg m) with (- Z.pos m). rewrite Z.quot_opp_l by lia.
           pose proof (Z.quot_pos (Z.pos m) (2 ^ (- e))). lia.
        -- apply Z.quot_pos; lia.
      * split.
        -- rewrite Z.mul_comm. apply Z.mul_div_le. lia.
        -- rewrite Z.mul_comm. apply Z.mul_succ_div_gt. lia.
Qed.

(** On a float that is not negative, [int] and [math.floor] agree. *)
Lemma floor_of_nonneg (x : float) :
  (0 <=? x)%float = true -> floor_of_float x = int_of_float x.
Proof.
  unfold floor_of_float, int_of_float.
  rewrite FloatAxioms.leb_spec. change (Prim2SF 0) with (S754_zero false).
  destruct (Prim2SF x) as [s|s| |s m e]; simpl; try reflexivity.
  destruct s; [discriminate|]. intros _. simpl.
  destruct (Z.leb_spec 0 e) as [He|He]; [reflexivity|].
  f_equal. symmetry. apply Z.quot_div_nonneg; [lia|].
  apply Z.pow_pos_nonneg; lia.
Qed.

Lemma float_of_Z_inv (z : Z) (x : float) :
  float_of_Z z = Ok x -> x = Z2F z.
Proof.
  unfold float_of_Z. destruct (is_infinity (Z2F z)); [discriminate|].
  intros H. injection H as <-. reflexivity.
Qed.

Lemma float_div_inv (x y q : float) :
  float_div x y = Ok q -> (y =? 0)%float = false /\ q = (x / y)%float.
Proof.
  unfold float_div. destruct (y =? 0)%float; [discriminate|].
  intros H. injection H as <-. split; reflexivity.
Qed.

Lemma count_increment_inv (s : C.t) (m : pyval) (pf : float) (z : Z) (inc : float) :
  C.count_increment s m pf = Ok (z, inc) ->
  py_int m = Ok z /\ (pf =? 0)%float = false /\
  inc = (Z2F (z - C.mclk_count_old s) / pf)%float.
Proof.
  unfold C.count_increment. intros H.
  apply bind_Ok_inv in H as (z' & Hz & H).
  apply bind_Ok_inv in H as (x & Hx & H).
  apply bind_Ok_inv in H as (q & Hq & H).
  injection H as <- <-.
  apply float_of_Z_inv in Hx. subst x.
  apply float_div_inv in Hq as [Hpf ->].
  repeat split; assumption.
Qed.

Lemma raw_error_inv (s : C.t) (inc err : float) :
  C.raw_error s inc = Ok err ->
  exists t, int_of_float (C.expected_mclk_count_inc_float s) = Ok t /\
            err = (inc - Z2F t)%float.
Proof.
  unfold C.raw_error. intros H.
  apply bind_Ok_inv in H as (t & Ht & H).
  apply bind_Ok_inv in H as (y & Hy & H).
  injection H as <-. apply float_of_Z_inv in Hy. subst y.
  exists t. split; [exact Ht|reflexivity].
Qed.

Lemma do_control_stores_sample {env : np.environment} {L : Type}
    (lookup : L -> pyval -> L * result (option float * Z))
    (s : C.t) (l : L) (m : pyval) (pf : float) (z : Z) (inc : float) :
  C.count_increment s m pf = Ok (z, inc) ->
  C.mclk_count_old (fst (fst (C.do_control lookup s l m pf))) = z.
Proof.
  intros Hinc. unfold C.do_control. rewrite Hinc.
  destruct (C.raw_error _ inc) as [err|e]; [|reflexivity].
  change (C.verbose (C.store_error _ _)) with (C.verbose s).
  destruct (C.verbose s); [reflexivity|].
  destruct (lookup l _) as [l' r]. reflexivity.
Qed.

(** C6 (as amended): the expected increment is [multiplier *
    ticks_per_call], fixed at construction and the same before and after
    every tick.  On a tick whose division by [period_fraction] is
    defined, the count increment is [(measured_count -
    previous_measured_count) / period_fraction], the previous count is
    replaced by the new sample within the tick, and the raw error that
    is added to [error_accum] is the count increment minus
    [int(expected_increment)]: the expected increment truncated toward
    zero, which is its floor whenever it is not negative. *)
Theorem raw_error_of_tick {env : np.environment} {L : Type}
    (lookup : L -> pyval -> L * result (option float * Z))
    (lut_size : Z) (multiplier : float) (rate : Z) (Kp Ki Kii : float)
    (m0 r0 : Z) (vb : bool) (s0 : C.t) (l0 : L)
    (ticks : list (pyval * float)) (m : pyval) (pf : float) :
  C.init lut_size multiplier rate Kp Ki Kii m0 r0 vb = Ok s0 ->
  let s := fst (C.run lookup s0 l0 ticks) in
  let l := snd (C.run lookup s0 l0 ticks) in
  let s' := fst (fst (C.do_control lookup s l m pf)) in
  let expected_increment := (multiplier * Z2F rate)%float in
  C.expected_mclk_count_inc_float s = expected_increment /\
  C.expected_mclk_count_inc_float s' = expected_increment /\
  forall z inc,
    C.count_increment s m pf = Ok (z, inc) ->
    py_int m = Ok z /\
    inc = (Z2F (z - C.mclk_count_old s) / pf)%float /\
    C.mclk_count_old s' = z /\
    forall err,
      C.raw_error (C.store_sample s z) inc = Ok err ->
      exists t,
        int_of_float expected_increment = Ok t /\
        Spec.truncation (Prim2SF expected_increment) t /\
        err = (inc - Z2F t)%float /\
        C.error_accum s' = (C.error_accum s + err)%float /\
        ((0 <=? expected_increment)%float = true ->
         floor_of_float expected_increment = Ok t).
Proof.
  intros Hinit s l s' expected_increment.
  destruct (tick_limits lookup _ _ _ _ _ _ _ _ _ _ l0 ticks m pf Hinit)
    as (_ & _ & _ & _ & _ & Hexp' & Hexp).
  fold s l s' expected_increment in Hexp, Hexp'.
  split; [exact Hexp|]. split; [exact Hexp'|].
  intros z inc Hinc.
  destruct (count_increment_inv _ _ _ _ _ Hinc) as (Hz & _ & Hi).
  split; [exact Hz|]. split; [exact Hi|].
  split; [apply (do_control_stores_sample lookup s l m pf z inc); exact Hinc|].
  intros err Herr.
  destruct (raw_error_inv _ _ _ Herr) as (t & Ht & He).
  change (C.expected_mclk_count_inc_float (C.store_sample s z))
    with (C.expected_mclk_count_inc_float s) in Ht.
  rewrite Hexp in Ht.
  exists t. split; [exact Ht|].
  split; [apply trunc_SF_truncation; exact Ht|].
  split; [exact He|].
  split.
  - destruct (do_control_accumulates lookup s l m pf z inc err Hinc Herr)
      as [Hacc _].
    exact Hacc.
  - intros Hpos. rewrite floor_of_nonneg by exact Hpos. exact Ht.
Qed.

Section raw_error_runs.
#[local] Existing Instance Demo.numpy_2.

Lemma raw_error_of_tick_witness :
  C.init 5 256 512 0.5 2 0 0 0 false = Ok Demo.ctrl /\
  C.expected_mclk_count_inc_float
    (fst (fst (C.do_control E.get_output_freqency_from_error
                 Demo.ctrl Demo.mapper (PyInt 131080) 1)))
  = (256 * Z2F 512)%float.
Proof.
  assert (Hinit : C.init 5 256 512 0.5 2 0 0 0 false = Ok Demo.ctrl)
    by (vm_compute; reflexivity).
  split; [exact Hinit|].
  destruct (raw_error_of_tick E.get_output_freqency_from_error
              5 256 512 0.5 2 0 0 0 false Demo.ctrl Demo.mapper []
              (PyInt 131080) 1 Hinit) as (_ & H & _).
  exact H.
Defined.

(** C6, counterexample: with [multiplier = -1.5] and one tick per call
    the expected increment is [-1.5]; [int(-1.5)] is [-1], so a count
    increment of 0 gives the raw error [1.0], where the floor [-2] would
    give [2.0]. *)
Lemma raw_error_truncates_not_floors :
  C.init 5 (-1.5) 1 0.5 2 0 0 0 false = Ok Demo.ctrl_negative_multiplier /\
  C.count_increment Demo.ctrl_negative_multiplier (PyInt 0) 1 = Ok (0, 0%float) /\
  C.raw_error Demo.ctrl_negative_multiplier 0 = Ok 1%float /\
  Spec.raw_error_floor Demo.ctrl_negative_multiplier 0 = Ok 2%float /\
  C.error_accum
    (fst (fst (C.do_control E.get_output_freqency_from_error
                 Demo.ctrl_negative_multiplier Demo.mapper (PyInt 0) 1)))
  = 1%float /\
  (1 =? 2)%float = false.
Proof. vm_compute. repeat split; reflexivity. Qed.

End raw_error_runs.

(** ** The measured count *)

(** C9: a tick accepts a non-integer measured count and truncates it
    toward zero before differencing: whenever the tick gets as far as
    the division by [period_fraction], the stored previous count is
    [int(mclk_count_float)], the float with its fractional part
    discarded, and the count increment is computed from that integer
    and the previously stored one. *)
Theorem measured_count_truncated {env : np.environment} {L : Type}
    (lookup : L -> pyval -> L * result (option float * Z))
    (s : C.t) (l : L) (x pf : float) (z : Z) (inc : float) :
  C.count_increment s (PyFloat x) pf = Ok (z, inc) ->
  let s' := fst (fst (C.do_control lookup s l (PyFloat x) pf)) in
  int_of_float x = Ok z /\
  Spec.truncation (Prim2SF x) z /\
  C.mclk_count_old s' = z /\
  inc = (Z2F (z - C.mclk_count_old s) / pf)%float.
Proof.
  intros Hinc s'.
  destruct (count_increment_inv _ _ _ _ _ Hinc) as (Hz & _ & Hi).
  simpl in Hz.
  split; [exact Hz|].
  split; [apply trunc_SF_truncation; exact Hz|].
  split; [|exact Hi].
  apply (do_control_stores_sample lookup s l (PyFloat x) pf z inc). exact Hinc.
Qed.

Section measured_count_run.
#[local] Existing Instance Demo.numpy_2.

Lemma measured_count_truncated_witness :
  C.count_increment Demo.ctrl (PyFloat 131073.75) 1 = Ok (131073, 131073%float) /\
  C.mclk_count_old
    (fst (fst (C.do_control E.get_output_freqency_from_error
                 Demo.ctrl Demo.mapper (PyFloat 131073.75) 1))) = 131073.
Proof.
  assert (H : C.count_increment Demo.ctrl (PyFloat 131073.75) 1
              = Ok (131073, 131073%float)) by (vm_compute; reflexivity).
  split; [exact H|].
  destruct (measured_count_truncated E.get_output_freqency_from_error
              Demo.ctrl Demo.mapper 131073.75 1 131073 131073 H)
    as (_ & _ & Hs & _).
  exact Hs.
Defined.

End measured_count_run.

(** ** The frequency model *)

Lemma bind_Ok {X Y : Type} (x : X) (k : X -> result Y) : Ok x ≫= k = k x.
Proof. reflexivity. Qed.

Lemma assert_inv {Y : Type} (b : bool) (msg : string) (k : result Y) (y : Y) :
  (assert b msg;; k) = Ok y -> b = true /\ k = Ok y.
Proof.
  destruct b; simpl; [|discriminate]. intros H. split; [reflexivity|exact H].
Qed.

(** The integers of the register ranges convert exactly, and adding
    [1.0] to them never gives zero. *)
Lemma small_field_table :
  List.forallb
    (fun n => negb (is_infinity (Z2F (Z.of_nat n)))
              && negb (Z2F (Z.of_nat n) + 1 =? 0)%float)
    (List.seq 0 (Z.to_nat 8192)) = true.
Proof. vm_compute. reflexivity. Qed.

Lemma small_field (z : Z) :
  0 <= z <= 8191 ->
  is_infinity (Z2F z) = false /\ (Z2F z + 1 =? 0)%float = false.
Proof.
  intros Hz. pose proof small_field_table as H.
  rewrite List.forallb_forall in H.
  specialize (H (Z.to_nat z)).
  rewrite Z2Nat.id in H by lia.
  assert (Hin : List.In (Z.to_nat z) (List.seq 0 (Z.to_nat 8192)))
    by (apply List.in_seq; lia).
  specialize (H Hin). apply andb_true_iff in H as [H1 H2].
  apply negb_true_iff in H1, H2. split; assumption.
Qed.

Lemma add_1_0_small (z : Z) :
  0 <= z <= 8191 -> A.add_1_0 (PyInt z) = Ok (Z2F z + 1)%float.
Proof.
  intros Hz. destruct (small_field z Hz) as [Hinf _].
  unfold A.add_1_0, to_float, float_of_Z. rewrite Hinf. reflexivity.
Qed.

Lemma float_div_nonzero (x y : float) :
  (y =? 0)%float = false -> float_div x y = Ok (x / y)%float.
Proof. intros H. unfold float_div. rewrite H. reflexivity. Qed.

Lemma intermediate_freq_value (c : A.t) (Fz Rz : Z) (x : float) :
  A.F c = PyInt Fz -> 1 <= Fz <= 8191 ->
  A.R c = PyInt Rz -> 0 <= Rz <= 63 ->
  to_float (A.input_frequency c) = Ok x ->
  A.intermediate_freq c = Ok (x * (Z2F Fz + 1) / 2 / (Z2F Rz + 1))%float.
Proof.
  intros HF HFz HR HRz Hx. unfold A.intermediate_freq, A.mul_float.
  rewrite HF, HR, Hx, !add_1_0_small by lia. rewrite !bind_Ok.
  rewrite (float_div_nonzero _ 2) by reflexivity. rewrite bind_Ok.
  apply float_div_nonzero. apply small_field. lia.
Qed.

(** The value computed when every step is defined. *)
Lemma calc_frequency_value_formula (c : A.t) (Fz Rz ODz fz pz : Z) (x q d : float) :
  Spec.preconditions c Fz Rz ODz fz pz ->
  to_float (A.input_frequency c) = Ok x ->
  A.vco_in_range (x * (Z2F Fz + 1) / 2 / (Z2F Rz + 1)) = true ->
  A.frac fz pz = Ok q ->
  A.acd_div c = Ok d -> (d =? 0)%float = false ->
  A.calc_frequency_value c
  = Ok (x * (Z2F Fz + 1 + q) / 2 / (Z2F Rz + 1) / (Z2F ODz + 1) / d)%float.
Proof.
  intros (HF & HFz & HR & HRz & HOD & HODz & Hf & Hp & Hfp) Hx Hvco Hq Hd Hd0.
  unfold A.calc_frequency_value.
  rewrite (intermediate_freq_value c Fz Rz x) by assumption.
  rewrite HF, HR, HOD, Hf, Hp. cbn [A.between is_int].
  replace (1 <=? Fz) with true by (symmetry; apply Z.leb_le; lia).
  replace (Fz <=? 8191) with true by (symmetry; apply Z.leb_le; lia).
  replace (0 <=? Rz) with true by (symmetry; apply Z.leb_le; lia).
  replace (Rz <=? 63) with true by (symmetry; apply Z.leb_le; lia).
  replace (0 <=? ODz) with true by (symmetry; apply Z.leb_le; lia).
  replace (ODz <=? 7) with true by (symmetry; apply Z.leb_le; lia).
  cbn [andb assert]. rewrite !bind_Ok. rewrite Hvco.
  cbn [assert]. rewrite !bind_Ok.
  replace (fz <? pz) with true by (symmetry; apply Z.ltb_lt; lia).
  cbn [assert]. rewrite !bind_Ok.
  rewrite (add_1_0_small Fz), (add_1_0_small Rz), (add_1_0_small ODz) by lia.
  rewrite Hq, Hd. unfold A.mul_float. rewrite Hx.
  cbn [mbind result_bind bind].
  rewrite (float_div_nonzero _ 2) by reflexivity.
  cbn [mbind result_bind bind].
  rewrite (float_div_nonzero _ (Z2F Rz + 1)) by (apply small_field; lia).
  cbn [mbind result_bind bind].
  rewrite (float_div_nonzero _ (Z2F ODz + 1)) by (apply small_field; lia).
  cbn [mbind result_bind bind].
  apply float_div_nonzero. exact Hd0.
Qed.

Lemma between_int_inv (v : pyval) (lo hi : Z) :
  A.between v lo hi = true -> is_int v = true ->
  exists z, v = PyInt z /\ lo <= z <= hi.
Proof.
  destruct v as [z|x]; simpl; [|discriminate].
  intros H _. apply andb_true_iff in H as [H1 H2].
  apply Z.leb_le in H1, H2. exists z. split; [reflexivity|lia].
Qed.

Lemma mul_float_inv (v : pyval) (y r : float) :
  A.mul_float v y = Ok r -> exists x, to_float v = Ok x /\ r = (x * y)%float.
Proof.
  unfold A.mul_float. intros H. apply bind_Ok_inv in H as (x & Hx & H).
  injection H as <-. exists x. split; [exact Hx|reflexivity].
Qed.

(** What a returned frequency tells about the configuration. *)
Lemma calc_frequency_value_inv (c : A.t) (v : float) :
  A.calc_frequency_value c = Ok v ->
  exists Fz Rz ODz fz pz x q d,
    Spec.preconditions c Fz Rz ODz fz pz /\
    to_float (A.input_frequency c) = Ok x /\
    A.intermediate_freq c = Ok (x * (Z2F Fz + 1) / 2 / (Z2F Rz + 1))%float /\
    A.vco_in_range (x * (Z2F Fz + 1) / 2 / (Z2F Rz + 1)) = true /\
    A.frac fz pz = Ok q /\
    A.acd_div c = Ok d /\ (d =? 0)%float = false /\
    v = (x * (Z2F Fz + 1 + q) / 2 / (Z2F Rz + 1) / (Z2F ODz + 1) / d)%float.
Proof.
  unfold A.calc_frequency_value. intros H.
  apply assert_inv in H as [HbF H]. apply assert_inv in H as [HiF H].
  apply assert_inv in H as [HbR H]. apply assert_inv in H as [HiR H].
  apply assert_inv in H as [HbOD H]. apply assert_inv in H as [HiOD H].
  apply bind_Ok_inv in H as (vco & Hvco & H).
  apply assert_inv in H as [Hrange H].
  apply assert_inv in H as [Hip H]. apply assert_inv in H as [Hif H].
  destruct (between_int_inv _ _ _ HbF HiF) as (Fz & HF & HFz).
  destruct (between_int_inv _ _ _ HbR HiR) as (Rz & HR & HRz).
  destruct (between_int_inv _ _ _ HbOD HiOD) as (ODz & HOD & HODz).
  destruct (A.f c) as [fz|] eqn:Hf; [|discriminate].
  destruct (A.p c) as [pz|] eqn:Hp; [|discriminate].
  apply assert_inv in H as [Hfp H]. apply Z.ltb_lt in Hfp.
  apply bind_Ok_inv in H as (a & Ha & H).
  apply bind_Ok_inv in H as (q & Hq & H).
  apply bind_Ok_inv in H as (b & Hb & H).
  apply mul_float_inv in Hb as (x & Hx & ->).
  assert (Hpre : Spec.preconditions c Fz Rz ODz fz pz)
    by (unfold Spec.preconditions; repeat split; assumption || lia).
  pose proof (intermediate_freq_value c Fz Rz x HF HFz HR HRz Hx) as Hvco'.
  rewrite Hvco in Hvco'. injection Hvco' as ->.
  apply bind_Ok_inv in H as (c0 & Hc0 & H).
  apply bind_Ok_inv in H as (d0 & Hd0 & H).
  apply bind_Ok_inv in H as (e & He & H).
  apply bind_Ok_inv in H as (g & Hg & H).
  apply bind_Ok_inv in H as (h & Hh & H).
  apply bind_Ok_inv in H as (k & Hk & H).
  rewrite HF, add_1_0_small in Ha by lia. injection Ha as <-.
  rewrite HR, add_1_0_small in Hd0 by lia. injection Hd0 as <-.
  rewrite HOD, add_1_0_small in Hg by lia. injection Hg as <-.
  apply float_div_inv in Hc0 as [_ ->].
  apply float_div_inv in He as [_ ->].
  apply float_div_inv in Hh as [_ ->].
  apply float_div_inv in H as [Hk0 ->].
  exists Fz, Rz, ODz, fz, pz, x, q, k.
  repeat split; try assumption; try apply Hpre.
Qed.

(** C5 (as amended): for every configuration that satisfies the
    preconditions (F in [1,8191], R in [0,63], OD in [0,7], integer
    fields, f < p) and also passes the VCO check, and whose unguarded
    divisors [p + 1] and [2.0 * (ACD + 1)] are defined and not zero, the
    frequency model returns exactly
    [input * (F + 1 + (f+1)/(p+1)) / 2 / (R+1) / (OD+1) / (2*(ACD+1))].
    The value depends on the seven fields only; the one attribute
    written is the cached [output_frequency], so a repeated call
    returns the same frequency and changes nothing. *)
Theorem calc_frequency_formula (c : A.t) (Fz Rz ODz fz pz : Z) (x q d : float) :
  Spec.preconditions c Fz Rz ODz fz pz ->
  to_float (A.input_frequency c) = Ok x ->
  A.vco_in_range (x * (Z2F Fz + 1) / 2 / (Z2F Rz + 1)) = true ->
  A.frac fz pz = Ok q ->
  A.acd_div c = Ok d -> (d =? 0)%float = false ->
  let v := (x * (Z2F Fz + 1 + q) / 2 / (Z2F Rz + 1) / (Z2F ODz + 1) / d)%float in
  A.calc_frequency c = (A.set_output_frequency c v, Ok v) /\
  A.calc_frequency (A.set_output_frequency c v)
    = (A.set_output_frequency c v, Ok v) /\
  (forall o ls vb,
      A.calc_frequency_value
        (A.mk (A.input_frequency c) (A.F c) (A.R c) (A.OD c) (A.ACD c)
              (A.f c) (A.p c) o ls vb) = Ok v) /\
  (small_int (fz + 1) && small_int (pz + 1) = true ->
   q = (Z2F (fz + 1) / Z2F (pz + 1))%float) /\
  (forall a, A.ACD c = PyInt a -> d = (Z2F (a + 1) * 2)%float).
Proof.
  intros Hpre Hx Hvco Hq Hd Hd0 v.
  assert (Hany : forall o ls vb,
             A.calc_frequency_value
               (A.mk (A.input_frequency c) (A.F c) (A.R c) (A.OD c) (A.ACD c)
                     (A.f c) (A.p c) o ls vb) = Ok v).
  { intros o ls vb.
    apply (calc_frequency_value_formula _ Fz Rz ODz fz pz x q d);
      try assumption. }
  split; [|split; [|split; [|split]]].
  - unfold A.calc_frequency.
    rewrite (calc_frequency_value_formula c Fz Rz ODz fz pz x q d) by assumption.
    reflexivity.
  - unfold A.calc_frequency, A.set_output_frequency at 1.
    rewrite Hany. reflexivity.
  - exact Hany.
  - intros Hsmall. unfold A.frac, int_truediv in Hq.
    destruct Hpre as (_ & _ & _ & _ & _ & _ & _ & _ & Hfp).
    destruct (Z.eqb_spec (pz + 1) 0) as [H0|H0]; [discriminate|].
    rewrite Hsmall in Hq. injection Hq as <-. reflexivity.
  - intros a Ha. unfold A.acd_div, A.mul_float in Hd. rewrite Ha in Hd.
    apply bind_Ok_inv in Hd as (y & Hy & Hd). injection Hd as <-.
    simpl in Hy. apply float_of_Z_inv in Hy. subst y. reflexivity.
Qed.

Lemma calc_frequency_formula_witness :
  Spec.preconditions Demo.pll 99 0 4 1 2 /\
  A.calc_frequency Demo.pll = (Demo.pll, Ok 24160000%float).
Proof.
  assert (Hpre : Spec.preconditions Demo.pll 99 0 4 1 2)
    by (unfold Spec.preconditions; simpl; repeat split; lia).
  split; [exact Hpre|].
  assert (Hx : to_float (A.input_frequency Demo.pll) = Ok 24000000%float)
    by (vm_compute; reflexivity).
  assert (Hvco : A.vco_in_range (24000000 * (Z2F 99 + 1) / 2 / (Z2F 0 + 1)) = true)
    by (vm_compute; reflexivity).
  assert (Hq : A.frac 1 2 = Ok (Z2F 2 / Z2F 3)%float)
    by (vm_compute; reflexivity).
  assert (Hd : A.acd_div Demo.pll = Ok 10%float) by (vm_compute; reflexivity).
  assert (Hd0 : (10 =? 0)%float = false) by (vm_compute; reflexivity).
  destruct (calc_frequency_formula Demo.pll 99 0 4 1 2
              24000000 (Z2F 2 / Z2F 3) 10 Hpre Hx Hvco Hq Hd Hd0)
    as (H & _).
  rewrite H. vm_compute. reflexivity.
Defined.

(** C5, counterexample: F = 1, R = 0, OD = 0, f = 0 < p = 1, all
    integers, on a 24 MHz input: the preconditions hold, the VCO
    frequency would be 24 MHz, and the model raises instead of
    returning the formula's value. *)
Lemma calc_frequency_raises_on_low_vco :
  Spec.preconditions Demo.pll_low_vco 1 0 0 0 1 /\
  A.calc_frequency_value Demo.pll_low_vco
    = Raise (AssertionError "Invalid VCO freq").
Proof.
  split.
  - unfold Spec.preconditions. simpl. repeat split; lia.
  - vm_compute. reflexivity.
Qed.

Lemma frac_minus_one (fz : Z) : A.frac fz (-1) = Raise ZeroDivisionError.
Proof. reflexivity. Qed.

Lemma acd_minus_one (c : A.t) :
  A.ACD c = PyInt (-1) -> A.acd_div c = Ok 0%float.
Proof. intros H. unfold A.acd_div. rewrite H. vm_compute. reflexivity. Qed.

(** C7 (as amended): the frequency model returns a frequency if and
    only if every configuration check passes (F, R and OD integers in
    range, f and p integers with f < p, VCO frequency within
    [360e6, 1800e6]) and the two divisors that no check guards are
    defined and not zero; otherwise it raises, at once and leaving the
    object as it was.  So it raises whenever a check fails, and also,
    with every check passing, when [p = -1] or [ACD = -1]
    (ZeroDivisionError) or when an integer is too large for a double
    (OverflowError). *)
Theorem calc_frequency_raises_iff (c : A.t) :
  ((exists v, A.calc_frequency_value c = Ok v)
   <-> Spec.config_checks c /\ Spec.divisors_ok c) /\
  ((exists e, A.calc_frequency_value c = Raise e)
   <-> ~ (Spec.config_checks c /\ Spec.divisors_ok c)) /\
  (~ Spec.config_checks c -> exists e, A.calc_frequency_value c = Raise e) /\
  (forall e, A.calc_frequency_value c = Raise e ->
             A.calc_frequency c = (c, Raise e)) /\
  (forall fz, A.frac fz (-1) = Raise ZeroDivisionError) /\
  (A.ACD c = PyInt (-1) -> ~ Spec.divisors_ok c).
Proof.
  assert (Hiff : (exists v, A.calc_frequency_value c = Ok v)
                 <-> Spec.config_checks c /\ Spec.divisors_ok c).
  { split.
    - intros [v Hv].
      destruct (calc_frequency_value_inv c v Hv)
        as (Fz & Rz & ODz & fz & pz & x & q & d
            & Hpre & Hx & Hvco & Hrange & Hq & Hd & Hd0 & _).
      split.
      + exists Fz, Rz, ODz, fz, pz, (x * (Z2F Fz + 1) / 2 / (Z2F Rz + 1))%float.
        repeat split; try assumption; apply Hpre.
      + exists fz, pz, q, d.
        destruct Hpre as (_ & _ & _ & _ & _ & _ & Hf & Hp & _).
        repeat split; assumption.
    - intros [(Fz & Rz & ODz & fz & pz & vco & Hpre & Hvco & Hrange)
              (fz' & pz' & q & d & Hf' & Hp' & Hq & Hd & Hd0)].
      pose proof Hpre as (HF & HFz & HR & HRz & _ & _ & Hf & Hp & _).
      assert (fz' = fz) by congruence. assert (pz' = pz) by congruence.
      subst fz' pz'.
      assert (Hx : exists x, to_float (A.input_frequency c) = Ok x).
      { unfold A.intermediate_freq in Hvco.
        apply bind_Ok_inv in Hvco as (a & _ & Hvco).
        apply bind_Ok_inv in Hvco as (b & Hb & _).
        apply mul_float_inv in Hb as (x & Hx & _). exists x. exact Hx. }
      destruct Hx as [x Hx].
      rewrite (intermediate_freq_value c Fz Rz x) in Hvco by assumption.
      injection Hvco as <-.
      eexists.
      apply (calc_frequency_value_formula c Fz Rz ODz fz pz x q d);
        assumption. }
  assert (Hraise : (exists e, A.calc_frequency_value c = Raise e)
                   <-> ~ (Spec.config_checks c /\ Spec.divisors_ok c)).
  { split.
    - intros [e He] Hok. apply Hiff in Hok as [v Hv]. congruence.
    - intros Hno. destruct (A.calc_frequency_value c) as [v|e] eqn:Hc.
      + exfalso. apply Hno. apply Hiff. exists v. reflexivity.
      + exists e. reflexivity. }
  split; [exact Hiff|]. split; [exact Hraise|]. split; [|split; [|split]].
  - intros Hno. apply Hraise. intros [Hc _]. exact (Hno Hc).
  - intros e He. unfold A.calc_frequency. rewrite He. reflexivity.
  - exact frac_minus_one.
  - intros Hacd (fz & pz & q & d & _ & _ & _ & Hd & Hd0).
    rewrite (acd_minus_one c Hacd) in Hd. injection Hd as <-.
    vm_compute in Hd0. discriminate.
Qed.

(** C7, counterexample: F = 99, R = 0, OD = 4, f = 1 < p = 2, all
    integers, a VCO frequency of 1200 MHz, and ACD = -1: no
    configuration check fails, and the model raises ZeroDivisionError. *)
Lemma calc_frequency_raises_without_failed_check :
  Spec.config_checks Demo.pll_zero_acd /\
  A.calc_frequency_value Demo.pll_zero_acd = Raise ZeroDivisionError.
Proof.
  split.
  - exists 99, 0, 4, 1, 2, 1200000000%float.
    unfold Spec.preconditions. simpl.
    repeat split; try lia; vm_compute; reflexivity.
  - vm_compute. reflexivity.
Qed.

(** ** Run-time failures *)

Lemma frac_small (fz pz : Z) :
  0 <= fz -> fz < pz -> pz < 2 ^ 53 ->
  A.frac fz pz = Ok (Z2F (fz + 1) / Z2F (pz + 1))%float.
Proof.
  intros H0 Hlt Hp. unfold A.frac, int_truediv, small_int.
  destruct (Z.eqb_spec (pz + 1) 0) as [Hz|_]; [lia|].
  replace (Z.abs (fz + 1) <=? 2 ^ 53) with true by (symmetry; apply Z.leb_le; lia).
  replace (Z.abs (pz + 1) <=? 2 ^ 53) with true by (symmetry; apply Z.leb_le; lia).
  reflexivity.
Qed.

(** A configuration that passes keeps passing when the fractional pair
    is replaced by another with [0 <= f < p]. *)
Lemma calc_frequency_value_set_frac (c : A.t) (v0 : float) (fz pz : Z) :
  A.calc_frequency_value c = Ok v0 ->
  0 <= fz -> fz < pz -> pz < 2 ^ 53 ->
  exists v, A.calc_frequency_value (A.set_frac c (PyInt fz) (PyInt pz)) = Ok v.
Proof.
  intros Hc H0 Hlt Hp.
  destruct (calc_frequency_value_inv c v0 Hc)
    as (Fz & Rz & ODz & fz0 & pz0 & x & q & d
        & Hpre & Hx & _ & Hrange & _ & Hd & Hd0 & _).
  destruct Hpre as (HF & HFz & HR & HRz & HOD & HODz & _ & _ & _).
  eexists.
  apply (calc_frequency_value_formula _ Fz Rz ODz fz pz x
           (Z2F (fz + 1) / Z2F (pz + 1)) d).
  - unfold Spec.preconditions. simpl. repeat split; assumption || lia.
  - exact Hx.
  - exact Hrange.
  - apply frac_small; assumption.
  - exact Hd.
  - exact Hd0.
Qed.



Lemma valid_entry_bytes (r : Z) :
  0 <= r < 2 ^ 16 ->
  0 <= fst (E.reg_to_frac r) /\ snd (E.reg_to_frac r) < 2 ^ 53.
Proof.
  intros Hr. unfold E.reg_to_frac. cbn [fst snd].
  rewrite high_byte_shiftr by exact Hr.
  rewrite Z.shiftr_div_pow2 by lia.
  change 0xff with (Z.ones 8). rewrite Z.land_ones by lia.
  split; [apply Z.div_pos; lia|].
  pose proof (Z.mod_pos_bound r (2 ^ 8)). lia.
Qed.

(** On a valid mapper a call with an error whose integer value exists
    returns, and leaves the mapper valid. *)
Lemma mapper_total (self : E.t) (error : pyval) (err : Z) :
  Spec.valid_mapper self ->
  py_int error = Ok err ->
  exists v status,
    snd (E.get_output_freqency_from_error self error) = Ok (Some v, status) /\
    C.lock_status_lookup status
      = Some (Spec.resolve_status (Z.of_nat (length (E.get_lut self))) err) /\
    Spec.valid_mapper (fst (E.get_output_freqency_from_error self error)).
Proof.
  intros (Hne & [v0 Hv0] & Hentries) Herr.
  destruct (mapper_unfold self error err Herr Hne)
    as (register & status & _ & Hlk & Hstatus & Heq).
  cbv zeta in Heq.
  apply list_elem_of_lookup_2 in Hlk.
  destruct (Hentries register Hlk) as [Hreg Hfp].
  destruct (valid_entry_bytes register Hreg) as [Hf0 Hp53].
  destruct (calc_frequency_value_set_frac (E.pll self) v0 _ _ Hv0 Hf0 Hfp Hp53)
    as [v Hv].
  exists v, status. rewrite Heq. unfold A.calc_frequency. rewrite Hv.
  cbn [fst snd mbind result_bind bind].
  split; [reflexivity|]. split; [exact Hstatus|].
  unfold Spec.valid_mapper. cbn [E.get_lut E.table E.pll].
  split; [exact Hne|]. split; [|exact Hentries].
  exists v. exact Hv.
Qed.

Lemma finite_int (x : float) :
  finite x = true -> exists z, int_of_float x = Ok z.
Proof.
  unfold finite, int_of_float.
  destruct (Prim2SF x) as [s|s| |s m e]; simpl; try discriminate;
    intros _; eexists; reflexivity.
Qed.

Lemma not_finite_int (x : float) :
  finite x = false ->
  int_of_float x = Raise ValueError \/ int_of_float x = Raise OverflowError.
Proof.
  unfold finite, int_of_float.
  destruct (Prim2SF x) as [s|s| |s m e]; simpl; try discriminate;
    intros _; [right|left]; reflexivity.
Qed.

(** A tick in verbose mode reads two attributes that no method
    assigns. *)
Lemma verbose_tick_raises {env : np.environment} {L : Type}
    (lookup : L -> pyval -> L * result (option float * Z))
    (s : C.t) (l : L) (m : pyval) (pf : float) (z : Z) (inc err : float) :
  C.verbose s = true ->
  C.count_increment s m pf = Ok (z, inc) ->
  C.raw_error (C.store_sample s z) inc = Ok err ->
  snd (C.do_control lookup s l m pf) = Raise AttributeError.
Proof.
  intros Hv Hinc Herr. unfold C.do_control. rewrite Hinc, Herr.
  change (C.verbose (C.store_error _ _)) with (C.verbose s).
  rewrite Hv. reflexivity.
Qed.

(** C4 (as amended): on a valid mapper (non-empty table, a
    configuration that passes the checks, every entry decoding to
    [f < p]) the mapper never raises for a signed integer error: an
    out-of-range error gives the clamped index with UNLOCKED LOW or
    UNLOCKED HIGH.  A controller tick with [verbose] off returns
    whenever [period_fraction] is not zero and the measured count, the
    count increment and the resulting total error are finite doubles; it
    raises ZeroDivisionError when [period_fraction = 0], and ValueError
    or OverflowError when the total error is NaN or infinite. *)
Theorem ticks_degrade_gracefully {env : np.environment} (s : C.t) (self : E.t) :
  Spec.valid_mapper self ->
  (forall err : Z,
     exists v status,
       snd (E.get_output_freqency_from_error self (PyInt err))
         = Ok (Some v, status) /\
       C.lock_status_lookup status
         = Some (Spec.resolve_status (Z.of_nat (length (E.get_lut self))) err) /\
       Spec.valid_mapper (fst (E.get_output_freqency_from_error self (PyInt err)))) /\
  (forall m pf z inc err,
     C.verbose s = false ->
     C.count_increment s m pf = Ok (z, inc) ->
     C.raw_error (C.store_sample s z) inc = Ok err ->
     let total := C.total_error (C.integrate (C.store_sample s z) err) err in
     (finite total = true ->
      exists v status,
        snd (C.do_control E.get_output_freqency_from_error s self m pf)
          = Ok (Some v, status) /\
        Spec.valid_mapper
          (snd (fst (C.do_control E.get_output_freqency_from_error s self m pf)))) /\
     (finite total = false ->
      snd (C.do_control E.get_output_freqency_from_error s self m pf)
        = Raise ValueError \/
      snd (C.do_control E.get_output_freqency_from_error s self m pf)
        = Raise OverflowError)) /\
  (forall m pf z,
     py_int m = Ok z ->
     is_infinity (Z2F (z - C.mclk_count_old s)) = false ->
     (pf =? 0)%float = true ->
     C.do_control E.get_output_freqency_from_error s self m pf
       = ((s, self), Raise ZeroDivisionError)).
Proof.
  intros Hvalid. split; [|split].
  - intros err. apply mapper_total; [exact Hvalid|reflexivity].
  - intros m pf z inc err Hv Hinc Herr total. split.
    + intros Hfin. destruct (finite_int total Hfin) as [e He].
      destruct (mapper_total self (PyFloat total) e Hvalid He)
        as (v & status & Hres & _ & Hvalid').
      exists v, status.
      unfold C.do_control. rewrite Hinc, Herr.
      change (C.verbose (C.store_error _ _)) with (C.verbose s). rewrite Hv.
      change (C.error (C.store_error _ ?t)) with t. fold total.
      destruct (E.get_output_freqency_from_error self (PyFloat total))
        as [self' r]. simpl in *. split; assumption.
    + intros Hfin. unfold C.do_control. rewrite Hinc, Herr.
      change (C.verbose (C.store_error _ _)) with (C.verbose s). rewrite Hv.
      change (C.error (C.store_error _ ?t)) with t. fold total.
      unfold E.get_output_freqency_from_error. cbn [py_int].
      destruct (not_finite_int total Hfin) as [-> | ->]; [left|right]; reflexivity.
  - intros m pf z Hz Hinf Hpf. unfold C.do_control, C.count_increment.
    rewrite Hz. cbn [mbind result_bind bind].
    unfold float_of_Z. rewrite Hinf. cbn [mbind result_bind bind].
    unfold float_div. rewrite Hpf. reflexivity.
Qed.

Lemma demo_mapper_valid : Spec.valid_mapper Demo.mapper.
Proof.
  split; [discriminate|]. split.
  - exists 24160000%float. vm_compute. reflexivity.
  - intros r Hr. cbn in Hr.
    repeat (apply elem_of_cons in Hr as [->|Hr];
            [split; [lia|vm_compute; reflexivity]|]).
    apply elem_of_nil in Hr. contradiction.
Qed.

Lemma ticks_degrade_gracefully_witness :
  Spec.valid_mapper Demo.mapper /\
  exists v status,
    snd (E.get_output_freqency_from_error Demo.mapper (PyInt 7))
      = Ok (Some v, status) /\
    C.lock_status_lookup status = Some "UNLOCKED LOW"%string.
Proof.
  split; [exact demo_mapper_valid|].
  destruct (ticks_degrade_gracefully (env := Demo.numpy_2)
              Demo.ctrl Demo.mapper demo_mapper_valid)
    as (H & _).
  destruct (H 7) as (v & status & Hres & Hstatus & _).
  exists v, status. split; [exact Hres|exact Hstatus].
Defined.

Section overflowing_tick.
#[local] Existing Instance Demo.numpy_2.

(** C4, counterexample: a valid mapper, [verbose] off, a measured count
    of 2^30 and [period_fraction = 2^-1000], which is not zero: the
    count increment overflows to infinity, the double-integral term
    [0.0 * inf] is NaN, so is the total error, and [int(error)] in the
    mapper raises ValueError. *)
Lemma tick_raises_with_nonzero_period_fraction :
  Spec.valid_mapper Demo.mapper /\
  C.verbose Demo.ctrl = false /\
  (0x1p-1000 =? 0)%float = false /\
  snd (C.do_control E.get_output_freqency_from_error Demo.ctrl Demo.mapper
         (PyInt 1073741824) 0x1p-1000)
  = Raise ValueError.
Proof.
  split; [exact demo_mapper_valid|].
  vm_compute. repeat split; reflexivity.
Qed.

End overflowing_tick.

(** ** Building the table *)

Section table_lines.

Context {env : np.environment}.

(** A size declaration alone on its line. *)
Lemma loop_body_size (st : P.locals) (n : nat) :
  np.zeros_outcome n = np.allocated ->
  P.loop_body st (Spec.size_line n)
  = Ok (P.mk_locals (Some (replicate n 0)) (P.l_min_frac st) (P.l_max_frac st)).
Proof.
  intros Hn. unfold P.loop_body, np.zeros.
  cbn [Spec.size_line P.num_entries_match P.entry_match].
  rewrite Hn. reflexivity.
Qed.

(** A size declaration that cannot be allocated, whatever else the
    line holds. *)
Lemma loop_body_size_fails (st : P.locals) (ln : P.line) (n : nat) :
  P.num_entries_match ln = Some n ->
  np.zeros_outcome n <> np.allocated ->
  (np.zeros_outcome n = np.too_large /\ P.loop_body st ln = Raise ValueError) \/
  (np.zeros_outcome n = np.out_of_memory /\
   P.loop_body st ln = Raise MemoryError).
Proof.
  intros Hln Hn. unfold P.loop_body, np.zeros. rewrite Hln.
  destruct (np.zeros_outcome n); [congruence|left|right];
    split; reflexivity.
Qed.

(** An entry line whose index and register fit the table. *)
Lemma loop_body_entry (a : list Z) (mn mx : float) (e : N * nat * float) :
  Spec.in_table (length a) e ->
  exists mn' mx',
    P.loop_body (P.mk_locals (Some a) mn mx) (Spec.entry_line e)
    = Ok (P.mk_locals (Some (Spec.store a e)) mn' mx').
Proof.
  intros [Hidx Hreg]. destruct e as [[reg idx] frac].
  unfold Spec.entry_index, Spec.entry_reg in Hidx, Hreg.
  cbn [fst snd] in Hidx, Hreg.
  unfold P.loop_body, P.setitem, Spec.store, Spec.entry_index, Spec.entry_reg.
  cbn [Spec.entry_line P.num_entries_match P.entry_match P.lut
       P.l_min_frac P.l_max_frac fst snd mbind result_bind bind].
  replace (idx <? length a)%nat with true by (symmetry; apply Nat.ltb_lt; lia).
  replace (reg <? 65536)%N with true by (symmetry; apply N.ltb_lt; lia).
  cbn [mbind result_bind bind]. eexists. eexists. reflexivity.
Qed.

(** An entry line whose index is not below the size of the table. *)
Lemma loop_body_entry_outside (a : list Z) (mn mx : float)
    (e : N * nat * float) :
  (length a <= Spec.entry_index e)%nat ->
  P.loop_body (P.mk_locals (Some a) mn mx) (Spec.entry_line e)
  = Raise IndexError.
Proof.
  intros Hout. destruct e as [[reg idx] frac].
  unfold Spec.entry_index in Hout. cbn [fst snd] in Hout.
  unfold P.loop_body, P.setitem.
  cbn [Spec.entry_line P.num_entries_match P.entry_match P.lut
       fst snd mbind result_bind bind].
  replace (idx <? length a)%nat with false by (symmetry; apply Nat.ltb_ge; lia).
  reflexivity.
Qed.

Lemma loop_entries (es : list (N * nat * float)) (a : list Z) (mn mx : float) :
  Forall (Spec.in_table (length a)) es ->
  exists mn' mx',
    P.loop (P.mk_locals (Some a) mn mx) (map Spec.entry_line es)
    = Ok (P.mk_locals (Some (fold_left Spec.store es a)) mn' mx').
Proof.
  revert a mn mx. induction es as [|e es IH]; intros a mn mx Hall.
  - exists mn, mx. reflexivity.
  - apply Forall_cons in Hall as [He Hall].
    destruct (loop_body_entry a mn mx e He) as (mn1 & mx1 & Hbody).
    cbn [map P.loop fold_left]. rewrite Hbody.
    cbn [mbind result_bind bind].
    apply IH. unfold Spec.store. rewrite length_insert. exact Hall.
Qed.

Lemma loop_index_error (es : list (N * nat * float)) (e : N * nat * float)
    (rest : list (N * nat * float)) (a : list Z) (mn mx : float) :
  Forall (Spec.in_table (length a)) es ->
  (length a <= Spec.entry_index e)%nat ->
  P.loop (P.mk_locals (Some a) mn mx) (map Spec.entry_line (es ++ e :: rest))
  = Raise IndexError.
Proof.
  revert a mn mx. induction es as [|e0 es IH]; intros a mn mx Hall Hout.
  - cbn [app map P.loop]. rewrite loop_body_entry_outside by exact Hout.
    reflexivity.
  - apply Forall_cons in Hall as [He Hall].
    destruct (loop_body_entry a mn mx e0 He) as (mn1 & mx1 & Hbody).
    cbn [app map P.loop]. rewrite Hbody. cbn [mbind result_bind bind].
    apply IH; unfold Spec.store; rewrite length_insert; assumption.
Qed.

End table_lines.

Lemma length_stores (es : list (N * nat * float)) (a : list Z) :
  length (fold_left Spec.store es a) = length a.
Proof.
  revert a. induction es as [|e es IH]; intros a; [reflexivity|].
  simpl. rewrite IH. unfold Spec.store. apply length_insert.
Qed.

(** An index that no entry names keeps what it held. *)
Lemma lookup_stores_other (es : list (N * nat * float)) (a : list Z) (i : nat) :
  Forall (fun e => Spec.entry_index e <> i) es ->
  fold_left Spec.store es a !! i = a !! i.
Proof.
  revert a. induction es as [|e es IH]; intros a Hall; [reflexivity|].
  apply Forall_cons in Hall as [Hne Hall]. simpl.
  rewrite IH by exact Hall. unfold Spec.store.
  apply list_lookup_insert_ne. exact Hne.
Qed.

(** An index holds the register of the last entry that names it. *)
Lemma lookup_stores_last (es1 es2 : list (N * nat * float))
    (e : N * nat * float) (a : list Z) :
  (Spec.entry_index e < length a)%nat ->
  Forall (fun e' => Spec.entry_index e' <> Spec.entry_index e) es2 ->
  fold_left Spec.store (es1 ++ e :: es2) a !! Spec.entry_index e
  = Some (Z.of_N (Spec.entry_reg e)).
Proof.
  intros Hidx Hlater. rewrite fold_left_app. simpl.
  rewrite lookup_stores_other by exact Hlater.
  unfold Spec.store at 1. apply list_lookup_insert_eq.
  rewrite length_stores. exact Hidx.
Qed.

(** C3 (as amended): building the register LUT checks neither that the
    indices are contiguous nor that the decoded frequencies are
    monotonic.  Given a size declaration [n] followed by entries with
    any 16-bit registers at any indices below [n], in any order, with
    gaps or repeats: when [np.zeros(n)] returns its array the build
    succeeds, the table has [n] entries, an index that no entry names
    holds 0, and an index named by an entry holds the register of the
    last such entry; it fails, with IndexError, at the first entry whose
    index is not below [n].  When [np.zeros(n)] does not return, the
    build fails at the size declaration with the exception of
    [np.zeros], ValueError or MemoryError, whatever follows. *)
Theorem lut_build_unchecked {env : np.environment} (n : nat)
    (es : list (N * nat * float)) :
  Forall (Spec.in_table n) es ->
  (np.zeros_outcome n = np.allocated ->
   (exists t,
      P.init (Spec.size_line n :: map Spec.entry_line es) = Ok t /\
      P.lut_reg t = fold_left Spec.store es (replicate n 0) /\
      P.get_lut_size t = Z.of_nat n /\
      (forall i, (i < n)%nat ->
         Forall (fun e => Spec.entry_index e <> i) es ->
         P.lut_reg t !! i = Some 0) /\
      (forall es1 e es2, es = es1 ++ e :: es2 ->
         Forall (fun e' => Spec.entry_index e' <> Spec.entry_index e) es2 ->
         P.lut_reg t !! Spec.entry_index e = Some (Z.of_N (Spec.entry_reg e)))) /\
   (forall e rest, (n <= Spec.entry_index e)%nat ->
      P.init (Spec.size_line n :: map Spec.entry_line (es ++ e :: rest))
      = Raise IndexError)) /\
  (forall rest,
     (np.zeros_outcome n = np.too_large ->
      P.init (Spec.size_line n :: rest) = Raise ValueError) /\
     (np.zeros_outcome n = np.out_of_memory ->
      P.init (Spec.size_line n :: rest) = Raise MemoryError)).
Proof.
  intros Hall. split.
  - intros Hn. split.
    + assert (Hall' : Forall (Spec.in_table (length (replicate n 0))) es)
        by (rewrite length_replicate; exact Hall).
      destruct (loop_entries es (replicate n 0) 1 0 Hall') as (mn & mx & Hloop).
      exists (P.mk (fold_left Spec.store es (replicate n 0)) mn mx).
      split; [|split; [|split; [|split]]].
      * unfold P.init. cbn [P.loop]. rewrite (loop_body_size _ n Hn).
        cbn [mbind result_bind bind P.l_min_frac P.l_max_frac].
        rewrite Hloop. reflexivity.
      * reflexivity.
      * unfold P.get_lut_size. cbn [P.lut_reg].
        rewrite length_stores, length_replicate. reflexivity.
      * intros i Hi Hno. cbn [P.lut_reg].
        rewrite lookup_stores_other by exact Hno.
        apply lookup_replicate_2. exact Hi.
      * intros es1 e es2 -> Hlater. cbn [P.lut_reg].
        apply lookup_stores_last; [|exact Hlater].
        rewrite length_replicate.
        apply Forall_app in Hall as [_ Hall].
        apply Forall_cons in Hall as [[Hidx _] _]. exact Hidx.
    + intros e rest Hout.
      unfold P.init. cbn [P.loop]. rewrite (loop_body_size _ n Hn).
      cbn [mbind result_bind bind P.l_min_frac P.l_max_frac].
      rewrite loop_index_error; [reflexivity| |].
      * rewrite length_replicate. exact Hall.
      * rewrite length_replicate. exact Hout.
  - intros rest. split; intros Hn; unfold P.init; cbn [P.loop];
      unfold P.loop_body, np.zeros;
      cbn [Spec.size_line P.num_entries_match]; rewrite Hn; reflexivity.
Qed.

Section table_builds.
#[local] Existing Instance Demo.numpy_2.

Lemma lut_build_unchecked_witness :
  Forall (Spec.in_table 3)
    [(0x0001%N, 0%nat, 0.5%float); (0x0003%N, 2%nat, 0.25%float)] /\
  np.zeros_outcome 3 = np.allocated /\
  exists t,
    P.init Demo.header_gap = Ok t /\ P.lut_reg t = [0x0001; 0; 0x0003].
Proof.
  assert (Hall : Forall (Spec.in_table 3)
            [(0x0001%N, 0%nat, 0.5%float); (0x0003%N, 2%nat, 0.25%float)]).
  { repeat constructor; unfold Spec.entry_index, Spec.entry_reg; simpl; lia. }
  assert (Hn : np.zeros_outcome 3 = np.allocated) by reflexivity.
  split; [exact Hall|]. split; [exact Hn|].
  destruct (lut_build_unchecked 3 _ Hall) as [Hbuilt _].
  destruct (Hbuilt Hn) as [(t & Hinit & Hlut & _) _].
  exists t. split; [exact Hinit|]. rewrite Hlut. reflexivity.
Defined.

(** C3, counterexample: a header declaring 3 entries and supplying
    index 0 (fraction 1/2) and index 2 (fraction 1/4): the indices are
    not contiguous and the decoded frequency falls from index 0 to
    index 2, yet both the table and the mapper are built without
    error; index 1 is left holding 0. *)
Lemma lut_build_accepts_gap_and_decreasing_frequency :
  ~ Spec.contiguous [0; 2]%nat /\
  ~ Spec.monotonic Demo.pll [0x0001; 0; 0x0003] /\
  P.init Demo.header_gap = Ok (P.mk [0x0001; 0; 0x0003] 0.25 0.5) /\
  is_ok (E.init Demo.header_gap (PyInt 24000000) (PyInt 99) (PyInt 0)
           (PyInt 4) (PyInt 4) (PyInt 1) (PyInt 2) false) = true.
Proof.
  split; [|split; [|split]].
  - unfold Spec.contiguous. simpl. discriminate.
  - intros Hmono.
    specialize (Hmono 0%nat 2%nat 0x0001 0x0003 24120000%float 24060000%float).
    assert (H : (24120000 <=? 24060000)%float = true).
    { apply Hmono; try reflexivity; try lia; vm_compute; reflexivity. }
    vm_compute in H. discriminate.
  - vm_compute. reflexivity.
  - vm_compute. reflexivity.
Qed.

End table_builds.

(** ** Worked runs *)

(** The mapper on the five-entry table: error 0 selects the middle
    entry, 5 and -3 fall off either end. *)
Example mapper_runs :
  snd (E.get_output_freqency_from_error Demo.mapper (PyInt 0))
    = Ok (Some 24120000%float, 0) /\
  snd (E.get_output_freqency_from_error Demo.mapper (PyInt 5))
    = Ok (Some 24060000%float, -1) /\
  snd (E.get_output_freqency_from_error Demo.mapper (PyInt (-3)))
    = Ok (Some 24180000%float, 1) /\
  snd (E.get_output_freqency_from_error Demo.mapper (PyFloat nan))
    = Raise ValueError.
Proof. vm_compute. repeat split; reflexivity. Qed.

(** [int] truncates toward zero, where rounding would give 3 and -3 and
    [floor] would give -3 for the negative count. *)
Example int_truncates :
  int_of_float 2.75 = Ok 2 /\ int_of_float (-2.75) = Ok (-2) /\
  floor_of_float (-2.75) = Ok (-3) /\ int_of_float 3.5 = Ok 3.
Proof. vm_compute. repeat split; reflexivity. Qed.

Section worked_ticks.
#[local] Existing Instance Demo.numpy_2.

(** One tick of the controller of [run_sim]'s shape: a count one above
    the expected increment, fractional part dropped. *)
Example tick_runs :
  let r := C.do_control E.get_output_freqency_from_error
             Demo.ctrl Demo.mapper (PyFloat 131073.75) 1 in
  snd r = Ok (Some 24060000%float, 0) /\
  C.mclk_count_old (fst (fst r)) = 131073 /\
  C.error_accum (fst (fst r)) = 1%float /\
  C.error (fst (fst r)) = 2.5%float.
Proof. vm_compute. repeat split; reflexivity. Qed.

(** With both integral gains zero, three ticks each 8 counts fast: the
    integral terms stay at zero while the accumulators reach 24 and
    8 + 16 + 24 = 48. *)
Example zero_gain_accumulators_grow :
  let s := fst (C.run E.get_output_freqency_from_error
                  Demo.ctrl_zero_gains Demo.mapper
                  [(PyInt 131080, 1%float); (PyInt 262160, 1%float);
                   (PyInt 393240, 1%float)]) in
  C.error_accum s = 24%float /\ C.error_accum_accum s = 48%float /\
  C.error_i s = 0%float /\ C.error_ii s = 0%float /\ C.error s = 4%float.
Proof. vm_compute. repeat split; reflexivity. Qed.

(** The same tick on a controller constructed with [verbose=True]. *)
Example verbose_tick_runs :
  snd (C.do_control E.get_output_freqency_from_error
         Demo.ctrl_verbose Demo.mapper (PyFloat 131073.75) 1)
  = Raise AttributeError.
Proof. vm_compute. reflexivity. Qed.

End worked_ticks.

(** Where the two kinds of NumPy part: the sign of a zero that sits on
    both bounds of [np.clip], and a register above 65535. *)
Example numpy_kinds_differ :
  np.clip (env := Demo.numpy_1) (- 0) (- 0) 0 = 0%float /\
  np.clip (env := Demo.numpy_2) (- 0) (- 0) 0 = (- 0)%float /\
  P.setitem (env := Demo.numpy_1) [0; 0] 1 70000 = Ok [0; 4464] /\
  P.setitem (env := Demo.numpy_2) [0; 0] 1 70000 = Raise OverflowError.
Proof. vm_compute. repeat split; reflexivity. Qed.

Section nested_clip_runs.
#[local] Existing Instance Demo.numpy_1.

(** The runs of the anti-windup and zero-gain sections under the other
    kind of NumPy end the same way: the term pinned at the negative
    limit, the NaN term after an overflow in each direction, and the NaN
    term of a zero gain. *)
Example runs_under_nested_clip :
  C.error_i (fst (fst (C.do_control E.get_output_freqency_from_error
                         Demo.ctrl_negative_Ki Demo.mapper (PyInt 131080) 1)))
    = (-10)%float /\
  (let run := C.run E.get_output_freqency_from_error Demo.ctrl Demo.mapper
                [(PyInt 1073741824, 0x1p-1000%float)] in
   is_nan (C.error_i
             (fst (fst (C.do_control E.get_output_freqency_from_error
                          (fst run) (snd run) (PyInt 0) 0x1p-1000))))
   = true) /\
  is_nan (C.error_ii
            (fst (fst (C.do_control E.get_output_freqency_from_error
                         Demo.ctrl Demo.mapper (PyInt 1073741824) 0x1p-1000))))
    = true.
Proof. vm_compute. repeat split; reflexivity. Qed.

(** A size declaration beyond the largest array, on the demonstration
    machine: [np.zeros] raises ValueError and so does the build. *)
Example size_beyond_any_array (n : nat) (rest : list P.line) :
  (2 ^ 62 <= N.of_nat n)%N ->
  P.init (Spec.size_line n :: rest) = Raise ValueError.
Proof.
  intros Hn. unfold P.init. cbn [P.loop]. unfold P.loop_body, np.zeros.
  cbn [Spec.size_line P.num_entries_match np.zeros_outcome Demo.numpy_1].
  destruct (N.ltb_spec (N.of_nat n) (2 ^ 30)) as [H|H]; [lia|].
  destruct (N.ltb_spec (N.of_nat n) (2 ^ 62)) as [H'|H']; [lia|].
  reflexivity.
Qed.

End nested_clip_runs.

(** A tick that returns through the mapper had a finite total error. *)
Lemma returning_tick_total_finite {env : np.environment}
    (s : C.t) (self : E.t) (m : pyval)
    (pf : float) (r : option float * Z) :
  snd (C.do_control E.get_output_freqency_from_error s self m pf) = Ok r ->
  finite (C.error (fst (fst (C.do_control E.get_output_freqency_from_error
                               s self m pf)))) = true.
Proof.
  unfold C.do_control.
  destruct (C.count_increment s m pf) as [[z inc]|e]; [|discriminate].
  destruct (C.raw_error _ inc) as [err|e]; [|discriminate].
  change (C.verbose (C.store_error _ _)) with (C.verbose s).
  destruct (C.verbose s); [discriminate|].
  change (C.error (C.store_error _ ?t)) with t.
  set (total := C.total_error _ err).
  destruct (finite total) eqn:Hfin.
  - destruct (E.get_output_freqency_from_error self (PyFloat total)).
    intros _. simpl. exact Hfin.
  - unfold E.get_output_freqency_from_error. cbn [py_int].
    destruct (not_finite_int total Hfin) as [-> | ->]; discriminate.
Qed.

(** * Further properties of the code *)

(** ** The mapper across calls *)

Lemma calc_frequency_value_fixed (c c' : A.t) (f p : pyval) :
  Laws.same_fixed c c' ->
  A.calc_frequency_value (A.set_frac c' f p)
  = A.calc_frequency_value (A.set_frac c f p).
Proof.
  intros (Hi & HF & HR & HOD & HACD).
  unfold A.calc_frequency_value, A.intermediate_freq, A.acd_div.
  cbn [A.set_frac A.F A.R A.OD A.ACD A.f A.p A.input_frequency].
  rewrite Hi, HF, HR, HOD, HACD. reflexivity.
Qed.

Lemma update_pll_frac_fixed (c : A.t) (f p : pyval) :
  Laws.same_fixed c (fst (A.update_pll_frac c f p)).
Proof.
  unfold A.update_pll_frac, A.calc_frequency, Laws.same_fixed.
  destruct (A.calc_frequency_value _); cbn; repeat split; reflexivity.
Qed.

(** The mapper reads [error] through [int(error)] only. *)
Lemma mapper_py_int (self : E.t) (error : pyval) (err : Z) :
  py_int error = Ok err ->
  E.get_output_freqency_from_error self error
  = E.get_output_freqency_from_error self (PyInt err).
Proof.
  intros H. unfold E.get_output_freqency_from_error. rewrite H. reflexivity.
Qed.

(** What a call leaves behind: the same table, the same fixed fields. *)
Lemma mapper_keeps_table (self : E.t) (error : pyval) :
  E.table (fst (E.get_output_freqency_from_error self error)) = E.table self /\
  Laws.same_fixed (E.pll self)
    (E.pll (fst (E.get_output_freqency_from_error self error))).
Proof.
  assert (Hrefl : Laws.same_fixed (E.pll self) (E.pll self))
    by (unfold Laws.same_fixed; repeat split; reflexivity).
  unfold E.get_output_freqency_from_error.
  destruct (py_int error) as [err|e]; [|split; [reflexivity|exact Hrefl]].
  destruct (E.clamp _ _) as [sp st].
  destruct (np.getitem _ sp) as [r|e]; [|split; [reflexivity|exact Hrefl]].
  destruct (E.reg_to_frac r) as [f p].
  pose proof (update_pll_frac_fixed (E.pll self) (PyInt f) (PyInt p)) as Hfix.
  destruct (A.update_pll_frac (E.pll self) (PyInt f) (PyInt p)) as [pll' res].
  split; [reflexivity|exact Hfix].
Qed.

(** The outcome of a call is a function of the table, the fixed fields
    and the error. *)
Lemma mapper_result_ext (self self' : E.t) (error : pyval) :
  E.table self' = E.table self ->
  Laws.same_fixed (E.pll self) (E.pll self') ->
  snd (E.get_output_freqency_from_error self' error)
  = snd (E.get_output_freqency_from_error self error).
Proof.
  intros Htab Hfix. unfold E.get_output_freqency_from_error, E.get_lut.
  rewrite Htab.
  destruct (py_int error) as [err|e]; [|reflexivity].
  destruct (E.clamp _ _) as [sp st].
  destruct (np.getitem _ sp) as [r|e]; [|reflexivity].
  destruct (E.reg_to_frac r) as [f p].
  unfold A.update_pll_frac, A.calc_frequency.
  rewrite (calc_frequency_value_fixed (E.pll self) (E.pll self')) by exact Hfix.
  destruct (A.calc_frequency_value _) as [v|e]; reflexivity.
Qed.

(** X1: what a call of the mapper returns (a frequency and a status, or
    an exception) does not depend on the calls made before it, whether
    they returned or raised; and repeating a call with the same error
    leaves the object as the first call left it. *)
Theorem mapper_history_independent (self : E.t) (before error : pyval) :
  snd (E.get_output_freqency_from_error
         (fst (E.get_output_freqency_from_error self before)) error)
  = snd (E.get_output_freqency_from_error self error) /\
  fst (E.get_output_freqency_from_error
         (fst (E.get_output_freqency_from_error self error)) error)
  = fst (E.get_output_freqency_from_error self error).
Proof.
  split.
  - destruct (mapper_keeps_table self before) as [Htab Hfix].
    apply mapper_result_ext; assumption.
  - unfold E.get_output_freqency_from_error at 2 3.
    destruct (py_int error) as [err|e] eqn:Herr.
    2:{ cbn [fst]. unfold E.get_output_freqency_from_error. rewrite Herr.
        reflexivity. }
    destruct (E.clamp _ _) as [sp st] eqn:Hclamp.
    destruct (np.getitem _ sp) as [r|e] eqn:Hget.
    2:{ cbn [fst]. unfold E.get_output_freqency_from_error.
        rewrite Herr, Hclamp, Hget. reflexivity. }
    destruct (E.reg_to_frac r) as [f p] eqn:Hfp.
    unfold A.update_pll_frac, A.calc_frequency.
    destruct (A.calc_frequency_value (A.set_frac (E.pll self) (PyInt f) (PyInt p)))
      as [v|e] eqn:Hcalc; cbn [fst].
    + unfold E.get_output_freqency_from_error, E.get_lut.
      cbn [E.table E.pll]. fold (E.get_lut self).
      rewrite Herr, Hclamp, Hget, Hfp.
      unfold A.update_pll_frac, A.calc_frequency.
      change (A.calc_frequency_value
                (A.set_frac (A.set_output_frequency
                               (A.set_frac (E.pll self) (PyInt f) (PyInt p)) v)
                            (PyInt f) (PyInt p)))
        with (A.calc_frequency_value (A.set_frac (E.pll self) (PyInt f) (PyInt p))).
      rewrite Hcalc. reflexivity.
    + unfold E.get_output_freqency_from_error, E.get_lut.
      cbn [E.table E.pll]. fold (E.get_lut self).
      rewrite Herr, Hclamp, Hget, Hfp.
      unfold A.update_pll_frac, A.calc_frequency.
      change (A.calc_frequency_value
                (A.set_frac (A.set_frac (E.pll self) (PyInt f) (PyInt p))
                            (PyInt f) (PyInt p)))
        with (A.calc_frequency_value (A.set_frac (E.pll self) (PyInt f) (PyInt p))).
      rewrite Hcalc. reflexivity.
Qed.

(** ** The mapper at the edges of its table *)

Lemma getitem_empty (i : Z) : np.getitem [] i = Raise IndexError.
Proof.
  unfold np.getitem. change (Z.of_nat (length (@nil Z))) with 0.
  destruct (i <? 0).
  - destruct (Z.leb_spec 0 (i + 0)) as [H|H]; [|reflexivity].
    replace (i + 0 <? 0) with false by (symmetry; apply Z.ltb_ge; lia).
    reflexivity.
  - destruct (Z.leb_spec 0 i) as [H|H]; [|reflexivity].
    replace (i <? 0) with false by (symmetry; apply Z.ltb_ge; lia).
    reflexivity.
Qed.

(** X2: on an empty table every call of the mapper whose error has an
    integer value raises IndexError and changes nothing; [get_stats]
    raises IndexError too, while [plot_freq_range] has nothing to loop
    over and returns the empty list. *)
Theorem mapper_on_empty_table (self : E.t) (error : pyval) (err : Z) :
  E.get_lut self = [] ->
  py_int error = Ok err ->
  E.get_output_freqency_from_error self error = (self, Raise IndexError) /\
  E.get_stats self = (self, Raise IndexError) /\
  E.plot_freq_range self = (self, Ok []).
Proof.
  intros Hlut Herr. split; [|split].
  - unfold E.get_output_freqency_from_error. rewrite Herr, Hlut.
    destruct (E.clamp _ _) as [sp st]. rewrite getitem_empty. reflexivity.
  - unfold E.get_stats, E.frequency_at. rewrite Hlut, getitem_empty.
    reflexivity.
  - unfold E.plot_freq_range. rewrite Hlut. reflexivity.
Qed.

Lemma mapper_on_empty_table_witness :
  E.get_lut (E.mk Demo.pll (P.mk [] 1 0)) = [] /\
  py_int (PyFloat 2.5) = Ok 2 /\
  E.get_output_freqency_from_error (E.mk Demo.pll (P.mk [] 1 0)) (PyFloat 2.5)
  = (E.mk Demo.pll (P.mk [] 1 0), Raise IndexError).
Proof.
  assert (H1 : E.get_lut (E.mk Demo.pll (P.mk [] 1 0)) = []) by reflexivity.
  assert (H2 : py_int (PyFloat 2.5) = Ok 2) by (vm_compute; reflexivity).
  split; [exact H1|]. split; [exact H2|].
  apply (mapper_on_empty_table _ _ 2 H1 H2).
Defined.

(** A call that returns had a table to read, and its status is the one
    of the clamp. *)
Lemma mapper_Ok_inv (self : E.t) (error : pyval) (err : Z)
    (v : option float) (st : Z) :
  py_int error = Ok err ->
  snd (E.get_output_freqency_from_error self error) = Ok (v, st) ->
  E.get_lut self <> [] /\
  st = snd (E.clamp (Z.of_nat (length (E.get_lut self)))
                    (Z.of_nat (length (E.get_lut self)) / 2 - err)).
Proof.
  intros Herr Hres. split.
  - intros Hlut.
    unfold E.get_output_freqency_from_error in Hres.
    rewrite Herr, Hlut in Hres.
    destruct (E.clamp _ _) as [sp st']. rewrite getitem_empty in Hres.
    discriminate.
  - unfold E.get_output_freqency_from_error in Hres. rewrite Herr in Hres.
    destruct (E.clamp _ _) as [sp st'].
    destruct (np.getitem _ sp) as [r|e]; [|discriminate].
    destruct (E.reg_to_frac r) as [f p].
    destruct (A.update_pll_frac _ _ _) as [pll' [x|e]]; [|discriminate].
    cbn in Hres. injection Hres as _ <-. reflexivity.
Qed.

(** X3: the lock window.  When a call of the mapper on a table of [n]
    entries returns, the status is LOCKED exactly for the [n] errors
    [n//2 - n + 1 .. n//2], UNLOCKED LOW exactly for the errors above
    [n//2] and UNLOCKED HIGH exactly for those at or below [n//2 - n];
    it is always one of the three keys of [lock_status_lookup]. *)
Theorem lock_window (self : E.t) (error : pyval) (err : Z)
    (v : option float) (st : Z) :
  py_int error = Ok err ->
  snd (E.get_output_freqency_from_error self error) = Ok (v, st) ->
  let n := Z.of_nat (length (E.get_lut self)) in
  (st = 0 <-> n / 2 - n < err <= n / 2) /\
  (st = -1 <-> n / 2 < err) /\
  (st = 1 <-> err <= n / 2 - n) /\
  (C.lock_status_lookup st = Some "LOCKED"%string \/
   C.lock_status_lookup st = Some "UNLOCKED LOW"%string \/
   C.lock_status_lookup st = Some "UNLOCKED HIGH"%string).
Proof.
  intros Herr Hres n.
  destruct (mapper_Ok_inv self error err v st Herr Hres) as [_ Hst].
  fold n in Hst. unfold E.clamp in Hst.
  destruct (Z.ltb_spec (n / 2 - err) 0) as [H1|H1].
  - cbn in Hst. subst st. repeat split; try lia; try discriminate.
    right. left. reflexivity.
  - rewrite Z.geb_leb in Hst.
    destruct (Z.leb_spec n (n / 2 - err)) as [H2|H2]; cbn in Hst; subst st.
    + repeat split; try lia; try discriminate. right. right. reflexivity.
    + repeat split; try lia; try discriminate. left. reflexivity.
Qed.

Lemma lock_window_witness :
  py_int (PyInt (-2)) = Ok (-2) /\
  snd (E.get_output_freqency_from_error Demo.mapper (PyInt (-2)))
    = Ok (Some 24180000%float, 0) /\
  (0 = 0 <-> 5 / 2 - 5 < -2 <= 5 / 2).
Proof.
  assert (H1 : py_int (PyInt (-2)) = Ok (-2)) by reflexivity.
  assert (H2 : snd (E.get_output_freqency_from_error Demo.mapper (PyInt (-2)))
               = Ok (Some 24180000%float, 0)) by (vm_compute; reflexivity).
  split; [exact H1|]. split; [exact H2|].
  destruct (lock_window Demo.mapper (PyInt (-2)) (-2) _ 0 H1 H2) as [H _].
  exact H.
Defined.

(** ** Negative feedback *)

Lemma resolve_index_antitone (n e1 e2 : Z) :
  0 < n -> e1 <= e2 -> Spec.resolve_index n e2 <= Spec.resolve_index n e1.
Proof.
  intros Hn He. unfold Spec.resolve_index, Spec.set_point.
  destruct (Z.ltb_spec (n / 2 - e2) 0), (Z.ltb_spec (n / 2 - e1) 0);
    destruct (Z.leb_spec n (n / 2 - e2)), (Z.leb_spec n (n / 2 - e1)); lia.
Qed.

Lemma clamp_status_antitone (n e1 e2 : Z) :
  0 < n -> e1 <= e2 ->
  snd (E.clamp n (n / 2 - e2)) <= snd (E.clamp n (n / 2 - e1)).
Proof.
  intros Hn He. unfold E.clamp. rewrite !Z.geb_leb.
  destruct (Z.ltb_spec (n / 2 - e2) 0), (Z.ltb_spec (n / 2 - e1) 0);
    destruct (Z.leb_spec n (n / 2 - e2)), (Z.leb_spec n (n / 2 - e1));
    cbn; lia.
Qed.

(** What a returning call returns is the decoded frequency of the entry
    at the resolved index. *)
Lemma mapper_returns_decoded (self : E.t) (err : Z) (v : float) (st : Z) :
  snd (E.get_output_freqency_from_error self (PyInt err)) = Ok (Some v, st) ->
  let n := Z.of_nat (length (E.get_lut self)) in
  0 < n /\
  exists r,
    E.get_lut self !! Z.to_nat (Spec.resolve_index n err) = Some r /\
    0 <= Spec.resolve_index n err < n /\
    Spec.decoded_frequency (E.pll self) r = Ok v.
Proof.
  intros Hres n.
  destruct (mapper_Ok_inv self (PyInt err) err _ st eq_refl Hres) as [Hne _].
  destruct (mapper_unfold self (PyInt err) err eq_refl Hne)
    as (r & status & Hidx & Hlk & _ & Heq).
  cbv zeta in Heq. fold n in Hidx, Hlk. split; [lia|].
  exists r. split; [exact Hlk|]. split; [exact Hidx|].
  rewrite Heq in Hres. cbn [snd] in Hres. unfold Spec.decoded_frequency.
  destruct (A.calc_frequency_value _) as [w|e]; [|discriminate].
  cbn in Hres. injection Hres as -> _. reflexivity.
Qed.

(** X4: negative feedback.  A larger error never selects a higher
    index nor a higher lock status; so on a table whose decoded
    frequencies do not decrease with the index, a larger error never
    yields a higher frequency. *)
Theorem mapper_negative_feedback (self : E.t) (e1 e2 : Z)
    (v1 v2 : float) (st1 st2 : Z) :
  Spec.monotonic (E.pll self) (E.get_lut self) ->
  e1 <= e2 ->
  snd (E.get_output_freqency_from_error self (PyInt e1)) = Ok (Some v1, st1) ->
  snd (E.get_output_freqency_from_error self (PyInt e2)) = Ok (Some v2, st2) ->
  let n := Z.of_nat (length (E.get_lut self)) in
  Spec.resolve_index n e2 <= Spec.resolve_index n e1 /\
  st2 <= st1 /\
  (v2 <=? v1)%float = true.
Proof.
  intros Hmono He H1 H2 n.
  destruct (mapper_returns_decoded self e1 v1 st1 H1)
    as (Hn & r1 & Hlk1 & Hidx1 & Hf1).
  destruct (mapper_returns_decoded self e2 v2 st2 H2)
    as (_ & r2 & Hlk2 & Hidx2 & Hf2).
  fold n in Hn, Hlk1, Hidx1, Hlk2, Hidx2.
  pose proof (resolve_index_antitone n e1 e2 Hn He) as Hidx.
  split; [exact Hidx|]. split.
  - destruct (mapper_Ok_inv self (PyInt e1) e1 _ st1 eq_refl H1) as [_ ->].
    destruct (mapper_Ok_inv self (PyInt e2) e2 _ st2 eq_refl H2) as [_ ->].
    apply clamp_status_antitone; assumption.
  - apply (Hmono (Z.to_nat (Spec.resolve_index n e2))
                 (Z.to_nat (Spec.resolve_index n e1)) r2 r1 v2 v1);
      try assumption.
    lia.
Qed.

Lemma demo_table_monotonic :
  Spec.monotonic (E.pll Demo.mapper) (E.get_lut Demo.mapper).
Proof.
  intros i j ri rj vi vj Hij Hi Hj Hfi Hfj.
  cbn in Hi, Hj.
  destruct i as [|[|[|[|[|i]]]]]; cbn in Hi; try discriminate;
    injection Hi as <-;
    (destruct j as [|[|[|[|[|j]]]]]; cbn in Hj; try discriminate; try lia;
     injection Hj as <-;
     vm_compute in Hfi; vm_compute in Hfj;
     injection Hfi as <-; injection Hfj as <-; vm_compute; reflexivity).
Qed.

Lemma mapper_negative_feedback_witness :
  Spec.monotonic (E.pll Demo.mapper) (E.get_lut Demo.mapper) /\
  -1 <= 1 /\
  (24080000 <=? 24160000)%float = true.
Proof.
  assert (H1 : snd (E.get_output_freqency_from_error Demo.mapper (PyInt (-1)))
               = Ok (Some 24160000%float, 0)) by (vm_compute; reflexivity).
  assert (H2 : snd (E.get_output_freqency_from_error Demo.mapper (PyInt 1))
               = Ok (Some 24080000%float, 0)) by (vm_compute; reflexivity).
  assert (He : -1 <= 1) by lia.
  split; [exact demo_table_monotonic|]. split; [exact He|].
  destruct (mapper_negative_feedback Demo.mapper (-1) 1 _ _ 0 0
              demo_table_monotonic He H1 H2) as (_ & _ & H).
  exact H.
Defined.

(** ** Reading the transfer function: get_stats and plot_freq_range *)

(** Reading index [i] is what the mapper does for the error
    [n//2 - i], which it reports LOCKED. *)
Lemma frequency_at_mapper (self : E.t) (i : Z) :
  let n := Z.of_nat (length (E.get_lut self)) in
  0 <= i < n ->
  E.get_output_freqency_from_error self (PyInt (n / 2 - i))
  = (fst (E.frequency_at self i),
     v ← snd (E.frequency_at self i); Ok (v, 0)).
Proof.
  intros n Hi. unfold E.get_output_freqency_from_error, E.frequency_at.
  cbn [py_int]. fold n.
  replace (n / 2 - (n / 2 - i)) with i by lia.
  unfold E.clamp.
  replace (i <? 0) with false by (symmetry; apply Z.ltb_ge; lia).
  replace (i >=? n) with false by (rewrite Z.geb_leb; symmetry; apply Z.leb_gt; lia).
  destruct (np.getitem (E.get_lut self) i) as [r|e]; [|reflexivity].
  destruct (E.reg_to_frac r) as [f p].
  destruct (A.update_pll_frac _ _ _) as [pll' [x|e]]; reflexivity.
Qed.

Lemma frequency_at_last (self : E.t) :
  E.get_lut self <> [] ->
  E.frequency_at self (-1)
  = E.frequency_at self (Z.of_nat (length (E.get_lut self)) - 1).
Proof.
  intros Hne. unfold E.frequency_at.
  assert (Hn : 0 < Z.of_nat (length (E.get_lut self))).
  { destruct (E.get_lut self); [congruence|]. simpl length. lia. }
  replace (np.getitem (E.get_lut self) (-1))
    with (np.getitem (E.get_lut self) (Z.of_nat (length (E.get_lut self)) - 1));
    [reflexivity|].
  unfold np.getitem. cbn [Z.ltb Z.compare].
  set (n := Z.of_nat (length (E.get_lut self))) in *.
  replace (n - 1 <? 0) with false by (symmetry; apply Z.ltb_ge; lia).
  replace (-1 + n) with (n - 1) by lia. reflexivity.
Qed.

Lemma frequency_at_result_ext (self self' : E.t) (i : Z) :
  E.table self' = E.table self ->
  Laws.same_fixed (E.pll self) (E.pll self') ->
  snd (E.frequency_at self' i) = snd (E.frequency_at self i).
Proof.
  intros Htab Hfix. unfold E.frequency_at, E.get_lut. rewrite Htab.
  destruct (np.getitem _ i) as [r|e]; [|reflexivity].
  destruct (E.reg_to_frac r) as [f p].
  unfold A.update_pll_frac, A.calc_frequency.
  rewrite (calc_frequency_value_fixed (E.pll self) (E.pll self')) by exact Hfix.
  destruct (A.calc_frequency_value _) as [v|e]; reflexivity.
Qed.

Lemma same_fixed_trans (a b c : A.t) :
  Laws.same_fixed a b -> Laws.same_fixed b c -> Laws.same_fixed a c.
Proof.
  unfold Laws.same_fixed.
  intros (H1 & H2 & H3 & H4 & H5) (K1 & K2 & K3 & K4 & K5).
  repeat split; congruence.
Qed.

(** On a valid mapper every index of the table can be read. *)
Lemma frequency_at_valid (self : E.t) (i : Z) :
  Spec.valid_mapper self ->
  0 <= i < Z.of_nat (length (E.get_lut self)) ->
  exists r v,
    E.get_lut self !! Z.to_nat i = Some r /\
    Spec.decoded_frequency (E.pll self) r = Ok v /\
    snd (E.frequency_at self i) = Ok (Some v) /\
    Spec.valid_mapper (fst (E.frequency_at self i)) /\
    E.table (fst (E.frequency_at self i)) = E.table self /\
    Laws.same_fixed (E.pll self) (E.pll (fst (E.frequency_at self i))).
Proof.
  intros (Hne & [v0 Hv0] & Hentries) Hi.
  destruct (getitem_in_range (E.get_lut self) i Hi) as (r & Hlk & Hget).
  pose proof (list_elem_of_lookup_2 _ _ _ Hlk) as Hin.
  destruct (Hentries r Hin) as [Hreg Hfp].
  destruct (valid_entry_bytes r Hreg) as [Hf0 Hp53].
  destruct (calc_frequency_value_set_frac (E.pll self) v0 _ _ Hv0 Hf0 Hfp Hp53)
    as [v Hv].
  exists r, v. split; [exact Hlk|]. split; [exact Hv|].
  unfold E.frequency_at. rewrite Hget.
  destruct (E.reg_to_frac r) as [f p] eqn:Hfpr. cbn [fst snd] in Hv.
  unfold A.update_pll_frac, A.calc_frequency. rewrite Hv.
  cbn [fst snd mbind result_bind bind A.get_output_freqency
       A.set_output_frequency A.output_frequency E.table E.pll].
  split; [reflexivity|]. split; [|split; [reflexivity|]].
  - unfold Spec.valid_mapper. cbn [E.get_lut E.table E.pll].
    split; [exact Hne|]. split; [|exact Hentries].
    exists v. exact Hv.
  - unfold Laws.same_fixed. cbn. repeat split; reflexivity.
Qed.

(** X5: on a valid mapper [get_stats] returns the table size and the
    frequencies of the first, the middle and the last entry, which are
    the frequencies the mapper returns, LOCKED, for the errors [n//2],
    [0] and [n//2 - n + 1]; on a monotonic table they are in order, so
    that the first and last are the minimum and the maximum. *)
Theorem get_stats_reads_first_middle_last (self : E.t) :
  Spec.valid_mapper self ->
  let n := Z.of_nat (length (E.get_lut self)) in
  exists vmin vmid vmax,
    snd (E.get_stats self) = Ok (Some vmin, Some vmid, Some vmax, n) /\
    snd (E.get_output_freqency_from_error self (PyInt (n / 2)))
      = Ok (Some vmin, 0) /\
    snd (E.get_output_freqency_from_error self (PyInt 0))
      = Ok (Some vmid, 0) /\
    snd (E.get_output_freqency_from_error self (PyInt (n / 2 - n + 1)))
      = Ok (Some vmax, 0) /\
    Spec.valid_mapper (fst (E.get_stats self)) /\
    (Spec.monotonic (E.pll self) (E.get_lut self) ->
     (vmin <=? vmid)%float = true /\ (vmid <=? vmax)%float = true).
Proof.
  intros Hvalid n.
  assert (Hn : 0 < n).
  { destruct Hvalid as [Hne _]. subst n.
    destruct (E.get_lut self); [congruence|]. simpl length. lia. }
  assert (Hmid : 0 <= n / 2 < n).
  { split; [apply Z.div_pos; lia|apply Z.div_lt_upper_bound; lia]. }
  destruct (frequency_at_valid self 0 Hvalid ltac:(fold n; lia))
    as (r0 & v0 & Hlk0 & Hd0 & Hr0 & Hvalid1 & Htab1 & Hfix1).
  set (self1 := fst (E.frequency_at self 0)) in *.
  assert (Hlut1 : E.get_lut self1 = E.get_lut self)
    by (unfold E.get_lut; rewrite Htab1; reflexivity).
  destruct (frequency_at_valid self1 (n / 2) Hvalid1
              ltac:(rewrite Hlut1; fold n; lia))
    as (r1 & v1 & Hlk1 & Hd1 & Hr1 & Hvalid2 & Htab2 & Hfix2).
  set (self2 := fst (E.frequency_at self1 (n / 2))) in *.
  assert (Hlut2 : E.get_lut self2 = E.get_lut self)
    by (unfold E.get_lut; rewrite Htab2, Htab1; reflexivity).
  destruct (frequency_at_valid self2 (n - 1) Hvalid2
              ltac:(rewrite Hlut2; fold n; lia))
    as (r2 & v2 & Hlk2 & Hd2 & Hr2 & Hvalid3 & Htab3 & Hfix3).
  assert (Hlast : E.frequency_at self2 (-1) = E.frequency_at self2 (n - 1)).
  { rewrite frequency_at_last by (destruct Hvalid2 as [H _]; exact H).
    rewrite Hlut2. reflexivity. }
  exists v0, v1, v2.
  assert (Hstats : E.get_stats self
                   = (fst (E.frequency_at self2 (n - 1)),
                      Ok (Some v0, Some v1, Some v2, n))).
  { unfold E.get_stats. fold n.
    destruct (E.frequency_at self 0) as [s1 q1] eqn:E1.
    cbn [fst snd] in *. subst q1. subst self1.
    destruct (E.frequency_at s1 (n / 2)) as [s2 q2] eqn:E2.
    cbn [fst snd] in *. subst q2. subst self2.
    rewrite Hlast.
    destruct (E.frequency_at s2 (n - 1)) as [s3 q3] eqn:E3.
    cbn [fst snd] in *. subst q3. reflexivity. }
  rewrite Hstats. cbn [fst snd].
  pose proof (same_fixed_trans _ _ _ Hfix1 Hfix2) as Hfix12.
  split; [reflexivity|]. split; [|split; [|split; [|split]]].
  - pose proof (frequency_at_mapper self 0 ltac:(fold n; lia)) as H.
    fold n in H. replace (n / 2 - 0) with (n / 2) in H by lia.
    rewrite H. cbn [snd]. fold self1. rewrite Hr0. reflexivity.
  - pose proof (frequency_at_mapper self (n / 2) ltac:(fold n; lia)) as H.
    fold n in H. replace (n / 2 - n / 2) with 0 in H by lia.
    rewrite H. cbn [snd].
    rewrite <- (frequency_at_result_ext self self1 (n / 2) Htab1 Hfix1).
    rewrite Hr1. reflexivity.
  - pose proof (frequency_at_mapper self (n - 1) ltac:(fold n; lia)) as H.
    fold n in H. replace (n / 2 - (n - 1)) with (n / 2 - n + 1) in H by lia.
    rewrite H. cbn [snd].
    rewrite <- (frequency_at_result_ext self self2 (n - 1));
      [rewrite Hr2; reflexivity| |exact Hfix12].
    rewrite Htab2. exact Htab1.
  - exact Hvalid3.
  - intros Hmono.
    rewrite Hlut1 in Hlk1. rewrite Hlut2 in Hlk2.
    assert (Hd1' : Spec.decoded_frequency (E.pll self) r1 = Ok v1).
    { unfold Spec.decoded_frequency in *.
      rewrite <- (calc_frequency_value_fixed (E.pll self) (E.pll self1)) by exact Hfix1.
      exact Hd1. }
    assert (Hd2' : Spec.decoded_frequency (E.pll self) r2 = Ok v2).
    { unfold Spec.decoded_frequency in *.
      rewrite <- (calc_frequency_value_fixed (E.pll self) (E.pll self2)) by exact Hfix12.
      exact Hd2. }
    split.
    + apply (Hmono (Z.to_nat 0) (Z.to_nat (n / 2)) r0 r1 v0 v1);
        try assumption. lia.
    + apply (Hmono (Z.to_nat (n / 2)) (Z.to_nat (n - 1)) r1 r2 v1 v2);
        try assumption.
      assert (n / 2 <= n - 1) by lia. lia.
Qed.

Lemma get_stats_reads_first_middle_last_witness :
  Spec.valid_mapper Demo.mapper /\
  Spec.valid_mapper (fst (E.get_stats Demo.mapper)).
Proof.
  split; [exact demo_mapper_valid|].
  destruct (get_stats_reads_first_middle_last Demo.mapper demo_mapper_valid)
    as (vmin & vmid & vmax & _ & _ & _ & _ & H & _).
  exact H.
Defined.

Lemma freq_range_loop_valid (self : E.t) (steps : list nat) :
  forall (self' : E.t) (acc : list (option float)),
    Spec.valid_mapper self' ->
    E.table self' = E.table self ->
    Laws.same_fixed (E.pll self) (E.pll self') ->
    Forall (fun step => (step < length (E.get_lut self))%nat) steps ->
    exists fs,
      snd (E.freq_range_loop self' steps acc) = Ok (acc ++ fs) /\
      length fs = length steps /\
      Spec.valid_mapper (fst (E.freq_range_loop self' steps acc)) /\
      forall (k step : nat), steps !! k = Some step ->
        exists r v,
          E.get_lut self !! step = Some r /\
          Spec.decoded_frequency (E.pll self) r = Ok v /\
          fs !! k = Some (Some v).
Proof.
  induction steps as [|step rest IH]; intros self' acc Hvalid Htab Hfix Hall.
  - exists []. cbn. rewrite app_nil_r.
    split; [reflexivity|]. split; [reflexivity|]. split; [exact Hvalid|].
    intros k st Hk. rewrite lookup_nil in Hk. discriminate.
  - apply Forall_cons in Hall as [Hstep Hall].
    assert (Hlut : E.get_lut self' = E.get_lut self)
      by (unfold E.get_lut; rewrite Htab; reflexivity).
    destruct (frequency_at_valid self' (Z.of_nat step) Hvalid
                ltac:(rewrite Hlut; lia))
      as (r & v & Hlk & Hd & Hres & Hvalid' & Htab' & Hfix').
    rewrite Nat2Z.id, Hlut in Hlk.
    assert (Hd' : Spec.decoded_frequency (E.pll self) r = Ok v).
    { unfold Spec.decoded_frequency in *.
      rewrite <- (calc_frequency_value_fixed (E.pll self) (E.pll self')) by exact Hfix.
      exact Hd. }
    cbn [E.freq_range_loop].
    destruct (E.frequency_at self' (Z.of_nat step)) as [s1 q1] eqn:E1.
    cbn [fst snd] in *. subst q1.
    destruct (IH s1 (acc ++ [Some v]) Hvalid'
                ltac:(rewrite Htab'; exact Htab)
                (same_fixed_trans _ _ _ Hfix Hfix') Hall)
      as (fs & Hloop & Hlen & Hvalid'' & Hat).
    exists (Some v :: fs).
    split; [rewrite Hloop, <- app_assoc; reflexivity|].
    split; [cbn; rewrite Hlen; reflexivity|].
    split; [exact Hvalid''|].
    intros k st Hk. destruct k as [|k].
    + cbn in Hk. injection Hk as <-. exists r, v.
      split; [exact Hlk|]. split; [exact Hd'|reflexivity].
    + cbn in Hk. apply (Hat k st Hk).
Qed.

(** X6: on a valid mapper of [n] entries the list that
    [plot_freq_range] plots has [n] elements, and its element [i] is
    the frequency the mapper returns, LOCKED, for the error
    [n//2 - i]: the plot is the transfer function of the mapper over
    its whole lock window. *)
Theorem plot_freq_range_is_transfer_function (self : E.t) :
  Spec.valid_mapper self ->
  let n := length (E.get_lut self) in
  exists frequencies,
    snd (E.plot_freq_range self) = Ok frequencies /\
    length frequencies = n /\
    Spec.valid_mapper (fst (E.plot_freq_range self)) /\
    forall i : nat, (i < n)%nat ->
      exists v,
        frequencies !! i = Some (Some v) /\
        snd (E.get_output_freqency_from_error self
               (PyInt (Z.of_nat n / 2 - Z.of_nat i)))
        = Ok (Some v, 0).
Proof.
  intros Hvalid n.
  assert (Hrefl : Laws.same_fixed (E.pll self) (E.pll self))
    by (unfold Laws.same_fixed; repeat split; reflexivity).
  assert (Hall : Forall (fun step => (step < length (E.get_lut self))%nat)
                   (seq 0 n)).
  { apply Forall_forall. intros x Hx. apply list_elem_of_In, in_seq in Hx.
    fold n. lia. }
  destruct (freq_range_loop_valid self (seq 0 n) self [] Hvalid eq_refl Hrefl Hall)
    as (fs & Hloop & Hlen & Hvalid' & Hat).
  exists fs. unfold E.plot_freq_range. fold n.
  split; [exact Hloop|]. split; [rewrite Hlen; apply length_seq|].
  split; [exact Hvalid'|].
  intros i Hi.
  destruct (Hat i i) as (r & v & Hlk & Hd & Hfs).
  { apply lookup_seq_lt. exact Hi. }
  exists v. split; [exact Hfs|].
  pose proof (frequency_at_mapper self (Z.of_nat i) ltac:(fold n; lia)) as H.
  fold n in H. rewrite H. cbn [snd].
  destruct (frequency_at_valid self (Z.of_nat i) Hvalid ltac:(fold n; lia))
    as (r' & v' & Hlk' & Hd' & Hres & _).
  rewrite Nat2Z.id in Hlk'.
  assert (r' = r) by congruence. subst r'.
  assert (v' = v) by congruence. subst v'.
  rewrite Hres. reflexivity.
Qed.

Lemma plot_freq_range_is_transfer_function_witness :
  Spec.valid_mapper Demo.mapper /\
  exists frequencies,
    snd (E.plot_freq_range Demo.mapper) = Ok frequencies /\
    length frequencies = 5%nat.
Proof.
  split; [exact demo_mapper_valid|].
  destruct (plot_freq_range_is_transfer_function Demo.mapper demo_mapper_valid)
    as (fs & H1 & H2 & _).
  exists fs. split; [exact H1|exact H2].
Defined.

(** ** Packing and decoding registers *)

(** X7: decoding inverts packing: for bytes [f] and [p],
    [reg_to_frac((f << 8) | p)] is [(f, p)], and the packed value is a
    16-bit register.  On any integer whatever, [reg_to_frac] returns
    two bytes and reads the low 16 bits only. *)
Theorem decode_inverts_pack (f p : Z) :
  0 <= f < 2 ^ 8 -> 0 <= p < 2 ^ 8 ->
  E.reg_to_frac (Spec.pack (f, p)) = (f, p) /\
  0 <= Spec.pack (f, p) < 2 ^ 16 /\
  (forall r : Z,
     0 <= fst (E.reg_to_frac r) < 2 ^ 8 /\
     0 <= snd (E.reg_to_frac r) < 2 ^ 8 /\
     E.reg_to_frac (r mod 2 ^ 16) = E.reg_to_frac r).
Proof.
  intros Hf Hp.
  assert (Hpack : Spec.pack (f, p) = f * 2 ^ 8 + p).
  { unfold Spec.pack. cbn [fst snd].
    rewrite <- Z.lxor_lor, <- Z.add_nocarry_lxor, Z.shiftl_mul_pow2; try lia.
    - apply Z.bits_inj'. intros n Hn.
      rewrite Z.land_spec, Z.bits_0.
      destruct (Z.ltb_spec n 8) as [H|H].
      + rewrite Z.shiftl_spec_low by lia. reflexivity.
      + rewrite (Z.bits_above_log2 p n); [apply andb_false_r|lia|].
        destruct (Z.eq_dec p 0) as [->|Hnz]; [simpl; lia|].
        assert (Z.log2 p < 8) by (apply Z.log2_lt_pow2; lia). lia.
    - apply Z.bits_inj'. intros n Hn.
      rewrite Z.land_spec, Z.bits_0.
      destruct (Z.ltb_spec n 8) as [H|H].
      + rewrite Z.shiftl_spec_low by lia. reflexivity.
      + rewrite (Z.bits_above_log2 p n); [apply andb_false_r|lia|].
        destruct (Z.eq_dec p 0) as [->|Hnz]; [simpl; lia|].
        assert (Z.log2 p < 8) by (apply Z.log2_lt_pow2; lia). lia. }
  split; [|split].
  - unfold E.reg_to_frac. rewrite high_byte_general, Hpack.
    change 0xff with (Z.ones 8).
    rewrite !Z.land_ones, Z.shiftr_div_pow2 by lia.
    f_equal.
    + rewrite Z.div_add_l by lia. rewrite (Z.div_small p) by lia.
      rewrite Z.add_0_r. apply Z.mod_small. lia.
    + rewrite Z.add_comm, Z.mod_add by lia. apply Z.mod_small. lia.
  - rewrite Hpack. lia.
  - intros r.
    assert (Hm : forall m, 0 <= m < 2 ^ 16 ->
                 Z.land (r mod 2 ^ 16) m = Z.land r m).
    { intros m Hm.
      rewrite <- (Z.land_ones r 16), <- Z.land_assoc by lia.
      rewrite (Z.land_comm (Z.ones 16) m), Z.land_ones by lia.
      rewrite (Z.mod_small m) by lia. reflexivity. }
    unfold E.reg_to_frac. cbn [fst snd].
    rewrite !Hm by (simpl; lia).
    rewrite !high_byte_general. change 0xff with (Z.ones 8).
    rewrite !Z.land_ones by lia.
    split; [apply Z.mod_pos_bound; lia|].
    split; [apply Z.mod_pos_bound; lia|].
    reflexivity.
Qed.

Lemma decode_inverts_pack_witness :
  0 <= 1 < 2 ^ 8 /\ 0 <= 2 < 2 ^ 8 /\
  E.reg_to_frac (Spec.pack (1, 2)) = (1, 2).
Proof.
  assert (H1 : 0 <= 1 < 2 ^ 8) by lia.
  assert (H2 : 0 <= 2 < 2 ^ 8) by lia.
  split; [exact H1|]. split; [exact H2|].
  apply (decode_inverts_pack 1 2 H1 H2).
Defined.

(** ** The exceptions of the frequency model *)

Lemma bind_Raise_inv {X Y : Type} (m : result X) (k : X -> result Y) (e : exn) :
  m ≫= k = Raise e -> m = Raise e \/ exists x, m = Ok x /\ k x = Raise e.
Proof.
  destruct m as [x|e']; simpl; intros H.
  - right. exists x. split; [reflexivity|exact H].
  - left. injection H as <-. reflexivity.
Qed.

Lemma assert_Raise_inv {Y : Type} (b : bool) (msg : string) (k : result Y) (e : exn) :
  (assert b msg;; k) = Raise e -> e = AssertionError msg \/ k = Raise e.
Proof.
  destruct b; simpl; intros H.
  - right. exact H.
  - left. injection H as <-. reflexivity.
Qed.

Lemma to_float_exn (v : pyval) (e : exn) :
  to_float v = Raise e -> e = OverflowError.
Proof.
  destruct v as [z|x]; simpl; [|discriminate].
  unfold float_of_Z. destruct (is_infinity _); [|discriminate].
  intros H. injection H as <-. reflexivity.
Qed.

Lemma add_1_0_exn (v : pyval) (e : exn) :
  A.add_1_0 v = Raise e -> e = OverflowError.
Proof.
  unfold A.add_1_0. intros H.
  apply bind_Raise_inv in H as [H|(x & _ & H)]; [|discriminate].
  apply to_float_exn in H. exact H.
Qed.

Lemma mul_float_exn (v : pyval) (y : float) (e : exn) :
  A.mul_float v y = Raise e -> e = OverflowError.
Proof.
  unfold A.mul_float. intros H.
  apply bind_Raise_inv in H as [H|(x & _ & H)]; [|discriminate].
  apply to_float_exn in H. exact H.
Qed.

Lemma float_div_exn (x y : float) (e : exn) :
  float_div x y = Raise e -> e = ZeroDivisionError.
Proof.
  unfold float_div. destruct (y =? 0)%float; [|discriminate].
  intros H. injection H as <-. reflexivity.
Qed.

Lemma int_truediv_exn (a b : Z) (e : exn) :
  int_truediv a b = Raise e -> e = ZeroDivisionError \/ e = OverflowError.
Proof.
  unfold int_truediv. destruct (b =? 0).
  - intros H. injection H as <-. left. reflexivity.
  - destruct (small_int a && small_int b); [discriminate|].
    destruct (SFdiv _ _ _ _); try discriminate.
    intros H. injection H as <-. right. reflexivity.
Qed.

Ltac calc_exn_closed :=
  unfold Laws.calc_exn;
  first
    [ left; reflexivity
    | right; left; reflexivity
    | right; right; eexists; split; [reflexivity|];
      cbn [List.In Laws.assertion_messages];
      repeat (first [left; reflexivity | right]) ].

Lemma intermediate_freq_exn (c : A.t) (e : exn) :
  A.intermediate_freq c = Raise e -> Laws.calc_exn e.
Proof.
  unfold A.intermediate_freq. intros H.
  apply bind_Raise_inv in H as [H|(a & _ & H)];
    [apply add_1_0_exn in H; subst e; calc_exn_closed|].
  apply bind_Raise_inv in H as [H|(b & _ & H)];
    [apply mul_float_exn in H; subst e; calc_exn_closed|].
  apply bind_Raise_inv in H as [H|(c0 & _ & H)];
    [apply float_div_exn in H; subst e; calc_exn_closed|].
  apply bind_Raise_inv in H as [H|(d & _ & H)];
    [apply add_1_0_exn in H; subst e; calc_exn_closed|].
  apply float_div_exn in H. subst e. calc_exn_closed.
Qed.

Lemma calc_frequency_value_exn (c : A.t) (e : exn) :
  A.calc_frequency_value c = Raise e -> Laws.calc_exn e.
Proof.
  unfold A.calc_frequency_value. intros H.
  do 6 (apply assert_Raise_inv in H as [->|H]; [calc_exn_closed|]).
  apply bind_Raise_inv in H as [H|(vco & _ & H)];
    [apply intermediate_freq_exn in H; exact H|].
  do 3 (apply assert_Raise_inv in H as [->|H]; [calc_exn_closed|]).
  destruct (A.f c) as [fz|]; destruct (A.p c) as [pz|];
    try (injection H as <-; calc_exn_closed).
  apply assert_Raise_inv in H as [->|H]; [calc_exn_closed|].
  apply bind_Raise_inv in H as [H|(a & _ & H)];
    [apply add_1_0_exn in H; subst e; calc_exn_closed|].
  apply bind_Raise_inv in H as [H|(q & _ & H)].
  { apply int_truediv_exn in H as [->| ->]; calc_exn_closed. }
  apply bind_Raise_inv in H as [H|(b & _ & H)];
    [apply mul_float_exn in H; subst e; calc_exn_closed|].
  apply bind_Raise_inv in H as [H|(c0 & _ & H)];
    [apply float_div_exn in H; subst e; calc_exn_closed|].
  apply bind_Raise_inv in H as [H|(d & _ & H)];
    [apply add_1_0_exn in H; subst e; calc_exn_closed|].
  apply bind_Raise_inv in H as [H|(e0 & _ & H)];
    [apply float_div_exn in H; subst e; calc_exn_closed|].
  apply bind_Raise_inv in H as [H|(g & _ & H)];
    [apply add_1_0_exn in H; subst e; calc_exn_closed|].
  apply bind_Raise_inv in H as [H|(h & _ & H)];
    [apply float_div_exn in H; subst e; calc_exn_closed|].
  apply bind_Raise_inv in H as [H|(k & _ & H)];
    [apply mul_float_exn in H; subst e; calc_exn_closed|].
  apply float_div_exn in H. subst e. calc_exn_closed.
Qed.

(** X8: the frequency model raises nothing but a failed assertion with
    one of its ten messages, ZeroDivisionError or OverflowError, through
    any of its entry points.  When [calc_frequency] raises the object is
    as it was; when [update_pll_frac] or [update_pll_all] raises, the
    new fields are already stored and the cached output frequency is
    the old one; when the constructor raises there is no object. *)
Theorem frequency_model_exceptions (c : A.t) (F R OD ACD f p : pyval) (e : exn) :
  (snd (A.calc_frequency c) = Raise e ->
   Laws.calc_exn e /\ fst (A.calc_frequency c) = c) /\
  (snd (A.update_pll_frac c f p) = Raise e ->
   Laws.calc_exn e /\
   fst (A.update_pll_frac c f p) = A.set_frac c f p /\
   A.get_output_freqency (fst (A.update_pll_frac c f p))
   = A.get_output_freqency c) /\
  (snd (A.update_pll_all c F R OD ACD f p) = Raise e ->
   Laws.calc_exn e /\
   fst (A.update_pll_all c F R OD ACD f p)
   = A.mk (A.input_frequency c) F R OD ACD f p (A.output_frequency c)
          (A.lock_status_state c) (A.verbose c)) /\
  (forall vb, A.init (A.input_frequency c) F R OD ACD f p vb = Raise e ->
              Laws.calc_exn e).
Proof.
  split; [|split; [|split]].
  - unfold A.calc_frequency.
    destruct (A.calc_frequency_value c) as [v|e'] eqn:Hc; [discriminate|].
    cbn [fst snd]. intros H. injection H as ->.
    split; [exact (calc_frequency_value_exn c e Hc)|reflexivity].
  - unfold A.update_pll_frac, A.calc_frequency.
    destruct (A.calc_frequency_value (A.set_frac c f p)) as [v|e'] eqn:Hc;
      [discriminate|].
    cbn [fst snd]. intros H. injection H as ->.
    split; [exact (calc_frequency_value_exn _ e Hc)|].
    split; reflexivity.
  - unfold A.update_pll_all, A.calc_frequency.
    destruct (A.calc_frequency_value _) as [v|e'] eqn:Hc; [discriminate|].
    cbn [fst snd]. intros H. injection H as ->.
    split; [exact (calc_frequency_value_exn _ e Hc)|reflexivity].
  - intros vb. unfold A.init, A.calc_frequency.
    destruct (A.calc_frequency_value _) as [v|e'] eqn:Hc; [discriminate|].
    intros H. injection H as ->.
    exact (calc_frequency_value_exn _ e Hc).
Qed.

(** ** The exceptions of the mapper *)

Lemma py_int_exn (v : pyval) (e : exn) :
  py_int v = Raise e -> e = ValueError \/ e = OverflowError.
Proof.
  destruct v as [z|x]; simpl; [discriminate|].
  unfold int_of_float, trunc_SF.
  destruct (Prim2SF x); try discriminate; intros H; injection H as <-;
    [right|left]; reflexivity.
Qed.

(** X9: where an exception of the mapper comes from.  A call raises
    either in [int(error)] (ValueError for NaN, OverflowError for an
    infinity), or in the table read (IndexError, exactly when the table
    is empty), or in the frequency model on the decoded entry, with one
    of the model's own exceptions.  In the first two cases the object is
    untouched; in the third the decoded pair is already stored while the
    cached frequency is the old one. *)
Theorem mapper_exceptions (self : E.t) (error : pyval) (e : exn) :
  snd (E.get_output_freqency_from_error self error) = Raise e ->
  let n := Z.of_nat (length (E.get_lut self)) in
  let self' := fst (E.get_output_freqency_from_error self error) in
  (py_int error = Raise e /\ (e = ValueError \/ e = OverflowError) /\
   self' = self) \/
  (exists err, py_int error = Ok err /\ E.get_lut self = [] /\
               e = IndexError /\ self' = self) \/
  (exists err r,
     py_int error = Ok err /\
     E.get_lut self !! Z.to_nat (Spec.resolve_index n err) = Some r /\
     Laws.calc_exn e /\
     self' = E.mk (A.set_frac (E.pll self) (PyInt (fst (E.reg_to_frac r)))
                              (PyInt (snd (E.reg_to_frac r))))
                  (E.table self) /\
     A.get_output_freqency (E.pll self') = A.get_output_freqency (E.pll self)).
Proof.
  intros Hres n self'.
  destruct (py_int error) as [err|e0] eqn:Herr.
  2:{ left. subst self'. unfold E.get_output_freqency_from_error in *.
      rewrite Herr in *. cbn [fst snd] in *. injection Hres as ->.
      split; [reflexivity|]. split; [exact (py_int_exn _ _ Herr)|reflexivity]. }
  right.
  destruct (E.get_lut self) as [|r0 rest] eqn:Hlut.
  - left. exists err. subst self'.
    unfold E.get_output_freqency_from_error in *. rewrite Herr, Hlut in *.
    destruct (E.clamp _ _) as [sp st]. rewrite getitem_empty in *.
    cbn [fst snd] in *. injection Hres as <-.
    repeat split; reflexivity.
  - right.
    assert (Hne : E.get_lut self <> []) by (rewrite Hlut; discriminate).
    destruct (mapper_unfold self error err Herr Hne)
      as (register & status & _ & Hlk & _ & Heq).
    cbv zeta in Heq. rewrite Hlut in Hlk.
    exists err, register. split; [reflexivity|].
    split; [exact Hlk|].
    subst self'. rewrite Heq in *. unfold A.calc_frequency in *.
    destruct (A.calc_frequency_value _) as [v|e'] eqn:Hc;
      cbn [fst snd mbind result_bind bind] in *; [discriminate|].
    injection Hres as ->.
    split; [exact (calc_frequency_value_exn _ e Hc)|].
    split; reflexivity.
Qed.

Lemma mapper_exceptions_witness :
  snd (E.get_output_freqency_from_error Demo.mapper (PyFloat infinity))
    = Raise OverflowError /\
  (py_int (PyFloat infinity) = Raise OverflowError \/
   Laws.calc_exn OverflowError).
Proof.
  assert (H : snd (E.get_output_freqency_from_error Demo.mapper (PyFloat infinity))
              = Raise OverflowError) by (vm_compute; reflexivity).
  split; [exact H|].
  destruct (mapper_exceptions Demo.mapper (PyFloat infinity) OverflowError H)
    as [(H1 & _)|[(err & H1 & _)|(err & r & _ & _ & H1 & _)]].
  - left. exact H1.
  - vm_compute in H1. discriminate.
  - right. exact H1.
Defined.

(** A configuration that passes the model stops passing it when the
    fractional pair is replaced by one with [p <= f]. *)
Lemma calc_frequency_value_f_not_below_p (c : A.t) (v0 : float) (fz pz : Z) :
  A.calc_frequency_value c = Ok v0 -> pz <= fz ->
  A.calc_frequency_value (A.set_frac c (PyInt fz) (PyInt pz))
  = Raise (AssertionError "Error f is not < p").
Proof.
  intros Hc Hle.
  destruct (calc_frequency_value_inv c v0 Hc)
    as (Fz & Rz & ODz & fz0 & pz0 & x & q & d
        & Hpre & Hx & _ & Hrange & _).
  destruct Hpre as (HF & HFz & HR & HRz & HOD & HODz & _ & _ & _).
  unfold A.calc_frequency_value.
  rewrite (intermediate_freq_value (A.set_frac c (PyInt fz) (PyInt pz)) Fz Rz x)
    by assumption.
  cbn [A.set_frac A.F A.R A.OD A.f A.p].
  rewrite HF, HR, HOD. cbn [A.between is_int].
  replace (1 <=? Fz) with true by (symmetry; apply Z.leb_le; lia).
  replace (Fz <=? 8191) with true by (symmetry; apply Z.leb_le; lia).
  replace (0 <=? Rz) with true by (symmetry; apply Z.leb_le; lia).
  replace (Rz <=? 63) with true by (symmetry; apply Z.leb_le; lia).
  replace (0 <=? ODz) with true by (symmetry; apply Z.leb_le; lia).
  replace (ODz <=? 7) with true by (symmetry; apply Z.leb_le; lia).
  cbn [andb assert]. rewrite !bind_Ok. rewrite Hrange.
  cbn [assert]. rewrite !bind_Ok.
  replace (fz <? pz) with false by (symmetry; apply Z.ltb_ge; lia).
  reflexivity.
Qed.

(** X10: a table entry whose decoded pair has [p <= f] stops the mapper.
    On a mapper whose current configuration passes the frequency model,
    a call that lands on such an entry raises the assertion
    [f is not < p]; the pair is stored all the same and the frequency
    read back afterwards is the one of the call before.  An entry that
    the header never wrote holds 0, which decodes to [f = p = 0], so a
    gap in the header is such an entry. *)
Theorem mapper_on_unwritten_entry (self : E.t) (error : pyval) (err r : Z)
    (v0 : float) :
  py_int error = Ok err ->
  E.get_lut self !! Z.to_nat (Spec.resolve_index
                                (Z.of_nat (length (E.get_lut self))) err)
    = Some r ->
  A.calc_frequency_value (E.pll self) = Ok v0 ->
  (r = 0 \/ snd (E.reg_to_frac r) <= fst (E.reg_to_frac r)) ->
  let self' := fst (E.get_output_freqency_from_error self error) in
  snd (E.get_output_freqency_from_error self error)
    = Raise (AssertionError "Error f is not < p") /\
  A.f (E.pll self') = PyInt (fst (E.reg_to_frac r)) /\
  A.p (E.pll self') = PyInt (snd (E.reg_to_frac r)) /\
  A.get_output_freqency (E.pll self') = A.get_output_freqency (E.pll self) /\
  (forall v, A.calc_frequency_value (E.pll self') <> Ok v).
Proof.
  intros Herr Hlk Hc Hbad self'.
  assert (Hle : snd (E.reg_to_frac r) <= fst (E.reg_to_frac r)).
  { destruct Hbad as [->|H]; [vm_compute; discriminate|exact H]. }
  assert (Hne : E.get_lut self <> []).
  { intros Hnil. rewrite Hnil in Hlk. rewrite lookup_nil in Hlk. discriminate. }
  destruct (mapper_unfold self error err Herr Hne)
    as (register & status & _ & Hlk' & _ & Heq).
  cbv zeta in Heq. rewrite Hlk in Hlk'. injection Hlk' as <-.
  pose proof (calc_frequency_value_f_not_below_p (E.pll self) v0 _ _ Hc Hle)
    as Hraise.
  subst self'. rewrite Heq. unfold A.calc_frequency. rewrite Hraise.
  cbn [fst snd mbind result_bind bind E.pll].
  split; [reflexivity|]. split; [reflexivity|]. split; [reflexivity|].
  split; [reflexivity|].
  intros v Hv. rewrite Hraise in Hv. discriminate.
Qed.

Section header_with_gap.
#[local] Existing Instance Demo.numpy_2.

Lemma mapper_on_unwritten_entry_witness :
  P.init Demo.header_gap = Ok (P.mk [0x0001; 0; 0x0003] 0.25 0.5) /\
  snd (E.get_output_freqency_from_error
         (E.mk Demo.pll (P.mk [0x0001; 0; 0x0003] 0.25 0.5)) (PyInt 0))
  = Raise (AssertionError "Error f is not < p").
Proof.
  split; [vm_compute; reflexivity|].
  assert (H1 : py_int (PyInt 0) = Ok 0) by reflexivity.
  assert (H2 : E.get_lut (E.mk Demo.pll (P.mk [0x0001; 0; 0x0003] 0.25 0.5))
               !! Z.to_nat (Spec.resolve_index
                    (Z.of_nat (length (E.get_lut
                       (E.mk Demo.pll (P.mk [0x0001; 0; 0x0003] 0.25 0.5))))) 0)
               = Some 0) by reflexivity.
  assert (H3 : A.calc_frequency_value
                 (E.pll (E.mk Demo.pll (P.mk [0x0001; 0; 0x0003] 0.25 0.5)))
               = Ok 24160000%float) by (vm_compute; reflexivity).
  assert (H4 : 0 = 0 \/ snd (E.reg_to_frac 0) <= fst (E.reg_to_frac 0))
    by (left; reflexivity).
  destruct (mapper_on_unwritten_entry _ (PyInt 0) 0 0 _ H1 H2 H3 H4) as [H _].
  exact H.
Defined.

End header_with_gap.

(** ** The controller across ticks *)

(** X11: a tick that returns is the mapper called on the truncated
    total error.  When [do_control] with the mapper as look-up function
    returns, [verbose] is off, the new total error has an integer value
    [err], and the tick's result and the mapper's new state are those
    of [get_output_freqency_from_error(err)]; the table is not empty and
    the status is the clamp's status for [err]. *)
Theorem tick_is_mapper_on_truncated_error {env : np.environment}
    (s : C.t) (self : E.t) (m : pyval)
    (pf : float) (r : option float * Z) :
  snd (C.do_control E.get_output_freqency_from_error s self m pf) = Ok r ->
  let s' := fst (fst (C.do_control E.get_output_freqency_from_error s self m pf)) in
  let n := Z.of_nat (length (E.get_lut self)) in
  exists err,
    int_of_float (C.get_error s') = Ok err /\
    C.verbose s = false /\
    C.do_control E.get_output_freqency_from_error s self m pf
    = ((s', fst (E.get_output_freqency_from_error self (PyInt err))),
       snd (E.get_output_freqency_from_error self (PyInt err))) /\
    E.get_lut self <> [] /\
    snd r = snd (E.clamp n (n / 2 - err)).
Proof.
  intros Hres s' n.
  pose proof (returning_tick_total_finite s self m pf r Hres) as Hfin.
  fold s' in Hfin.
  destruct (finite_int _ Hfin) as [err Herr].
  exists err. split; [exact Herr|].
  subst s'. revert Hres Herr. unfold C.do_control.
  destruct (C.count_increment s m pf) as [[z inc]|e]; [|discriminate].
  destruct (C.raw_error _ inc) as [err0|e]; [|discriminate].
  change (C.verbose (C.store_error _ _)) with (C.verbose s).
  destruct (C.verbose s); [discriminate|].
  change (C.error (C.store_error _ ?t)) with t.
  set (total := C.total_error _ err0).
  set (s3 := C.store_error _ total).
  destruct (E.get_output_freqency_from_error self (PyFloat total))
    as [self' res] eqn:Hcall.
  cbn [fst snd]. intros Hres Herr.
  change (C.get_error s3) with total in Herr.
  assert (Hpy : py_int (PyFloat total) = Ok err) by exact Herr.
  rewrite (mapper_py_int self (PyFloat total) err Hpy) in Hcall.
  rewrite Hcall. cbn [fst snd].
  split; [reflexivity|]. split; [reflexivity|].
  destruct r as [v st]. subst res.
  assert (Hsnd : snd (E.get_output_freqency_from_error self (PyInt err))
                 = Ok (v, st)) by (rewrite Hcall; reflexivity).
  destruct (mapper_Ok_inv self (PyInt err) err v st eq_refl Hsnd) as [Hne Hst].
  split; [exact Hne|exact Hst].
Qed.

Section returning_tick.
#[local] Existing Instance Demo.numpy_2.

Lemma tick_is_mapper_on_truncated_error_witness :
  snd (C.do_control E.get_output_freqency_from_error
         Demo.ctrl Demo.mapper (PyFloat 131073.75) 1)
    = Ok (Some 24060000%float, 0) /\
  exists err,
    int_of_float (C.get_error
       (fst (fst (C.do_control E.get_output_freqency_from_error
                    Demo.ctrl Demo.mapper (PyFloat 131073.75) 1)))) = Ok err.
Proof.
  assert (H : snd (C.do_control E.get_output_freqency_from_error
                     Demo.ctrl Demo.mapper (PyFloat 131073.75) 1)
              = Ok (Some 24060000%float, 0)) by (vm_compute; reflexivity).
  split; [exact H|].
  destruct (tick_is_mapper_on_truncated_error _ _ _ _ _ H) as (err & Herr & _).
  exists err. exact Herr.
Defined.

End returning_tick.

Section reads.

Context {env : np.environment} {L : Type}.
Variable lookup : L -> pyval -> L * result (option float * Z).

Lemma do_control_same_inputs (s s' : C.t) (l : L) (m : pyval) (pf : float) :
  Laws.same_inputs s s' ->
  snd (C.do_control lookup s' l m pf) = snd (C.do_control lookup s l m pf) /\
  snd (fst (C.do_control lookup s' l m pf))
  = snd (fst (C.do_control lookup s l m pf)) /\
  Laws.same_inputs (fst (fst (C.do_control lookup s l m pf)))
                   (fst (fst (C.do_control lookup s' l m pf))).
Proof.
  destruct s, s'. unfold Laws.same_inputs.
  cbn [C.mclk_count_old C.expected_mclk_count_inc_float C.Kp C.Ki C.Kii
       C.error_accum C.error_accum_accum C.i_windup_limit C.ii_windup_limit
       C.verbose].
  intros (-> & -> & -> & -> & -> & -> & -> & -> & -> & ->).
  unfold C.do_control, C.count_increment, C.raw_error.
  cbn [C.store_sample C.mclk_count_old C.expected_mclk_count_inc_float].
  destruct (py_int m) as [z|e];
    [|cbn; repeat split; reflexivity].
  cbn [mbind result_bind bind].
  destruct (float_of_Z _) as [x|e];
    [|cbn; repeat split; reflexivity].
  cbn [mbind result_bind bind].
  destruct (float_div x pf) as [inc|e];
    [|cbn; repeat split; reflexivity].
  cbn [mbind result_bind bind].
  destruct (int_of_float _) as [ex|e];
    [|cbn; repeat split; reflexivity].
  cbn [mbind result_bind bind].
  destruct (float_of_Z ex) as [y|e];
    [|cbn; repeat split; reflexivity].
  cbn [mbind result_bind bind].
  cbn [C.store_error C.integrate C.store_sample C.total_error C.error_p
       C.error_i C.error_ii C.Kp C.Ki C.Kii C.error_accum C.error_accum_accum
       C.i_windup_limit C.ii_windup_limit C.verbose C.error
       C.mclk_count_old C.expected_mclk_count_inc_float].
  destruct verbose; [cbn; repeat split; reflexivity|].
  destruct (lookup l _) as [l' r]. cbn. repeat split; reflexivity.
Qed.

Lemma run_same_inputs (ticks : list (pyval * float)) (s s' : C.t) (l : L) :
  Laws.same_inputs s s' ->
  snd (C.run lookup s' l ticks) = snd (C.run lookup s l ticks) /\
  Laws.same_inputs (fst (C.run lookup s l ticks)) (fst (C.run lookup s' l ticks)).
Proof.
  revert s s' l. induction ticks as [|[m pf] rest IH]; intros s s' l Hsame.
  - simpl. split; [reflexivity|exact Hsame].
  - simpl. destruct (do_control_same_inputs s s' l m pf Hsame) as (_ & Hl & Hs).
    destruct (C.do_control lookup s l m pf) as [[s1 l1] r1].
    destruct (C.do_control lookup s' l m pf) as [[s1' l1'] r1'].
    cbn [fst snd] in Hl, Hs. subst l1'. apply IH. exact Hs.
Qed.

Lemma do_control_ref_clk_count (s : C.t) (l : L) (m : pyval) (pf : float) :
  C.ref_clk_count (fst (fst (C.do_control lookup s l m pf)))
  = C.ref_clk_count s
    + (if is_ok (C.count_increment s m pf) then C.ref_to_loop_call_rate s else 0).
Proof.
  unfold C.do_control.
  destruct (C.count_increment s m pf) as [[z inc]|e]; cbn [is_ok fst snd];
    [|lia].
  destruct (C.raw_error _ inc) as [err|e]; [|reflexivity].
  destruct (C.verbose _); [reflexivity|].
  destruct (lookup l _) as [l' r]. reflexivity.
Qed.

End reads.

(** X12: what a tick reads.  The outcome of a tick, and of every later
    tick, is a function of the last count, the expected increment, the
    gains, the two accumulators, the two limits and [verbose]: two
    controllers that agree on these return the same results and drive
    the look-up object to the same state, whatever their
    [ref_clk_count], [expected_mclk_count_float], stored [error],
    [multiplier], [ref_to_loop_call_rate] and [last_mclk_frequency]. *)
Theorem tick_inputs {env : np.environment} {L : Type}
    (lookup : L -> pyval -> L * result (option float * Z))
    (s s' : C.t) (l : L) (ticks : list (pyval * float))
    (m : pyval) (pf : float) :
  Laws.same_inputs s s' ->
  let after := C.run lookup s l ticks in
  let after' := C.run lookup s' l ticks in
  snd after' = snd after /\
  Laws.same_inputs (fst after) (fst after') /\
  snd (C.do_control lookup (fst after') (snd after') m pf)
  = snd (C.do_control lookup (fst after) (snd after) m pf) /\
  (forall z inc err,
     C.count_increment (fst after) m pf = Ok (z, inc) ->
     C.raw_error (C.store_sample (fst after) z) inc = Ok err ->
     C.get_error (fst (fst (C.do_control lookup (fst after') (snd after') m pf)))
     = C.get_error (fst (fst (C.do_control lookup (fst after) (snd after) m pf)))).
Proof.
  intros Hsame after after'.
  destruct (run_same_inputs lookup ticks s s' l Hsame) as [Hl Hs].
  fold after after' in Hl, Hs.
  destruct (do_control_same_inputs lookup (fst after) (fst after') (snd after)
              m pf Hs) as (Hr & _ & _).
  split; [exact Hl|]. split; [exact Hs|].
  rewrite Hl. split; [exact Hr|].
  intros z inc err Hci Hre.
  assert (Hci' : C.count_increment (fst after') m pf = Ok (z, inc)).
  { unfold C.count_increment in *.
    destruct Hs as (-> & _). exact Hci. }
  assert (Hre' : C.raw_error (C.store_sample (fst after') z) inc = Ok err).
  { unfold C.raw_error in *.
    change (C.expected_mclk_count_inc_float (C.store_sample ?a z))
      with (C.expected_mclk_count_inc_float a) in *.
    destruct Hs as (_ & -> & _). exact Hre. }
  destruct (do_control_sum lookup (fst after) (snd after) m pf z inc err Hci Hre)
    as [_ Hsum].
  destruct (do_control_sum lookup (fst after') (snd after) m pf z inc err Hci' Hre')
    as [_ Hsum'].
  destruct (do_control_same_inputs lookup (fst after) (fst after') (snd after)
              m pf Hs) as (_ & _ & Hs2).
  unfold C.get_error. rewrite Hsum, Hsum'.
  unfold C.error_p, C.error_i, C.error_ii.
  destruct Hs2 as (_ & _ & -> & -> & -> & -> & -> & -> & -> & _).
  reflexivity.
Qed.

Section two_controllers.
#[local] Existing Instance Demo.numpy_2.

Lemma tick_inputs_witness :
  Laws.same_inputs Demo.ctrl
    (C.mk 1 1 99 0 131072 7 0.5 2 0 0 0 3 2.5 0 0 false) /\
  snd (C.do_control E.get_output_freqency_from_error
         (C.mk 1 1 99 0 131072 7 0.5 2 0 0 0 3 2.5 0 0 false)
         Demo.mapper (PyFloat 131073.75) 1)
  = snd (C.do_control E.get_output_freqency_from_error
           Demo.ctrl Demo.mapper (PyFloat 131073.75) 1).
Proof.
  assert (H : Laws.same_inputs Demo.ctrl
                (C.mk 1 1 99 0 131072 7 0.5 2 0 0 0 3 2.5 0 0 false))
    by (unfold Laws.same_inputs; cbn; repeat split; reflexivity).
  split; [exact H|].
  destruct (tick_inputs E.get_output_freqency_from_error _ _ Demo.mapper []
              (PyFloat 131073.75) 1 H) as (_ & _ & Hr & _).
  exact Hr.
Defined.

End two_controllers.

(** X13: [ref_clk_count] counts the samples taken.  After any run of
    ticks it is its initial value plus [ref_to_loop_call_rate] for each
    tick that got as far as storing its sample, that is, each tick whose
    count could be truncated and divided by [period_fraction]; ticks
    that raise later (in the raw error, in verbose mode or in the
    look-up) are counted too, and every tick that returns is counted. *)
Theorem ref_clk_count_counts_samples {env : np.environment} {L : Type}
    (lookup : L -> pyval -> L * result (option float * Z))
    (s : C.t) (l : L) (ticks : list (pyval * float)) :
  C.ref_clk_count (fst (C.run lookup s l ticks))
  = C.ref_clk_count s
    + Z.of_nat (Laws.sampled lookup s l ticks) * C.ref_to_loop_call_rate s /\
  (Laws.sampled lookup s l ticks <= length ticks)%nat /\
  (forall m pf,
     is_ok (snd (C.do_control lookup s l m pf)) = true ->
     Laws.sampled lookup s l [(m, pf)] = 1%nat) /\
  (forall m pf z inc e,
     C.count_increment s m pf = Ok (z, inc) ->
     C.raw_error (C.store_sample s z) inc = Raise e ->
     snd (C.do_control lookup s l m pf) = Raise e /\
     Laws.sampled lookup s l [(m, pf)] = 1%nat).
Proof.
  split; [|split; [|split]].
  - revert s l. induction ticks as [|[m pf] rest IH]; intros s l.
    + simpl. lia.
    + cbn [C.run Laws.sampled].
      pose proof (do_control_ref_clk_count lookup s l m pf) as Hstep.
      pose proof (do_control_constants lookup s l m pf) as (_ & Hrate & _).
      destruct (C.do_control lookup s l m pf) as [[s1 l1] r1].
      cbn [fst snd] in Hstep, Hrate.
      rewrite IH, Hstep, Hrate, Nat2Z.inj_add.
      destruct (is_ok (C.count_increment s m pf)); simpl Z.of_nat; lia.
  - revert s l. induction ticks as [|[m pf] rest IH]; intros s l.
    + simpl. lia.
    + cbn [Laws.sampled length].
      destruct (C.do_control lookup s l m pf) as [[s1 l1] r1].
      specialize (IH s1 l1).
      destruct (is_ok (C.count_increment s m pf)); lia.
  - intros m pf Hok. cbn [Laws.sampled].
    unfold C.do_control in *.
    destruct (C.count_increment s m pf) as [[z inc]|e]; [|discriminate].
    destruct (C.raw_error _ inc) as [err|e]; [|reflexivity].
    destruct (C.verbose _); [reflexivity|].
    destruct (lookup l _) as [l' r]. reflexivity.
  - intros m pf z inc e Hci Hre. cbn [Laws.sampled].
    unfold C.do_control. rewrite Hci, Hre. split; reflexivity.
Qed.

(** ** Constructing the controller *)

Lemma windup_limit_exn (lut_size : Z) (K : float) (e : exn) :
  C.windup_limit lut_size K = Raise e ->
  e = OverflowError /\ float_ne0 K = true /\ is_infinity (Z2F lut_size) = true.
Proof.
  unfold C.windup_limit, float_ne0.
  destruct (K =? 0)%float eqn:HK; cbn [negb]; [discriminate|].
  unfold float_of_Z. destruct (is_infinity (Z2F lut_size)).
  - cbn. intros H. injection H as <-. repeat split; reflexivity.
  - cbn [mbind result_bind bind]. unfold float_div. rewrite HK. discriminate.
Qed.

Lemma windup_limit_Ok (lut_size : Z) (K : float) :
  (float_ne0 K = true -> is_infinity (Z2F lut_size) = false) ->
  exists limit, C.windup_limit lut_size K = Ok limit.
Proof.
  intros H. destruct (C.windup_limit lut_size K) as [limit|e] eqn:Hw.
  - exists limit. reflexivity.
  - destruct (windup_limit_exn _ _ _ Hw) as (_ & HK & Hinf).
    rewrite (H HK) in Hinf. discriminate.
Qed.

(** X14: constructing the controller.  The constructor never divides
    by zero, whatever the gains: a zero gain gives the limit 0.0 and a
    NaN or infinite gain goes through the division.  It raises only
    OverflowError, and only when [ref_to_loop_call_rate], or [lut_size]
    under a non-zero gain, is too large for a double.  The argument
    [init_ref_clk_count] is not used: [ref_clk_count] starts at
    [init_mclk_count], as does the last count; the accumulators, the
    total error and the expected count start at 0.0. *)
Theorem controller_construction (lut_size : Z) (multiplier : float) (rate : Z)
    (Kp Ki Kii : float) (m0 r0 : Z) (vb : bool) :
  let built := C.init lut_size multiplier rate Kp Ki Kii m0 r0 vb in
  (is_ok built = true <->
   is_infinity (Z2F rate) = false /\
   (float_ne0 Ki || float_ne0 Kii = true -> is_infinity (Z2F lut_size) = false)) /\
  (forall e, built = Raise e -> e = OverflowError) /\
  (forall r0', C.init lut_size multiplier rate Kp Ki Kii m0 r0' vb = built) /\
  (forall s, built = Ok s ->
     C.ref_clk_count s = m0 /\ C.mclk_count_old s = m0 /\
     C.multiplier s = multiplier /\ C.ref_to_loop_call_rate s = rate /\
     C.get_expected_mclk_count_inc s = (multiplier * Z2F rate)%float /\
     C.expected_mclk_count_float s = 0%float /\
     C.get_error s = 0%float /\
     C.error_accum s = 0%float /\ C.error_accum_accum s = 0%float /\
     C.last_mclk_frequency s = C.target_mclk_frequency /\
     C.verbose s = vb).
Proof.
  intros built. subst built. split; [|split; [|split]].
  - unfold C.init, float_of_Z at 1. split.
    + destruct (is_infinity (Z2F rate)); [discriminate|].
      cbn [mbind result_bind bind].
      destruct (C.windup_limit lut_size Ki) as [il|e] eqn:Hi;
        [|discriminate].
      cbn [mbind result_bind bind].
      destruct (C.windup_limit lut_size Kii) as [iil|e] eqn:Hii;
        [|discriminate].
      intros _. split; [reflexivity|]. intros HK.
      destruct (is_infinity (Z2F lut_size)) eqn:Hinf; [|reflexivity].
      unfold C.windup_limit, float_of_Z in Hi, Hii. rewrite Hinf in Hi, Hii.
      apply orb_true_iff in HK as [HK|HK]; rewrite HK in *; discriminate.
    + intros [Hrate Hsize]. rewrite Hrate. cbn [mbind result_bind bind].
      destruct (windup_limit_Ok lut_size Ki) as [il ->].
      { intros HK. apply Hsize. rewrite HK. reflexivity. }
      destruct (windup_limit_Ok lut_size Kii) as [iil ->].
      { intros HK. apply Hsize. rewrite HK. apply orb_true_r. }
      reflexivity.
  - intros e. unfold C.init. intros H.
    apply bind_Raise_inv in H as [H|(r & _ & H)].
    { unfold float_of_Z in H. destruct (is_infinity _); [|discriminate].
      injection H as <-. reflexivity. }
    apply bind_Raise_inv in H as [H|(il & _ & H)];
      [apply windup_limit_exn in H as [-> _]; reflexivity|].
    apply bind_Raise_inv in H as [H|(iil & _ & H)];
      [apply windup_limit_exn in H as [-> _]; reflexivity|].
    discriminate.
  - intros r0'. reflexivity.
  - intros s. unfold C.init. intros H.
    apply bind_Ok_inv in H as (r & Hr & H).
    apply bind_Ok_inv in H as (il & _ & H).
    apply bind_Ok_inv in H as (iil & _ & H).
    apply float_of_Z_inv in Hr. subst r.
    injection H as <-. cbn. repeat split; reflexivity.
Qed.

(** ** Headers without, or with more than one, size declaration *)

Section headers.

Context {env : np.environment}.

Lemma loop_app (h1 h2 : list P.line) (st : P.locals) :
  P.loop st (h1 ++ h2) = st' ← P.loop st h1; P.loop st' h2.
Proof.
  revert st. induction h1 as [|ln h1 IH]; intros st; [reflexivity|].
  cbn [app P.loop]. destruct (P.loop_body st ln) as [st'|e]; [|reflexivity].
  cbn [mbind result_bind bind]. apply IH.
Qed.

(** Without a size declaration the loop runs as far as the first entry
    line: there [float(frac)] raises ValueError when the text is not a
    float literal, and otherwise [lut[idx] = reg] finds [lut] unbound. *)
Lemma loop_unbound (h : list P.line) (mn mx : float) :
  Forall (fun ln => P.num_entries_match ln = None) h ->
  P.loop (P.mk_locals None mn mx) h =
    match Laws.first_entry h with
    | None => Ok (P.mk_locals None mn mx)
    | Some (_, _, None) => Raise ValueError
    | Some (_, _, Some _) => Raise UnboundLocalError
    end.
Proof.
  induction h as [|ln rest IH]; intros Hall; [reflexivity|].
  apply Forall_cons in Hall as [Hln Hall].
  cbn [P.loop Laws.first_entry]. unfold P.loop_body. rewrite Hln.
  cbn [P.lut mbind result_bind bind].
  destruct (P.entry_match ln) as [[[reg idx] [frac|]]|]; try reflexivity.
  cbn [mbind result_bind bind P.l_min_frac P.l_max_frac]. exact (IH Hall).
Qed.

Lemma first_entry_parses (h : list P.line) :
  Forall (fun ln => forall reg idx,
            P.entry_match ln <> Some (reg, idx, None)) h ->
  forall reg idx, Laws.first_entry h <> Some (reg, idx, None).
Proof.
  induction h as [|ln rest IH]; intros Hall reg idx; [discriminate|].
  apply Forall_cons in Hall as [Hln Hall]. cbn [Laws.first_entry].
  destruct (P.entry_match ln) as [e|] eqn:He.
  - intros H. injection H as ->. exact (Hln reg idx eq_refl).
  - exact (IH Hall reg idx).
Qed.

End headers.

(** X15: a header needs a size declaration.  When no line of the header
    declares the table size (the empty file included) the table
    constructor raises, at the first entry line if there is one and
    whatever follows it: ValueError when the fraction of that line is
    not a float literal, UnboundLocalError otherwise; with no entry
    line it raises UnboundLocalError at the final [self.lut_reg = lut].
    So on a header whose fractions are all float literals the exception
    is UnboundLocalError; and the mapper's constructor, which calls the
    table's, never returns on such a header. *)
Theorem header_without_size_declaration {env : np.environment}
    (h : list P.line) :
  Forall (fun ln => P.num_entries_match ln = None) h ->
  P.init h = Raise (match Laws.first_entry h with
                    | Some (_, _, None) => ValueError
                    | _ => UnboundLocalError
                    end) /\
  (Forall (fun ln => forall reg idx,
             P.entry_match ln <> Some (reg, idx, None)) h ->
   P.init h = Raise UnboundLocalError /\
   (~ Forall (fun ln => P.entry_match ln = None) h ->
    forall rest, P.init (h ++ rest) = Raise UnboundLocalError)) /\
  (Laws.first_entry h <> None -> forall rest, P.init (h ++ rest) = P.init h) /\
  (forall i F R OD ACD f p vb,
     is_ok (E.init h i F R OD ACD f p vb) = false).
Proof.
  intros Hall.
  pose proof (loop_unbound h 1 0 Hall) as Hloop.
  assert (Hinit : P.init h = Raise (match Laws.first_entry h with
                                    | Some (_, _, None) => ValueError
                                    | _ => UnboundLocalError
                                    end)).
  { unfold P.init. rewrite Hloop.
    destruct (Laws.first_entry h) as [[[reg idx] [frac|]]|]; reflexivity. }
  assert (Hrest : Laws.first_entry h <> None ->
                  forall rest, P.init (h ++ rest) = P.init h).
  { intros Hfirst rest. unfold P.init. rewrite loop_app, Hloop.
    destruct (Laws.first_entry h) as [[[reg idx] [frac|]]|];
      [reflexivity|reflexivity|congruence]. }
  split; [exact Hinit|]. split; [|split; [exact Hrest|]].
  - intros Hparse.
    pose proof (first_entry_parses h Hparse) as Hfirst.
    assert (Hunbound : P.init h = Raise UnboundLocalError).
    { rewrite Hinit.
      destruct (Laws.first_entry h) as [[[reg idx] [frac|]]|];
        try reflexivity.
      exfalso. exact (Hfirst reg idx eq_refl). }
    split; [exact Hunbound|].
    intros Hentry rest. rewrite Hrest; [exact Hunbound|].
    intros Hnone. apply Hentry. clear - Hnone.
    induction h as [|ln h IH]; [constructor|].
    cbn [Laws.first_entry] in Hnone.
    destruct (P.entry_match ln) eqn:He; [discriminate|].
    constructor; [exact He|exact (IH Hnone)].
  - intros i F R OD ACD f p vb. unfold E.init.
    destruct (A.init i F R OD ACD f p false) as [c|e]; [|reflexivity].
    cbn [mbind result_bind bind]. rewrite Hinit. reflexivity.
Qed.

Section headers_without_size.
#[local] Existing Instance Demo.numpy_2.

Lemma header_without_size_declaration_witness :
  Forall (fun ln => P.num_entries_match ln = None)
    [Spec.entry_line (0x0001%N, 0%nat, 0.5%float)] /\
  P.init [Spec.entry_line (0x0001%N, 0%nat, 0.5%float)]
  = Raise UnboundLocalError.
Proof.
  assert (H : Forall (fun ln => P.num_entries_match ln = None)
                [Spec.entry_line (0x0001%N, 0%nat, 0.5%float)])
    by (repeat constructor).
  split; [exact H|].
  destruct (header_without_size_declaration _ H) as [H1 _]. exact H1.
Defined.

End headers_without_size.

(** X16: a size declaration starts the table afresh.  Whatever lines
    came before it (an earlier table with its entries included), once
    they have been read without error and [np.zeros] has returned the
    new array, the table built is the one of the last declaration and
    of the entries after it alone: [n] zeros overwritten by those
    entries. *)
Theorem size_declaration_resets_table {env : np.environment}
    (h : list P.line) (st : P.locals)
    (n : nat) (es : list (N * nat * float)) :
  P.loop (P.mk_locals None 1 0) h = Ok st ->
  np.zeros_outcome n = np.allocated ->
  Forall (Spec.in_table n) es ->
  exists t,
    P.init (h ++ Spec.size_line n :: map Spec.entry_line es) = Ok t /\
    P.get_lut t = fold_left Spec.store es (replicate n 0) /\
    P.get_lut_size t = Z.of_nat n /\
    (forall t0, P.init (Spec.size_line n :: map Spec.entry_line es) = Ok t0 ->
                P.get_lut t0 = P.get_lut t).
Proof.
  intros Hh Hn Hall.
  assert (Hall' : Forall (Spec.in_table (length (replicate n 0))) es)
    by (rewrite length_replicate; exact Hall).
  destruct (loop_entries es (replicate n 0) (P.l_min_frac st) (P.l_max_frac st)
              Hall') as (mn & mx & Hloop).
  destruct (loop_entries es (replicate n 0) 1 0 Hall') as (mn0 & mx0 & Hloop0).
  exists (P.mk (fold_left Spec.store es (replicate n 0)) mn mx).
  split; [|split; [|split]].
  - unfold P.init. rewrite loop_app, Hh.
    cbn [mbind result_bind bind P.loop]. rewrite (loop_body_size _ n Hn).
    cbn [mbind result_bind bind]. rewrite Hloop. reflexivity.
  - reflexivity.
  - unfold P.get_lut_size. cbn [P.lut_reg].
    rewrite length_stores, length_replicate. reflexivity.
  - intros t0. unfold P.init. cbn [P.loop]. rewrite (loop_body_size _ n Hn).
    cbn [mbind result_bind bind P.l_min_frac P.l_max_frac].
    rewrite Hloop0. cbn [mbind result_bind bind P.lut].
    intros H. injection H as <-. reflexivity.
Qed.

Section size_declared_twice.
#[local] Existing Instance Demo.numpy_2.

Lemma size_declaration_resets_table_witness :
  P.loop (P.mk_locals None 1 0) Demo.header
    = Ok (P.mk_locals (Some [0x0003; 0x0002; 0x0001; 0x0102; 0x0203]) 0.25 0.75) /\
  np.zeros_outcome 2 = np.allocated /\
  Forall (Spec.in_table 2) [(0x0007%N, 1%nat, 0.5%float)] /\
  exists t,
    P.init (Demo.header ++ Spec.size_line 2
              :: map Spec.entry_line [(0x0007%N, 1%nat, 0.5%float)]) = Ok t /\
    P.get_lut t = [0; 0x0007].
Proof.
  assert (H1 : P.loop (P.mk_locals None 1 0) Demo.header
               = Ok (P.mk_locals (Some [0x0003; 0x0002; 0x0001; 0x0102; 0x0203])
                                 0.25 0.75)) by (vm_compute; reflexivity).
  assert (Hn : np.zeros_outcome 2 = np.allocated) by reflexivity.
  assert (H2 : Forall (Spec.in_table 2) [(0x0007%N, 1%nat, 0.5%float)]).
  { repeat constructor; unfold Spec.entry_index, Spec.entry_reg; simpl; lia. }
  split; [exact H1|]. split; [exact Hn|]. split; [exact H2|].
  destruct (size_declaration_resets_table _ _ 2 _ H1 Hn H2)
    as (t & Ht & Hlut & _).
  exists t. split; [exact Ht|]. rewrite Hlut. reflexivity.
Defined.

End size_declared_twice.

(** ** Picking the solution *)

Lemma next_above_spec (Fs : list Z) (min_F : Z) (start : nat) :
  match get_pll_solution.next_above start Fs min_F with
  | Some i =>
      (start <= i)%nat /\
      (exists val, Fs !! (i - start)%nat = Some val /\ min_F < val) /\
      forall j v, (j < i - start)%nat -> Fs !! j = Some v -> v <= min_F
  | None => Forall (fun v => v <= min_F) Fs
  end.
Proof.
  revert start. induction Fs as [|val rest IH]; intros start.
  - simpl. constructor.
  - cbn [get_pll_solution.next_above].
    destruct (Z.ltb_spec min_F val) as [Hlt|Hge].
    + split; [lia|]. rewrite Nat.sub_diag. split.
      * exists val. split; [reflexivity|exact Hlt].
      * intros j v Hj. lia.
    + specialize (IH (S start)).
      destruct (get_pll_solution.next_above (S start) rest min_F) as [i|].
      * destruct IH as (Hle & (v & Hv & Hlt) & Hbelow).
        split; [lia|].
        replace (i - start)%nat with (S (i - S start)) by lia.
        split; [exists v; split; [exact Hv|exact Hlt]|].
        intros j w Hj Hw. destruct j as [|j].
        -- simpl in Hw. injection Hw as <-. exact Hge.
        -- simpl in Hw. apply (Hbelow j w); [lia|exact Hw].
      * constructor; assumption.
Qed.

(** X17: the solution picked is the first whose F exceeds [min_F].
    The index that [next(...)] yields over [enumerate(Fs)] is [i]
    exactly when [Fs[i] > min_F] and no earlier F does; the generator is
    exhausted (StopIteration) exactly when no F exceeds [min_F]. *)
Theorem first_solution_least (Fs : list Z) (min_F : Z) :
  (forall i,
     get_pll_solution.first_solution Fs min_F = Some i <->
     (exists val, Fs !! i = Some val /\ min_F < val) /\
     (forall j v, (j < i)%nat -> Fs !! j = Some v -> v <= min_F)) /\
  (get_pll_solution.first_solution Fs min_F = None <->
   Forall (fun v => v <= min_F) Fs).
Proof.
  unfold get_pll_solution.first_solution.
  pose proof (next_above_spec Fs min_F 0) as Hspec.
  destruct (get_pll_solution.next_above 0 Fs min_F) as [i0|].
  - destruct Hspec as (_ & (v0 & Hv0 & Hlt0) & Hbelow0).
    rewrite Nat.sub_0_r in Hv0.
    split.
    + intros i. split.
      * intros H. injection H as <-. split.
        -- exists v0. split; assumption.
        -- intros j v Hj. apply Hbelow0. lia.
      * intros [(v & Hv & Hlt) Hbelow]. f_equal.
        destruct (Nat.lt_trichotomy i0 i) as [H|[H|H]]; [|exact H|].
        -- specialize (Hbelow i0 v0 H Hv0). lia.
        -- assert (Hi : (i < i0 - 0)%nat) by lia.
           specialize (Hbelow0 i v Hi Hv). lia.
    + split; [discriminate|]. intros Hall. exfalso.
      rewrite Forall_lookup in Hall. specialize (Hall i0 v0 Hv0).
      simpl in Hall. lia.
  - split.
    + intros i. split; [discriminate|].
      intros [(v & Hv & Hlt) _]. exfalso.
      rewrite Forall_lookup in Hspec. specialize (Hspec i v Hv).
      simpl in Hspec. lia.
    + split; [intros _; exact Hspec|reflexivity].
Qed.

(** ** The smallest and largest fraction of a header *)

Lemma SFltb_key (x y : spec_float) :
  x <> S754_nan -> y <> S754_nan ->
  SFltb x y = true <-> SForder.lex_lt (SForder.key x) (SForder.key y).
Proof.
  intros Hx Hy. unfold SFltb, SFcompare, SForder.lex_lt, SForder.key.
  destruct x as [sx|sx| |sx mx ex]; destruct y as [sy|sy| |sy my ey];
    try congruence;
    try (destruct sx; cbn [fst snd]; split; intros Hgoal; solve [discriminate|lia|reflexivity]);
    try (destruct sy; cbn [fst snd]; split; intros Hgoal; solve [discriminate|lia|reflexivity]);
    try (destruct sx, sy; cbn [fst snd]; split; intros Hgoal; solve [discriminate|lia|reflexivity]).
  pose proof (Z.compare_spec ex ey) as He.
  pose proof (Pos.compare_spec mx my) as Hm.
  change (ex ?= ey) with (IntDef.Z.compare ex ey) in He.
  change (mx ?= my)%positive with (PosDef.Pos.compare_cont Eq mx my) in Hm.
  destruct sx, sy; cbn [fst snd];
    try (split; intros Hgoal; solve [discriminate|lia|reflexivity]).
  - destruct He; destruct Hm; cbn [CompOpp]; split; intros Hgoal;
      solve [discriminate|lia|reflexivity].
  - destruct He; destruct Hm; split; intros Hgoal;
      solve [discriminate|lia|reflexivity].
Qed.

Lemma ltb_true_not_nan (x y : float) :
  (x <? y)%float = true ->
  Prim2SF x <> S754_nan /\ Prim2SF y <> S754_nan.
Proof.
  rewrite FloatAxioms.ltb_spec. unfold SFltb, SFcompare.
  destruct (Prim2SF x); destruct (Prim2SF y); try discriminate;
    intros _; split; discriminate.
Qed.

Lemma ltb_key (x y : float) :
  Prim2SF x <> S754_nan -> Prim2SF y <> S754_nan ->
  (x <? y)%float = true <->
  SForder.lex_lt (SForder.key (Prim2SF x)) (SForder.key (Prim2SF y)).
Proof.
  intros Hx Hy. rewrite FloatAxioms.ltb_spec. apply SFltb_key; assumption.
Qed.

Lemma ltb_irrefl (x : float) : (x <? x)%float = false.
Proof.
  destruct (x <? x)%float eqn:H; [|reflexivity]. exfalso.
  destruct (ltb_true_not_nan x x H) as [Hx _].
  apply (ltb_key x x Hx Hx) in H. unfold SForder.lex_lt in H. lia.
Qed.

Lemma ltb_asym (x y : float) :
  (x <? y)%float = true -> (y <? x)%float = false.
Proof.
  intros H. destruct (y <? x)%float eqn:H'; [|reflexivity]. exfalso.
  destruct (ltb_true_not_nan x y H) as [Hx Hy].
  apply (ltb_key x y Hx Hy) in H. apply (ltb_key y x Hy Hx) in H'.
  unfold SForder.lex_lt in H, H'. lia.
Qed.

(** [a >= b] and [b >= c] give [a >= c], read as "not less than", when
    the middle term is a number. *)
Lemma ltb_false_trans (a b c : float) :
  Prim2SF b <> S754_nan ->
  (a <? b)%float = false -> (b <? c)%float = false ->
  (a <? c)%float = false.
Proof.
  intros Hb Hab Hbc. destruct (a <? c)%float eqn:Hac; [|reflexivity]. exfalso.
  destruct (ltb_true_not_nan a c Hac) as [Ha Hc].
  apply (ltb_key a c Ha Hc) in Hac.
  assert (Hab' : ~ SForder.lex_lt (SForder.key (Prim2SF a)) (SForder.key (Prim2SF b))).
  { intros H. apply (ltb_key a b Ha Hb) in H. congruence. }
  assert (Hbc' : ~ SForder.lex_lt (SForder.key (Prim2SF b)) (SForder.key (Prim2SF c))).
  { intros H. apply (ltb_key b c Hb Hc) in H. congruence. }
  unfold SForder.lex_lt in *. lia.
Qed.

Lemma not_nan_is_nan (x : float) :
  Prim2SF x <> S754_nan -> is_nan x = false.
Proof.
  intros Hx. unfold is_nan. rewrite FloatAxioms.eqb_spec.
  unfold SFeqb, SFcompare.
  destruct (Prim2SF x) as [s|s| |s m e]; try congruence;
    try (destruct s; reflexivity).
  destruct s; cmp_simpl; reflexivity.
Qed.

Lemma loop_body_frac_bounded {env : np.environment}
    (st st' : P.locals) (ln : P.line) :
  Prim2SF (P.l_min_frac st) <> S754_nan ->
  Prim2SF (P.l_max_frac st) <> S754_nan ->
  P.loop_body st ln = Ok st' ->
  Laws.frac_bounded st st' (Laws.fractions [ln]).
Proof.
  intros Hmin Hmax Hbody. unfold P.loop_body in Hbody.
  apply bind_Ok_inv in Hbody as (lut1 & _ & Hbody).
  unfold Laws.frac_bounded. cbn [Laws.fractions].
  destruct (P.entry_match ln) as [[[reg idx] [frac|]]|]; [| discriminate |].
  - destruct lut1 as [a|]; [|discriminate].
    apply bind_Ok_inv in Hbody as (a' & _ & Hbody). injection Hbody as <-.
    cbn [P.l_min_frac P.l_max_frac].
    assert (Hf1 : (frac <? P.l_min_frac st)%float = true ->
                  Prim2SF frac <> S754_nan)
      by (intros H; apply (ltb_true_not_nan _ _ H)).
    assert (Hf2 : (P.l_max_frac st <? frac)%float = true ->
                  Prim2SF frac <> S754_nan)
      by (intros H; apply (ltb_true_not_nan _ _ H)).
    destruct (frac <? P.l_min_frac st)%float eqn:Hlt;
      destruct (P.l_max_frac st <? frac)%float eqn:Hgt;
      (split; [first [exact Hmin | exact (Hf1 eq_refl)]|]);
      (split; [first [exact Hmax | exact (Hf2 eq_refl)]|]);
      (split; [first [apply ltb_irrefl | apply ltb_asym; assumption]|]);
      (split; [first [apply ltb_irrefl | apply ltb_asym; assumption]|]);
      (split;
       [intros f Hin;
        apply elem_of_cons in Hin as [->|Hin];
        [|apply elem_of_nil in Hin; contradiction];
        split; first [assumption | apply ltb_irrefl]|]);
      split;
      first [left; reflexivity | right; apply elem_of_cons; left; reflexivity].
  - injection Hbody as <-. cbn [P.l_min_frac P.l_max_frac].
    split; [exact Hmin|]. split; [exact Hmax|].
    split; [apply ltb_irrefl|]. split; [apply ltb_irrefl|].
    split; [intros f Hin; apply elem_of_nil in Hin; contradiction|].
    split; left; reflexivity.
Qed.

Lemma fractions_cons (ln : P.line) (rest : list P.line) :
  Laws.fractions (ln :: rest) = Laws.fractions [ln] ++ Laws.fractions rest.
Proof.
  cbn [Laws.fractions].
  destruct (P.entry_match ln) as [[[reg idx] [frac|]]|]; reflexivity.
Qed.

Lemma loop_frac_bounded {env : np.environment}
    (h : list P.line) (st st' : P.locals) :
  Prim2SF (P.l_min_frac st) <> S754_nan ->
  Prim2SF (P.l_max_frac st) <> S754_nan ->
  P.loop st h = Ok st' ->
  Laws.frac_bounded st st' (Laws.fractions h).
Proof.
  revert st. induction h as [|ln rest IH]; intros st Hmin Hmax Hloop.
  - cbn in Hloop. injection Hloop as <-. unfold Laws.frac_bounded.
    split; [exact Hmin|]. split; [exact Hmax|].
    split; [apply ltb_irrefl|]. split; [apply ltb_irrefl|].
    split; [intros f Hin; apply elem_of_nil in Hin; contradiction|].
    split; left; reflexivity.
  - cbn [P.loop] in Hloop.
    apply bind_Ok_inv in Hloop as (st1 & Hbody & Hloop).
    destruct (loop_body_frac_bounded st st1 ln Hmin Hmax Hbody)
      as (Hmin1 & Hmax1 & Hlo1 & Hhi1 & Hin1 & Hatt1 & Hatt1').
    destruct (IH st1 Hmin1 Hmax1 Hloop)
      as (Hmin' & Hmax' & Hlo & Hhi & Hin & Hatt & Hatt').
    rewrite fractions_cons. unfold Laws.frac_bounded.
    split; [exact Hmin'|]. split; [exact Hmax'|].
    split; [exact (ltb_false_trans _ _ _ Hmin1 Hlo1 Hlo)|].
    split; [exact (ltb_false_trans _ _ _ Hmax1 Hhi Hhi1)|].
    split; [|split].
    + intros f Hf. apply elem_of_app in Hf as [Hf|Hf].
      * destruct (Hin1 f Hf) as [Ha Hb]. split.
        -- exact (ltb_false_trans _ _ _ Hmin1 Ha Hlo).
        -- exact (ltb_false_trans _ _ _ Hmax1 Hhi Hb).
      * exact (Hin f Hf).
    + destruct Hatt as [Heq|Hatt].
      * rewrite Heq. destruct Hatt1 as [Heq1|Hatt1]; [left; exact Heq1|].
        right. apply elem_of_app. left. exact Hatt1.
      * right. apply elem_of_app. right. exact Hatt.
    + destruct Hatt' as [Heq|Hatt'].
      * rewrite Heq. destruct Hatt1' as [Heq1|Hatt1']; [left; exact Heq1|].
        right. apply elem_of_app. left. exact Hatt1'.
      * right. apply elem_of_app. right. exact Hatt'.
Qed.

(** X18: [min_frac] and [max_frac] bound the fractions of the header.
    For every header from which the table is built, no fraction of an
    entry line is below [min_frac] or above [max_frac]; [min_frac] is
    either the initial 1.0 or one of the fractions, and is not above
    1.0; [max_frac] is either the initial 0.0 or one of the fractions,
    and is not below 0.0; neither is NaN.  So a header whose fractions
    are all at least 1.0 leaves [min_frac] at 1.0, above none of them. *)
Theorem fraction_bounds {env : np.environment} (h : list P.line) (t : P.t) :
  P.init h = Ok t ->
  (forall frac, frac ∈ Laws.fractions h ->
     (frac <? P.min_frac t)%float = false /\
     (P.max_frac t <? frac)%float = false) /\
  (1 <? P.min_frac t)%float = false /\
  (P.max_frac t <? 0)%float = false /\
  (P.min_frac t = 1%float \/ P.min_frac t ∈ Laws.fractions h) /\
  (P.max_frac t = 0%float \/ P.max_frac t ∈ Laws.fractions h) /\
  is_nan (P.min_frac t) = false /\ is_nan (P.max_frac t) = false.
Proof.
  unfold P.init. intros H.
  apply bind_Ok_inv in H as (st & Hloop & H).
  destruct (P.lut st) as [a|]; [|discriminate]. injection H as <-.
  cbn [P.min_frac P.max_frac].
  assert (H1 : Prim2SF 1 <> S754_nan) by (vm_compute; discriminate).
  assert (H0 : Prim2SF 0 <> S754_nan) by (vm_compute; discriminate).
  destruct (loop_frac_bounded h (P.mk_locals None 1 0) st H1 H0 Hloop)
    as (Hmin & Hmax & Hlo & Hhi & Hin & Hatt & Hatt').
  cbn [P.l_min_frac P.l_max_frac] in Hlo, Hhi, Hatt, Hatt'.
  split; [exact Hin|]. split; [exact Hlo|]. split; [exact Hhi|].
  split; [exact Hatt|]. split; [exact Hatt'|].
  split; apply not_nan_is_nan; assumption.
Qed.

Section demo_fractions.
#[local] Existing Instance Demo.numpy_2.

Lemma fraction_bounds_witness :
  P.init Demo.header = Ok Demo.lut /\
  (0.6875 <? P.min_frac Demo.lut)%float = false /\
  (P.max_frac Demo.lut <? 0.6875)%float = false.
Proof.
  assert (H : P.init Demo.header = Ok Demo.lut) by (vm_compute; reflexivity).
  split; [exact H|].
  destruct (fraction_bounds Demo.header Demo.lut H) as [Hin _].
  apply Hin. cbn.
  repeat (apply elem_of_cons; first [left; reflexivity | right]).
Defined.

End demo_fractions.

(** ** Constructing the mapper *)

Section table_exceptions.

Context {env : np.environment}.

Lemma table_exn_cons (ln : P.line) (rest : list P.line) (e : exn) :
  Laws.table_exn rest e -> Laws.table_exn (ln :: rest) e.
Proof.
  unfold Laws.table_exn.
  intros [H|[H|[(He & l0 & reg & idx & frac & Hin & H)
               |[(He & [(l0 & n & Hin & H)|(l0 & reg & idx & Hin & H)])
                |(He & l0 & n & Hin & H)]]]].
  - left. exact H.
  - right. left. exact H.
  - right. right. left. split; [exact He|].
    exists l0, reg, idx, frac. split; [apply elem_of_cons; right; exact Hin|exact H].
  - right. right. right. left. split; [exact He|]. left.
    exists l0, n. split; [apply elem_of_cons; right; exact Hin|exact H].
  - right. right. right. left. split; [exact He|]. right.
    exists l0, reg, idx. split; [apply elem_of_cons; right; exact Hin|exact H].
  - right. right. right. right. split; [exact He|].
    exists l0, n. split; [apply elem_of_cons; right; exact Hin|exact H].
Qed.

Lemma loop_body_exn (st : P.locals) (ln : P.line) (e : exn) :
  P.loop_body st ln = Raise e -> Laws.table_exn [ln] e.
Proof.
  assert (Hin : ln ∈ [ln]) by (apply elem_of_cons; left; reflexivity).
  unfold P.loop_body, Laws.table_exn. intros H.
  apply bind_Raise_inv in H as [H|(lut1 & _ & H)].
  - destruct (P.num_entries_match ln) as [n|] eqn:Hn; [|discriminate].
    apply bind_Raise_inv in H as [H|(a & _ & H)]; [|discriminate].
    unfold np.zeros in H.
    destruct (np.zeros_outcome n) eqn:Hz; [discriminate| |];
      injection H as <-.
    + right. right. right. left. split; [reflexivity|]. left.
      exists ln, n. repeat split; assumption.
    + right. right. right. right. split; [reflexivity|].
      exists ln, n. repeat split; assumption.
  - destruct (P.entry_match ln) as [[[reg idx] [frac|]]|] eqn:He;
      [| |discriminate].
    + destruct lut1 as [a|].
      * apply bind_Raise_inv in H as [H|(a' & _ & H)]; [|discriminate].
        unfold P.setitem in H.
        destruct (idx <? length a)%nat.
        -- destruct (N.ltb_spec reg 65536) as [Hreg|Hreg]; [discriminate|].
           destruct (np.out_of_bound_raises reg) eqn:Hraise; [|discriminate].
           injection H as <-. right. right. left. split; [reflexivity|].
           exists ln, reg, idx, (Some frac). repeat split; assumption.
        -- injection H as <-. right. left. reflexivity.
      * injection H as <-. left. reflexivity.
    + injection H as <-. right. right. right. left. split; [reflexivity|].
      right. exists ln, reg, idx. split; assumption.
Qed.

Lemma loop_exn (h : list P.line) (st : P.locals) (e : exn) :
  P.loop st h = Raise e -> Laws.table_exn h e.
Proof.
  revert st. induction h as [|ln rest IH]; intros st; [discriminate|].
  cbn [P.loop]. intros H.
  apply bind_Raise_inv in H as [H|(st1 & _ & H)].
  - apply loop_body_exn in H. clear IH.
    unfold Laws.table_exn in *.
    assert (Hsub : forall l0 : P.line, l0 ∈ [ln] -> l0 ∈ ln :: rest).
    { intros l0 Hl0. apply elem_of_cons in Hl0 as [->|Hl0];
        [apply elem_of_cons; left; reflexivity|].
      apply elem_of_nil in Hl0. contradiction. }
    destruct H as [H|[H|[(He & l0 & reg & idx & frac & Hin & H)
                        |[(He & [(l0 & n & Hin & H)|(l0 & reg & idx & Hin & H)])
                         |(He & l0 & n & Hin & H)]]]].
    + left. exact H.
    + right. left. exact H.
    + right. right. left. split; [exact He|].
      exists l0, reg, idx, frac. split; [exact (Hsub _ Hin)|exact H].
    + right. right. right. left. split; [exact He|]. left.
      exists l0, n. split; [exact (Hsub _ Hin)|exact H].
    + right. right. right. left. split; [exact He|]. right.
      exists l0, reg, idx. split; [exact (Hsub _ Hin)|exact H].
    + right. right. right. right. split; [exact He|].
      exists l0, n. split; [exact (Hsub _ Hin)|exact H].
  - apply table_exn_cons. exact (IH st1 H).
Qed.

Lemma init_exn (h : list P.line) (e : exn) :
  P.init h = Raise e -> Laws.table_exn h e.
Proof.
  unfold P.init. intros H.
  apply bind_Raise_inv in H as [H|(st & _ & H)]; [exact (loop_exn _ _ _ H)|].
  destruct (P.lut st); [discriminate|].
  injection H as <-. left. reflexivity.
Qed.

End table_exceptions.

(** X19: constructing the mapper.  The constructor runs the frequency
    model's constructor first and the table's second.  When it returns,
    the object holds the table of the header and a configuration that
    passes the frequency model, with its frequency cached; [verbose] is
    set only afterwards, so the model is first run silently.  When it
    raises, either the frequency model raised one of its exceptions, or
    the model passed and the table constructor raised: UnboundLocalError
    or IndexError; ValueError, at a size [np.zeros] refuses or at a
    fraction that is not a float literal; MemoryError, at a size that
    cannot be allocated; or OverflowError, at a register above 65535
    where the NumPy at hand raises on it. *)
Theorem mapper_construction {env : np.environment} (h : list P.line)
    (i F R OD ACD f p : pyval) (vb : bool) :
  let built := E.init h i F R OD ACD f p vb in
  (forall self, built = Ok self ->
     P.init h = Ok (E.table self) /\
     (exists v, A.calc_frequency_value (E.pll self) = Ok v /\
                A.get_output_freqency (E.pll self) = Some v) /\
     E.pll self
     = A.mk i F R OD ACD f p (A.get_output_freqency (E.pll self)) 0 vb) /\
  (forall e, built = Raise e ->
     (A.init i F R OD ACD f p false = Raise e /\ Laws.calc_exn e) \/
     (is_ok (A.init i F R OD ACD f p false) = true /\ P.init h = Raise e /\
      Laws.table_exn h e)) /\
  is_ok built = is_ok (A.init i F R OD ACD f p false) && is_ok (P.init h).
Proof.
  intros built. subst built. unfold E.init, A.init, A.calc_frequency.
  destruct (A.calc_frequency_value (A.mk i F R OD ACD f p None 0 false))
    as [v|e0] eqn:Hc.
  - cbn [mbind result_bind bind].
    destruct (P.init h) as [t|e1] eqn:Ht; cbn [mbind result_bind bind].
    + split; [|split; [|reflexivity]]; [|discriminate].
      intros self H. injection H as <-.
      cbn [E.table E.pll E.get_lut A.set_output_frequency A.input_frequency
           A.F A.R A.OD A.ACD A.f A.p A.output_frequency A.lock_status_state
           A.get_output_freqency].
      split; [reflexivity|]. split; [|reflexivity].
      exists v. split; [exact Hc|reflexivity].
    + split; [discriminate|]. split; [|reflexivity].
      intros e H. injection H as <-. right.
      split; [reflexivity|]. split; [reflexivity|].
      exact (init_exn h e1 Ht).
  - cbn [mbind result_bind bind]. split; [discriminate|].
    split; [|reflexivity].
    intros e H. injection H as <-. left.
    split; [reflexivity|exact (calc_frequency_value_exn _ _ Hc)].
Qed.
